(** * Painter-SAM2: the mask codec, the compositing engine, the mask
      selection service and the session store

    A shallow embedding of [backend/modal_sam2.py] (the oracle-side
    [SAM2Model] helpers) and of [backend/main.py] (the session service),
    with the properties of the design document stated over it.

    Conventions.
    - Python exceptions are the [Err] branch of [result]; the exception
      classes that the source distinguishes are the constructors of [exn].
    - numpy arrays are [ndarray]s: an explicit shape and the cells in
      row-major order.
    - numpy [float32] and Python [float] values are IEEE-754 binary32 and
      binary64 data of the standard library's [SpecFloat], so every
      rounding of the source is a rounding of the model.
    - PIL, OpenCV and the random generator are libraries outside the
      repository; what the source needs from them is collected in the
      class [Libs], and [ref_libs] is a small executable instance. *)

From stdpp Require Import base list gmap strings.
From Stdlib Require Import ZArith Ascii Floats.SpecFloat.

Open Scope Z_scope.

(** ** Exceptions and results *)

Inductive exn :=
  | ValueError            (* raised by the helpers of [SAM2Model] *)
  | BinasciiError         (* base64.b64decode *)
  | UnidentifiedImageError(* PIL.Image.open *)
  | CvError               (* cv2.error *)
  | IndexError
  | KeyError
  | FileNotFoundError
  | RemoteError           (* httpx errors and "Modal error: ..." *)
  | HTTPException (status : Z).

Inductive result (A : Type) :=
  | Ok (a : A)
  | Err (e : exn).
Arguments Ok {A} a.
Arguments Err {A} e.

#[global] Instance result_ret : MRet result := λ A a, Ok a.
#[global] Instance result_bind : MBind result := λ A B k r,
  match r with
  | Ok a => k a
  | Err e => Err e
  end.

(** [try: ... except Exception as e: raise ValueError(...)] *)
Definition reraise_as {A} (e' : exn) (r : result A) : result A :=
  match r with
  | Ok a => Ok a
  | Err _ => Err e'
  end.

Definition is_ok {A} (r : result A) : bool :=
  match r with
  | Ok _ => true
  | Err _ => false
  end.

(** ** Floating point *)

(** numpy [float32]. *)
Module F32.
Definition prec : Z := 24.
Definition emax : Z := 128.
Definition of_Z (n : Z) : spec_float := binary_normalize prec emax n 0 false.
(** [n * 2^e], exact when [n] has at most 24 bits. *)
Definition ldexp (n e : Z) : spec_float := binary_normalize prec emax n e false.
Definition add := SFadd prec emax.
Definition sub := SFsub prec emax.
Definition mul := SFmul prec emax.
Definition div := SFdiv prec emax.
(** Rounding of a binary64 value to binary32 (a numpy cast, or a Python
    scalar entering a [float32] operation). *)
Definition round (x : spec_float) : spec_float :=
  match x with
  | S754_finite s m e => binary_normalize prec emax (cond_Zopp s (Zpos m)) e s
  | _ => x
  end.
End F32.

(** Python [float] and numpy [float64]. *)
Module F64.
Definition prec : Z := 53.
Definition emax : Z := 1024.
Definition of_Z (n : Z) : spec_float := binary_normalize prec emax n 0 false.
Definition add := SFadd prec emax.
Definition sub := SFsub prec emax.
Definition mul := SFmul prec emax.
Definition div := SFdiv prec emax.
Definition ltb := SFltb.
(** The literal [n / d] written in decimal in the source, correctly
    rounded: [0.3] is [dec 3 10]. *)
Definition dec (n d : Z) : spec_float := div (of_Z n) (of_Z d).
(** A binary32 value seen as a binary64 value (exact). *)
Definition of_f32 (x : spec_float) : spec_float :=
  match x with
  | S754_finite s m e => binary_normalize prec emax (cond_Zopp s (Zpos m)) e s
  | _ => x
  end.
Definition max (x y : spec_float) : spec_float := if ltb x y then y else x.
Definition min (x y : spec_float) : spec_float := if ltb y x then y else x.
(** [np.clip(x, lo, hi)] *)
Definition clip (x lo hi : spec_float) : spec_float := min (max x lo) hi.
End F64.

Arguments F32.of_Z : simpl never.
Arguments F32.ldexp : simpl never.
Arguments F32.add : simpl never.
Arguments F32.sub : simpl never.
Arguments F32.mul : simpl never.
Arguments F32.div : simpl never.
Arguments F32.round : simpl never.
Arguments F64.of_Z : simpl never.
Arguments F64.add : simpl never.
Arguments F64.sub : simpl never.
Arguments F64.mul : simpl never.
Arguments F64.div : simpl never.
Arguments F64.ltb : simpl never.
Arguments F64.dec : simpl never.
Arguments F64.of_f32 : simpl never.
Arguments F64.clip : simpl never.

(** Equality of two floating-point data, as a boolean *)
Definition sf_eqb (x y : spec_float) : bool :=
  match x, y with
  | S754_zero a, S754_zero b => Bool.eqb a b
  | S754_infinity a, S754_infinity b => Bool.eqb a b
  | S754_nan, S754_nan => true
  | S754_finite s m e, S754_finite s' m' e' =>
      Bool.eqb s s' && Pos.eqb m m' && Z.eqb e e'
  | _, _ => false
  end.

(** Truncation towards zero: Python's [int(x)] on a finite float. *)
Definition float_trunc (x : spec_float) : Z :=
  match x with
  | S754_finite s m e =>
      let a := match e with
               | Zneg p => Z.shiftr (Zpos m) (Zpos p)
               | _ => Z.shiftl (Zpos m) e
               end in
      cond_Zopp s a
  | _ => 0
  end.

(** [arr.astype(np.uint8)] on a float array: the C conversion truncates, and
    a value outside [0, 255] wraps modulo 256. *)
Definition astype_uint8 (x : spec_float) : Z := float_trunc x `mod` 256.

(** ** numpy arrays *)

Record ndarray (A : Type) := NDArray {
  nrows : nat;
  ncols : nat;
  cells : list A
}.
Arguments NDArray {A} _ _ _.
Arguments nrows {A} _.
Arguments ncols {A} _.
Arguments cells {A} _.

(** [arr.shape[:2]] *)
Definition shape {A} (a : ndarray A) : nat * nat := (nrows a, ncols a).

(** [arr[y, x]] for indices already known to be in range *)
Definition cell {A} (d : A) (a : ndarray A) (y x : nat) : A :=
  nth (y * ncols a + x) (cells a) d.

Definition amap {A B} (f : A → B) (a : ndarray A) : ndarray B :=
  NDArray (nrows a) (ncols a) (f <$> cells a).

(** One pixel of an (h, w, 3) array. *)
Record rgb (A : Type) := RGB { red : A; green : A; blue : A }.
Arguments RGB {A} _ _ _.
Arguments red {A} _.
Arguments green {A} _.
Arguments blue {A} _.

Definition rgb_map {A B} (f : A → B) (p : rgb A) : rgb B :=
  RGB (f (red p)) (f (green p)) (f (blue p)).

(** [for i in range(3)]: the same expression on each channel, [c] being the
    channel's entry of a per-channel constant and [p], [q] the channel's
    values in two arrays. *)
Definition rgb_zip3 {A B C D} (f : A → B → C → D)
    (c : rgb A) (p : rgb B) (q : rgb C) : rgb D :=
  RGB (f (red c) (red p) (red q))
      (f (green c) (green p) (green q))
      (f (blue c) (blue p) (blue q)).

Abbreviation image := (ndarray (rgb Z)).
Abbreviation mask := (ndarray bool).

(** ** The libraries behind the source *)

(** Python [bytes]: a list of octets. *)
Abbreviation bytes := (list ascii).

Definition Z_of_byte (a : ascii) : Z := Z.of_N (N_of_ascii a).
Definition byte_of_Z (z : Z) : ascii := ascii_of_N (Z.to_N z).

(** A decoded PIL image: its mode, its size and, in row-major order, the
    band values of each pixel (one value in mode L, three in RGB, four in
    RGBA). *)
Inductive mode := ModeL | ModeRGB | ModeRGBA.

Record pil_image := PILImage {
  im_mode : mode;
  im_width : nat;
  im_height : nat;
  im_data : list (list Z)
}.

Definition bands (m : mode) : nat :=
  match m with
  | ModeL => 1
  | ModeRGB => 3
  | ModeRGBA => 4
  end.

Class Libs := {
  (** [img.save(buffer, format='PNG')] followed by [buffer.getvalue()] *)
  png_save : pil_image → result bytes;
  (** [Image.open(io.BytesIO(data))], pixels loaded *)
  image_open : bytes → result pil_image;
  (** the cells of [cv2.resize(img, (w, h), interpolation=INTER_LANCZOS4)] *)
  lanczos4 : ndarray (rgb Z) → nat → nat → list (rgb Z);
  (** the cells of [cv2.resize(arr, (w, h))] on a uint8 array *)
  linear_u8 : ndarray Z → nat → nat → list Z;
  (** the n-th number drawn from numpy's global generator, in [0, 1) *)
  random_sample : nat → spec_float
}.

(** ** Colours *)

Definition hex_digit (c : ascii) : option Z :=
  let n := Z.of_nat (nat_of_ascii c) in
  if (48 <=? n) && (n <=? 57) then Some (n - 48)
  else if (65 <=? n) && (n <=? 70) then Some (n - 55)
  else if (97 <=? n) && (n <=? 102) then Some (n - 87)
  else None.

Definition py_isspace (c : ascii) : bool :=
  let n := Z.of_nat (nat_of_ascii c) in
  ((9 <=? n) && (n <=? 13)) || ((28 <=? n) && (n <=? 32)).

(** [s.lstrip(...)] over the characters satisfying [f] *)
Fixpoint lstrip {A} (f : A → bool) (s : list A) : list A :=
  match s with
  | c :: s' => if f c then lstrip f s' else s
  | [] => []
  end.

Fixpoint hex_digits (acc : Z) (s : list ascii) : option Z :=
  match s with
  | [] => Some acc
  | c :: s' => d ← hex_digit c; hex_digits (16 * acc + d) s'
  end.

(** [int(s, 16)] for the slices of at most two characters that
    [_hex_to_rgb] takes: surrounding white space is dropped, a sign is
    allowed, and what remains must be hexadecimal digits. *)
Definition int16 (s : list ascii) : result Z :=
  let s := reverse (lstrip py_isspace (reverse (lstrip py_isspace s))) in
  let '(neg, ds) :=
    match s with
    | "-"%char :: ds => (true, ds)
    | "+"%char :: ds => (false, ds)
    | _ => (false, s)
    end in
  match ds with
  | [] => Err ValueError
  | _ => match hex_digits 0 ds with
         | Some n => Ok (cond_Zopp neg n)
         | None => Err ValueError
         end
  end.

(** [s[i:i+2]] *)
Definition slice2 (i : nat) (s : list ascii) : list ascii := take 2 (drop i s).

(** [SAM2Model._hex_to_rgb] *)
Definition _hex_to_rgb (hex_color : string) : result (rgb Z) :=
  let hex_color := lstrip (λ c, bool_decide (c = "#"%char))
                     (String.list_ascii_of_string hex_color) in
  r ← int16 (slice2 0 hex_color);
  g ← int16 (slice2 2 hex_color);
  b ← int16 (slice2 4 hex_color);
  Ok (RGB r g b).

(** ** The compositing engine: [SAM2Model._paint_mask_on_image] *)

(** [cv2.borderInterpolate(i, n, BORDER_REFLECT_101)], the default border of
    [cv2.GaussianBlur]. *)
Definition reflect101 (n : nat) (i : Z) : nat :=
  if (n =? 1)%nat then 0%nat
  else if i <? 0 then Z.to_nat (- i)
  else if Z.of_nat n <=? i then Z.to_nat (2 * Z.of_nat n - 2 - i)
  else Z.to_nat i.

Definition bit (b : bool) : Z := if b then 1 else 0.

(** The 3-tap kernel that OpenCV uses for [ksize = 3, sigma = 0] is
    (1/4, 1/2, 1/4); on a 0/1 array every product and sum is exact, and the
    blurred value at a cell is [blur_weight / 16]. *)
Definition tap (d : Z) : Z := if d =? 0 then 2 else 1.

Definition blur_weight (m : mask) (y x : nat) : Z :=
  foldr Z.add 0
    (dy ← [-1; 0; 1];
     dx ← [-1; 0; 1];
     [tap dy * tap dx *
      bit (cell false m (reflect101 (nrows m) (Z.of_nat y + dy))
                        (reflect101 (ncols m) (Z.of_nat x + dx)))]).

(** [cv2.GaussianBlur(mask.astype(np.float32), (3, 3), 0)] *)
Definition GaussianBlur3 (m : mask) : ndarray spec_float :=
  NDArray (nrows m) (ncols m)
    (imap (λ i _, F32.ldexp (blur_weight m (i / ncols m) (i mod ncols m)) (-4))
          (cells m)).

(** First pass, one channel of one masked pixel:
    [painted * (1 - opacity) + rgb_color[i] * opacity] *)
Definition fill_channel (opacity : spec_float) (c : Z) (p : spec_float) : spec_float :=
  F32.add (F32.mul p (F32.round (F64.sub (F64.of_Z 1) opacity)))
          (F32.round (F64.mul (F64.of_Z c) opacity)).

(** [np.random.rand(...) * 0.1 + 0.95], clipped to [0.9, 1.0] *)
Definition texture_of (u : spec_float) : spec_float :=
  F64.clip (F64.add (F64.mul u (F64.dec 1 10)) (F64.dec 95 100))
           (F64.dec 9 10) (F64.of_Z 1).

(** Second pass, one channel of one masked pixel: [painted * texture], a
    binary64 product stored back into the binary32 array. *)
Definition texture_channel (t : spec_float) (p : spec_float) : spec_float :=
  F32.round (F64.mul (F64.of_f32 p) t).

(** Third pass, one channel of one masked pixel:
    [painted * (1 - edge_blend) + image.astype(np.float32) * edge_blend]
    with [edge_blend = blurred_mask * 0.2]. *)
Definition edge_channel (blurred : spec_float) (orig : Z) (p : spec_float) : spec_float :=
  let edge_blend := F32.mul blurred (F32.round (F64.dec 2 10)) in
  F32.add (F32.mul p (F32.sub (F32.of_Z 1) edge_blend))
          (F32.mul (F32.of_Z orig) edge_blend).

(** [np.where(mask, a, b)] on arrays of one shape *)
Definition np_where {A} (m : list bool) (a b : list A) : list A :=
  zip_with (λ (c : bool) '(x, y), if c then x else y) m (zip a b).

(** The first pass: on each channel,
    [np.where(mask, painted * (1 - opacity) + rgb_color[i] * opacity, painted)] *)
Definition color_fill_pass (opacity : spec_float) (rgb_color : rgb Z)
    (m : list bool) (painted : list (rgb spec_float)) : list (rgb spec_float) :=
  np_where m
    ((λ p, rgb_zip3 (λ c v _, fill_channel opacity c v) rgb_color p p) <$> painted)
    painted.

(** The second pass: on each channel,
    [np.where(mask, painted * texture, painted)] *)
Definition texture_pass (texture : list spec_float)
    (m : list bool) (painted : list (rgb spec_float)) : list (rgb spec_float) :=
  np_where m (zip_with (λ t p, rgb_map (texture_channel t) p) texture painted) painted.

(** The third pass: on each channel,
    [np.where(mask, painted * (1 - edge_blend) + image * edge_blend, painted)] *)
Definition edge_blend_pass (blurred : list spec_float) (orig : list (rgb Z))
    (m : list bool) (painted : list (rgb spec_float)) : list (rgb spec_float) :=
  np_where m
    (zip_with (λ '(b, o) p, rgb_zip3 (λ ov v _, edge_channel b ov v) o p p)
              (zip blurred orig) painted)
    painted.

Section Painting.
Context `{Libs}.

(** [np.random.rand(h, w)], drawing from position [st] of the
    generator's sequence *)
Definition np_random_rand (h w : nat) (st : nat) : list spec_float * nat :=
  (random_sample <$> seq st (h * w), (st + h * w)%nat).

(** The three passes of [_paint_mask_on_image], in the order of the source.
    [st] is the state of numpy's global generator; it moves only when the
    texture pass runs. The two arrays must have the same shape, as numpy
    requires of the operands of [np.where]; every exception of the body
    leaves as a [ValueError]. *)
Definition _paint_mask_on_image (img : image) (m : mask)
    (color : string) (opacity : spec_float) (st : nat) : result (image * nat) :=
  reraise_as ValueError (
    rgb_color ← _hex_to_rgb color;
    if negb (bool_decide (shape m = shape img)) then Err ValueError else
    let painted_image := rgb_map F32.of_Z <$> cells img in
    let painted_image := color_fill_pass opacity rgb_color (cells m) painted_image in
    let '(painted_image, st) :=
      if F64.ltb (F64.dec 3 10) opacity then
        let '(rand, st) := np_random_rand (nrows m) (ncols m) st in
        (texture_pass (texture_of <$> rand) (cells m) painted_image, st)
      else (painted_image, st) in
    let painted_image :=
      if existsb id (cells m) then
        edge_blend_pass (cells (GaussianBlur3 m)) (cells img) (cells m) painted_image
      else painted_image in
    Ok (NDArray (nrows img) (ncols img) (rgb_map astype_uint8 <$> painted_image), st)).
End Painting.

(** ** base64 *)

Module Base64.
Definition alphabet : list ascii :=
  String.list_ascii_of_string
    "ABCDEFGHIJKLMNOPQRSTUVWXYZabcdefghijklmnopqrstuvwxyz0123456789+/".

Definition pad : ascii := "="%char.

Definition char_of (sextet : Z) : ascii := nth (Z.to_nat sextet) alphabet "A"%char.

(** [table_a2b_base64]: the value of an alphabet character *)
Definition index_of (c : ascii) : option Z :=
  Z.of_nat <$> (fst <$> list_find (λ a, a = c) alphabet).

(** [binascii.b2a_base64] without the trailing newline: three octets make
    four characters, the last group is padded with [=]. *)
Fixpoint b2a (bs : bytes) : list ascii :=
  match bs with
  | a1 :: a2 :: a3 :: rest =>
      let '(b1, b2, b3) := (Z_of_byte a1, Z_of_byte a2, Z_of_byte a3) in
      char_of (b1 / 4) :: char_of (b1 `mod` 4 * 16 + b2 / 16)
        :: char_of (b2 `mod` 16 * 4 + b3 / 64) :: char_of (b3 `mod` 64)
        :: b2a rest
  | [a1; a2] =>
      let '(b1, b2) := (Z_of_byte a1, Z_of_byte a2) in
      [char_of (b1 / 4); char_of (b1 `mod` 4 * 16 + b2 / 16);
       char_of (b2 `mod` 16 * 4); pad]
  | [a1] =>
      let b1 := Z_of_byte a1 in
      [char_of (b1 / 4); char_of (b1 `mod` 4 * 16); pad; pad]
  | [] => []
  end.

(** [binascii.a2b_base64] in its default, non-strict mode. The loop keeps
    the position in the current quad, the bits left over from the
    previous character and the number of pad characters just seen;
    characters outside the alphabet are skipped; a complete pad sequence
    ends the input; an incomplete quad at the end is an error. *)
Fixpoint a2b (s : list ascii) (quad_pos : nat) (leftchar : Z) (pads : nat)
    (out : bytes) : result bytes :=
  match s with
  | [] => if (quad_pos =? 0)%nat then Ok out else Err BinasciiError
  | this_ch :: s' =>
      if bool_decide (this_ch = pad) then
        if (2 <=? quad_pos)%nat then
          if (4 <=? quad_pos + S pads)%nat then Ok out
          else a2b s' quad_pos leftchar (S pads) out
        else a2b s' quad_pos leftchar pads out
      else
        match index_of this_ch with
        | None => a2b s' quad_pos leftchar pads out
        | Some v =>
            match quad_pos with
            | 0%nat => a2b s' 1%nat v 0%nat out
            | 1%nat =>
                a2b s' 2%nat (Z.land v 15) 0%nat
                  (out ++ [byte_of_Z (Z.lor (Z.shiftl leftchar 2) (Z.shiftr v 4))])
            | 2%nat =>
                a2b s' 3%nat (Z.land v 3) 0%nat
                  (out ++ [byte_of_Z (Z.lor (Z.shiftl leftchar 4) (Z.shiftr v 2))])
            | _ =>
                a2b s' 0%nat 0 0%nat
                  (out ++ [byte_of_Z (Z.lor (Z.shiftl leftchar 6) v)])
            end
        end
  end.

(** [base64.b64encode(data).decode()] *)
Definition b64encode (data : bytes) : string :=
  String.string_of_list_ascii (b2a data).

(** [base64.b64decode(s)] on a [str]: the string must be ASCII. *)
Definition b64decode (s : string) : result bytes :=
  let cs := String.list_ascii_of_string s in
  if forallb (λ c, Z_of_byte c <? 128) cs then a2b cs 0%nat 0 0%nat []
  else Err ValueError.
End Base64.

(** ** PIL conversions *)

(** [image.convert('L')] on one pixel: the ITU-R 601-2 luma of PIL,
    [(R*19595 + G*38470 + B*7471 + 0x8000) >> 16]; alpha is dropped. *)
Definition luma (px : list Z) : Z :=
  match px with
  | r :: g :: b :: _ => Z.shiftr (r * 19595 + g * 38470 + b * 7471 + 32768) 16
  | v :: _ => v
  | [] => 0
  end.

(** [image.convert('RGB')] on one pixel *)
Definition to_rgb (md : mode) (px : list Z) : rgb Z :=
  match md, px with
  | ModeL, v :: _ => RGB v v v
  | _, r :: g :: b :: _ => RGB r g b
  | _, _ => RGB 0 0 0
  end.

(** [np.array(image)] of an RGB image *)
Definition array_of_rgb_image (im : pil_image) : image :=
  NDArray (im_height im) (im_width im) (to_rgb (im_mode im) <$> im_data im).

(** [Image.fromarray(arr)] of an (h, w, 3) uint8 array *)
Definition Image_fromarray_rgb (a : image) : pil_image :=
  PILImage ModeRGB (ncols a) (nrows a)
    ((λ p, [red p; green p; blue p]) <$> cells a).

(** What [np.array(mask_image) > 0] can be: a 2-D boolean array for a
    single-band image, a 3-D one for a multi-band image. No consumer in the
    source can read a cell of the 3-D form (indexing it with two indices and
    using it as a mask both raise), so only its shape is kept. *)
Inductive bool_array :=
  | Bool2D (m : mask)
  | Bool3D (h w : nat).

(** [mask_array.shape[:2]] *)
Definition shape2 (a : bool_array) : nat * nat :=
  match a with
  | Bool2D m => shape m
  | Bool3D h w => (h, w)
  end.

Section Codec.
Context `{Libs}.

(** [SAM2Model._encode_mask] on a boolean array: the four channels of the
    RGBA bitmap carry the same 0/255 value. *)
Definition rgba_of_mask (m : mask) : pil_image :=
  PILImage ModeRGBA (ncols m) (nrows m)
    ((λ b : bool, let mask_img := bit b * 255 in
                  [mask_img; mask_img; mask_img; mask_img]) <$> cells m).

Definition _encode_mask (m : mask) : result string :=
  reraise_as ValueError (
    data ← png_save (rgba_of_mask m);
    Ok (Base64.b64encode data)).

(** [np.array(mask_image) > 0], after [mask_image.convert('L')] when the
    mode is RGBA *)
Definition mask_array_of (mask_image : pil_image) : bool_array :=
  let gt0 (v : Z) := bool_decide (0 < v) in
  let '(h, w) := (im_height mask_image, im_width mask_image) in
  match im_mode mask_image with
  | ModeRGBA => Bool2D (NDArray h w ((λ px, gt0 (luma px)) <$> im_data mask_image))
  | ModeL => Bool2D (NDArray h w ((λ px, gt0 (hd 0 px)) <$> im_data mask_image))
  | ModeRGB => Bool3D h w
  end.

(** [SAM2Model._decode_mask] *)
Definition _decode_mask (base64_mask : string) : result bool_array :=
  reraise_as ValueError (
    mask_data ← Base64.b64decode base64_mask;
    mask_image ← image_open mask_data;
    Ok (mask_array_of mask_image)).

(** [cv2.resize(image_array, (new_width, new_height), INTER_LANCZOS4)]:
    OpenCV refuses an empty destination size. *)
Definition cv2_resize_lanczos (a : image) (new_width new_height : Z) : result image :=
  if (new_width <=? 0) || (new_height <=? 0) then Err CvError
  else Ok (NDArray (Z.to_nat new_height) (Z.to_nat new_width)
             (lanczos4 a (Z.to_nat new_width) (Z.to_nat new_height))).

(** [int(a * (max_size / b))], in Python floats *)
Definition scaled_dim (max_size a b : Z) : Z :=
  float_trunc (F64.mul (F64.of_Z a) (F64.div (F64.of_Z max_size) (F64.of_Z b))).

(** [SAM2Model._validate_image_size] *)
Definition _validate_image_size (image_array : image) (max_size : Z) : result image :=
  let '(height, width) := (Z.of_nat (nrows image_array), Z.of_nat (ncols image_array)) in
  if max_size <? Z.max height width then
    let '(new_width, new_height) :=
      if width <? height then (scaled_dim max_size width height, max_size)
      else (max_size, scaled_dim max_size height width) in
    cv2_resize_lanczos image_array new_width new_height
  else Ok image_array.

(** [s.startswith(p)] *)
Definition startswith (p s : string) : bool := String.prefix p s.

(** [s.split(',')[1]] *)
Definition split_comma_1 (s : string) : result string :=
  let after c := lstrip (λ a, negb (bool_decide (a = c))) in
  match after ","%char (String.list_ascii_of_string s) with
  | [] => Err IndexError
  | _ :: rest =>
      Ok (String.string_of_list_ascii
            (take (length rest - length (after ","%char rest)) rest))
  end.

(** [SAM2Model._decode_image] *)
Definition _decode_image (base64_image : string) : result image :=
  reraise_as ValueError (
    base64_image ←
      (if startswith "data:image" base64_image then split_comma_1 base64_image
       else Ok base64_image);
    image_data ← Base64.b64decode base64_image;
    img ← image_open image_data;
    (* image.convert('RGB') when the mode is not RGB *)
    let image_array := array_of_rgb_image img in
    _validate_image_size image_array 2048).

(** [cv2.resize(mask_array.astype(np.uint8), (width, height)) > 0] *)
Definition resize_mask (m : mask) (width height : nat) : result mask :=
  if ((width =? 0) || (height =? 0))%nat then Err CvError
  else Ok (NDArray height width
             ((λ v, bool_decide (0 < v)) <$> linear_u8 (amap bit m) width height)).

(** The PNG and base64 encoding of a painted array *)
Definition encode_painted (painted_image : image) : result string :=
  data ← png_save (Image_fromarray_rgb painted_image);
  Ok (Base64.b64encode data).
End Codec.

(** ** The oracle-side operations of [SAM2Model] *)

(** A colored-mask entry, a loosely typed dict in the source: every key may
    be missing. *)
Record colored_mask := ColoredMask {
  cm_mask_id : option Z;
  cm_mask : option string;
  cm_color : option string;
  cm_opacity : option spec_float
}.

(** An entry of a mask list ([MaskResponse], [MaskInfo], or a dict of
    [all_masks]). *)
Record mask_info := MaskInfo {
  mi_id : option Z;
  mi_mask : option string;
  mi_score : option spec_float;
  mi_bbox : option (list spec_float);
  mi_area : option Z;
  mi_stability_score : option spec_float
}.

Record paint_mask_result := PaintMaskResult {
  pm_painted_image : string;
  pm_width : nat;
  pm_height : nat
}.

Record paint_multiple_result := PaintMultipleResult {
  pmm_painted_image : string;
  pmm_width : nat;
  pmm_height : nat;
  pmm_num_masks_painted : nat
}.

Record point_result := PointResult {
  pr_mask : string;
  pr_score : option spec_float;
  pr_bbox : option (list spec_float);
  pr_width : nat;
  pr_height : nat
}.

(** One entry of the output of SAM2's automatic mask generator. *)
Record sam_mask := SamMask {
  segmentation : option mask;
  sam_area : option Z;
  sam_bbox : option (list spec_float);
  predicted_iou : option spec_float;
  sam_stability_score : option spec_float
}.

(** Truth value of an optional string: [None] and [''] are falsy. *)
Definition truthy (s : option string) : bool :=
  match s with
  | Some s => negb (bool_decide (s = EmptyString))
  | None => false
  end.

(** [s.strip()] *)
Definition str_strip (s : string) : string :=
  String.string_of_list_ascii
    (reverse (lstrip py_isspace (reverse (lstrip py_isspace (String.list_ascii_of_string s))))).

Definition default_color : string := "#FF0000".
Definition default_opacity : spec_float := F64.dec 7 10.

Section Oracle.
Context `{Libs}.

(** [if mask_array.shape[:2] != (height, width): mask_array =
    cv2.resize(mask_array.astype(np.uint8), (width, height)) > 0] *)
Definition ensure_shape (mask_array : bool_array) (height width : nat)
    : result bool_array :=
  if bool_decide (shape2 mask_array = (height, width)) then Ok mask_array
  else match mask_array with
       | Bool2D m => m' ← resize_mask m width height; Ok (Bool2D m')
       | Bool3D _ _ =>
           if ((width =? 0) || (height =? 0))%nat then Err CvError
           else Ok (Bool3D height width)
       end.

(** [self._paint_mask_on_image(image, mask_array, color, opacity)]; a 3-D
    mask cannot be broadcast by [np.where] into a channel plane. *)
Definition paint_array (img : image) (mask_array : bool_array)
    (color : string) (opacity : spec_float) (st : nat) : result (image * nat) :=
  match mask_array with
  | Bool2D m => _paint_mask_on_image img m color opacity st
  | Bool3D _ _ => Err ValueError
  end.

(** [SAM2Model.paint_mask] *)
Definition paint_mask (image_data mask_b64 color : string)
    (opacity : spec_float) (base_image : option string) (st : nat)
    : result (paint_mask_result * nat) :=
  image_array ←
    (if truthy base_image && truthy (str_strip <$> base_image)
     then match _decode_image (default EmptyString base_image) with
          | Ok a => Ok a
          | Err _ => _decode_image image_data
          end
     else _decode_image image_data);
  mask_array ← _decode_mask mask_b64;
  let '(height, width) := shape image_array in
  mask_array ← ensure_shape mask_array height width;
  '(painted_image, st) ← paint_array image_array mask_array color opacity st;
  painted_image_b64 ← encode_painted painted_image;
  Ok (PaintMaskResult painted_image_b64 width height, st).

(** The loop of [SAM2Model.paint_multiple_masks]: [painted_image] is the
    running image, [height] and [width] those of the decoded input. *)
Fixpoint paint_loop (height width : nat) (painted_image : image)
    (colored_masks : list colored_mask) (st : nat) : result (image * nat) :=
  match colored_masks with
  | [] => Ok (painted_image, st)
  | colored_mask :: rest =>
      let mask_b64 := cm_mask colored_mask in
      let color := default default_color (cm_color colored_mask) in
      let opacity := default default_opacity (cm_opacity colored_mask) in
      if truthy mask_b64 then
        mask_array ← _decode_mask (default EmptyString mask_b64);
        mask_array ← ensure_shape mask_array height width;
        '(painted_image, st) ← paint_array painted_image mask_array color opacity st;
        paint_loop height width painted_image rest st
      else paint_loop height width painted_image rest st
  end.

(** [SAM2Model.paint_multiple_masks] *)
Definition paint_multiple_masks (image_data : string)
    (colored_masks : list colored_mask) (st : nat)
    : result (paint_multiple_result * nat) :=
  image_array ← _decode_image image_data;
  let '(height, width) := shape image_array in
  '(painted_image, st) ← paint_loop height width image_array colored_masks st;
  painted_image_b64 ← encode_painted painted_image;
  Ok (PaintMultipleResult painted_image_b64 width height (length colored_masks), st).

(** The body of the loop of [SAM2Model.get_mask_at_point] for one
    candidate, inside its [try]: the new best pair. *)
Definition consider (x y : Z) (info : mask_info)
    (best : option mask_info * spec_float)
    : result (option mask_info * spec_float) :=
  mask_b64 ← from_option Ok (Err KeyError) (mi_mask info);
  mask_array ← _decode_mask mask_b64;
  let '(h, w) := shape2 mask_array in
  if (0 <=? y) && (y <? Z.of_nat h) && (0 <=? x) && (x <? Z.of_nat w) then
    match mask_array with
    | Bool3D _ _ => Err ValueError  (* truth value of an array *)
    | Bool2D m =>
        if cell false m (Z.to_nat y) (Z.to_nat x) then
          let score := default (F64.of_Z 0) (mi_score info) in
          if F64.ltb (snd best) score then Ok (Some info, score)
          else Ok best
        else Ok best
    end
  else Ok best.

(** The loop of [get_mask_at_point]: an exception while a candidate is
    processed is logged and the candidate is skipped. *)
Fixpoint scan_masks (x y : Z) (all_masks : list mask_info)
    (best : option mask_info * spec_float) : option mask_info * spec_float :=
  match all_masks with
  | [] => best
  | info :: rest =>
      match consider x y info best with
      | Ok best' => scan_masks x y rest best'
      | Err _ => scan_masks x y rest best
      end
  end.

(** [SAM2Model.get_mask_at_point] *)
Definition get_mask_at_point (image_data : string) (point : list Z)
    (all_masks : list mask_info) : result point_result :=
  image_array ← _decode_image image_data;
  let '(height, width) := shape image_array in
  x ← from_option Ok (Err IndexError) (point !! 0%nat);
  y ← from_option Ok (Err IndexError) (point !! 1%nat);
  let '(best_mask, best_score) := scan_masks x y all_masks (None, F64.of_Z 0) in
  match best_mask with
  | None => Err ValueError   (* "No mask found at point" *)
  | Some best_mask =>
      mask_b64 ← from_option Ok (Err KeyError) (mi_mask best_mask);
      Ok (PointResult mask_b64 (mi_score best_mask) (mi_bbox best_mask) width height)
  end.

(** The loop of [SAM2Model.generate_all_masks] that turns the generator's
    output into the response list; [masks] is the list built so far. *)
Fixpoint process_masks (masks_data : list sam_mask) (masks : list mask_info)
    : list mask_info :=
  match masks_data with
  | [] => masks
  | info :: rest =>
      match segmentation info with
      | None => process_masks rest masks
      | Some seg =>
          let area := default 0 (sam_area info) in
          if area <? 10 then process_masks rest masks
          else match _encode_mask seg with
               | Err _ => process_masks rest masks
               | Ok mask_base64 =>
                   let mask_response :=
                     MaskInfo (Some (Z.of_nat (length masks)))
                              (Some mask_base64)
                              (Some (default (F64.of_Z 0) (predicted_iou info)))
                              (sam_bbox info)
                              (Some area)
                              (Some (default (F64.of_Z 0) (sam_stability_score info))) in
                   process_masks rest (masks ++ [mask_response])
               end
      end
  end.
End Oracle.

(** ** [backend/main.py]: the local compositing fallback *)

(** [color[i:i+2]] parsed for [i] in (1, 3, 5): the first character is
    skipped, whatever it is. *)
Definition color_rgb_of (color : string) : result (rgb Z) :=
  let cs := String.list_ascii_of_string color in
  r ← int16 (slice2 1 cs);
  g ← int16 (slice2 3 cs);
  b ← int16 (slice2 5 cs);
  Ok (RGB r g b).

(** One channel of one pixel of
    [painted_image * (1 - mask_normalized * opacity)
     + colored_overlay * mask_normalized * opacity]:
    [p] is the uint8 value of the running image, [c] the uint8 value of the
    overlay and [mn] the binary32 value of the normalised mask. *)
Definition local_blend_channel (opacity mn : spec_float) (c p : Z) : Z :=
  astype_uint8
    (F32.add
       (F32.mul (F32.of_Z p) (F32.sub (F32.of_Z 1) (F32.mul mn (F32.round opacity))))
       (F32.mul (F32.mul (F32.of_Z c) mn) (F32.round opacity))).

Section LocalFallback.
Context `{Libs}.

(** [mask_array = np.array(mask_image)], first channel when the array is
    3-D, then [mask_binary = (mask_array > 128).astype(np.uint8) * 255] *)
Definition local_mask_binary (mask_image : pil_image) : ndarray Z :=
  NDArray (im_height mask_image) (im_width mask_image)
    ((λ px, bit (bool_decide (128 < hd 0 px)) * 255) <$> im_data mask_image).

(** The body of the loop of [paint_multiple_masks_local] for an entry that
    carries mask data. *)
Definition local_paint_one (painted_image : image) (mask_data color : string)
    (opacity : spec_float) : result image :=
  mask_bytes ← Base64.b64decode mask_data;
  mask_image ← image_open mask_bytes;
  let mask_binary := local_mask_binary mask_image in
  color_rgb ← color_rgb_of color;
  (* colored_overlay[mask_binary > 0] = color_rgb *)
  if negb (bool_decide (shape mask_binary = shape painted_image)) then Err IndexError else
  let blend (mb : Z) (p : rgb Z) : rgb Z :=
    let overlay := if bool_decide (0 < mb) then rgb_map (λ c, c `mod` 256) color_rgb
                   else RGB 0 0 0 in
    let mask_normalized := F32.div (F32.of_Z mb) (F32.of_Z 255) in
    rgb_zip3 (λ c p _, local_blend_channel opacity mask_normalized c p) overlay p p in
  Ok (NDArray (nrows painted_image) (ncols painted_image)
        (zip_with blend (cells mask_binary) (cells painted_image))).

Fixpoint local_paint_loop (painted_image : image)
    (colored_masks : list colored_mask) : result image :=
  match colored_masks with
  | [] => Ok painted_image
  | colored_mask :: rest =>
      let mask_data := cm_mask colored_mask in
      let color := default default_color (cm_color colored_mask) in
      let opacity := default default_opacity (cm_opacity colored_mask) in
      if negb (truthy mask_data) then local_paint_loop painted_image rest
      else
        painted_image ← local_paint_one painted_image (default EmptyString mask_data) color opacity;
        local_paint_loop painted_image rest
  end.

(** [paint_multiple_masks_local]. An RGB or RGBA image gives the (h, w, 3)
    array that the loop needs; on a single-band image the overlay
    assignment of the loop cannot succeed, and the model raises. *)
Definition paint_multiple_masks_local (image_data : string)
    (colored_masks : list colored_mask) : result paint_multiple_result :=
  image_bytes ← Base64.b64decode image_data;
  img ← image_open image_bytes;
  match im_mode img return result paint_multiple_result with
  | ModeL => Err ValueError
  | _ =>
      let image_array := array_of_rgb_image img in
      painted_image ← local_paint_loop image_array colored_masks;
      result_base64 ← encode_painted painted_image;
      Ok (PaintMultipleResult result_base64
            (ncols painted_image) (nrows painted_image) (length colored_masks))
  end.
End LocalFallback.

(** ** [backend/main.py]: the Modal client [SAM2Service] *)

(** What a POST to the Modal application can do: raise (connection error,
    timeout, HTTP error status, malformed JSON), answer with a JSON body
    holding an "error" key, or answer with a result. *)
Inductive remote_reply (A : Type) :=
  | Raises (e : exn)
  | ErrorPayload
  | Reply (a : A).
Arguments Raises {A} e.
Arguments ErrorPayload {A}.
Arguments Reply {A} a.

Record generate_result := GenerateResult {
  gr_masks : list mask_info;
  gr_total_masks : nat;
  gr_width : nat;
  gr_height : nat
}.

(** The deployed Modal application, seen from the client. *)
Record modal_app := ModalApp {
  post_paint_mask : string → string → string → spec_float
                    → remote_reply paint_mask_result;
  post_paint_multiple_masks : string → list colored_mask
                              → remote_reply paint_multiple_result;
  post_generate_masks : string → Z → spec_float → spec_float
                        → remote_reply generate_result
}.

(** [response.raise_for_status(); result = response.json();
     if "error" in result: raise Exception(...); return result] *)
Definition checked {A} (r : remote_reply A) : result A :=
  match r with
  | Raises e => Err e
  | ErrorPayload => Err RemoteError
  | Reply a => Ok a
  end.

Section Service.
Context `{Libs}.
Variable app : modal_app.

(** [SAM2Service.paint_mask]: both handlers log and re-raise. *)
Definition service_paint_mask (image_data mask_b64 color : string)
    (opacity : spec_float) : result paint_mask_result :=
  match checked (post_paint_mask app image_data mask_b64 color opacity) with
  | Ok r => Ok r
  | Err e => Err e
  end.

(** [SAM2Service.paint_multiple_masks]: any exception of the remote call
    is logged and the local fallback is used. *)
Definition service_paint_multiple_masks (image_data : string)
    (colored_masks : list colored_mask) : result paint_multiple_result :=
  match checked (post_paint_multiple_masks app image_data colored_masks) with
  | Ok r => Ok r
  | Err _ => paint_multiple_masks_local image_data colored_masks
  end.

(** [SAM2Service.generate_all_masks] *)
Definition service_generate_all_masks (image_data : string) (points_per_side : Z)
    (pred_iou_thresh stability_score_thresh : spec_float) : result generate_result :=
  checked (post_generate_masks app image_data points_per_side
             pred_iou_thresh stability_score_thresh).
End Service.

(** ** [backend/main.py]: sessions and endpoints *)

Record stored_mask := StoredMask {
  sm_mask : string;
  sm_score : option spec_float;
  sm_bbox : option (list spec_float);
  sm_area : option Z;
  sm_stability_score : option spec_float
}.

(** A value of the [sessions] dict. Times are microseconds. The keys
    [file_path] and [created_at] are tested for presence by the source. *)
Record session := Session {
  file_path : option string;
  filename : string;
  s_width : nat;
  s_height : nat;
  created_at : option Z;
  stored_masks : gmap Z stored_mask;
  image_data : string
}.

Definition set_stored_masks (s : session) (t : gmap Z stored_mask) : session :=
  Session (file_path s) (filename s) (s_width s) (s_height s) (created_at s)
          t (image_data s).

Record PaintMaskRequest := {
  pmr_session_id : string;
  pmr_mask_id : option Z;
  pmr_mask : option string;
  pmr_color : string;
  pmr_opacity : option spec_float
}.

Record PaintMultipleMasksRequest := {
  pmmr_session_id : string;
  pmmr_colored_masks : list colored_mask
}.

Record GenerateMasksRequest := {
  gmr_session_id : string;
  gmr_points_per_side : option Z;
  gmr_pred_iou_thresh : option spec_float;
  gmr_stability_score_thresh : option spec_float
}.

Definition is_zero (x : spec_float) : bool :=
  match x with
  | S754_zero _ => true
  | _ => false
  end.

(** [x or d] on an optional float: [None] and zero are falsy. *)
Definition float_or (x : option spec_float) (d : spec_float) : spec_float :=
  match x with
  | Some v => if is_zero v then d else v
  | None => d
  end.

(** [x or d] on an optional int *)
Definition int_or (x : option Z) (d : Z) : Z :=
  match x with
  | Some v => if v =? 0 then d else v
  | None => d
  end.

(** [timedelta(hours=1)] *)
Definition one_hour : Z := 3600 * 1000000.

Section Endpoints.
Context `{Libs}.
Variable app : modal_app.

(** The lookup of a stored mask by id, as [paint_mask], [combine_masks] and
    [download_painted_image] do it: 404 when the id is not in the table. *)
Definition get_mask (s : session) (mask_id : Z) : result stored_mask :=
  match stored_masks s !! mask_id with
  | None => Err (HTTPException 404)
  | Some m => Ok m
  end.

(** [POST /paint-mask] *)
Definition paint_mask_endpoint (sessions : gmap string session)
    (request : PaintMaskRequest) : result paint_mask_result :=
  match sessions !! pmr_session_id request with
  | None => Err (HTTPException 404)
  | Some session_data =>
      mask_data ←
        match pmr_mask_id request with
        | Some mask_id =>
            match stored_masks session_data !! mask_id with
            | None => Err (HTTPException 404)
            | Some m => Ok (sm_mask m)
            end
        | None => if truthy (pmr_mask request) then Ok (default EmptyString (pmr_mask request))
                  else Err (HTTPException 400)
        end;
      match service_paint_mask app (image_data session_data) mask_data
              (pmr_color request) (float_or (pmr_opacity request) (F64.dec 7 10)) with
      | Ok r => Ok r
      | Err _ => Err (HTTPException 500)
      end
  end.

(** The loop of [POST /paint-multiple-masks] that prepares the entries:
    [acc] is [colored_masks_for_processing]. [mask_id and mask_id in
    stored_masks] is false for a missing id and for the id 0. *)
Fixpoint prepare_colored_masks (stored : gmap Z stored_mask)
    (colored_masks acc : list colored_mask) : result (list colored_mask) :=
  match colored_masks with
  | [] => Ok acc
  | colored_mask :: rest =>
      let mask_id := cm_mask_id colored_mask in
      let mask_data := cm_mask colored_mask in
      let entry (m : string) :=
        ColoredMask None (Some m)
          (Some (default default_color (cm_color colored_mask)))
          (Some (default default_opacity (cm_opacity colored_mask))) in
      if truthy mask_data then
        prepare_colored_masks stored rest (acc ++ [entry (default EmptyString mask_data)])
      else
        match mask_id with
        | Some id =>
            if negb (id =? 0) then
              match stored !! id with
              | Some m => prepare_colored_masks stored rest (acc ++ [entry (sm_mask m)])
              | None => Err (HTTPException 400)
              end
            else Err (HTTPException 400)
        | None => Err (HTTPException 400)
        end
  end.

(** [POST /paint-multiple-masks] *)
Definition paint_multiple_masks_endpoint (sessions : gmap string session)
    (request : PaintMultipleMasksRequest) : result paint_multiple_result :=
  let '(img_data, stored) :=
    match sessions !! pmmr_session_id request with
    | Some session_data => (Some (image_data session_data), stored_masks session_data)
    | None => (None, ∅)
    end in
  match pmmr_colored_masks request with
  | [] => Err (HTTPException 400)
  | _ =>
      colored_masks_for_processing ←
        prepare_colored_masks stored (pmmr_colored_masks request) [];
      if negb (truthy img_data) then Err (HTTPException 400) else
      match service_paint_multiple_masks app (default EmptyString img_data)
              colored_masks_for_processing with
      | Ok r => Ok r
      | Err _ => Err (HTTPException 500)
      end
  end.

(** The loop of [POST /generate-masks] that fills the new table:
    [stored_masks[mask_info['id']] = {...}] *)
Fixpoint store_masks (masks : list mask_info) (stored : gmap Z stored_mask)
    : result (gmap Z stored_mask) :=
  match masks with
  | [] => Ok stored
  | info :: rest =>
      mask_id ← from_option Ok (Err KeyError) (mi_id info);
      m ← from_option Ok (Err KeyError) (mi_mask info);
      store_masks rest
        (<[mask_id := StoredMask m (mi_score info) (mi_bbox info) (mi_area info)
                        (mi_stability_score info)]> stored)
  end.

(** [POST /generate-masks]: the response and the new state of [sessions] *)
Definition generate_masks (sessions : gmap string session)
    (request : GenerateMasksRequest)
    : result generate_result * gmap string session :=
  let session_id := gmr_session_id request in
  let points_per_side := int_or (gmr_points_per_side request) 96 in
  let pred_iou_thresh := float_or (gmr_pred_iou_thresh request) (F64.dec 7 10) in
  let stability_score_thresh :=
    float_or (gmr_stability_score_thresh request) (F64.dec 8 10) in
  match sessions !! session_id with
  | None => (Err (HTTPException 404), sessions)
  | Some session_data =>
      match service_generate_all_masks app (image_data session_data)
              points_per_side pred_iou_thresh stability_score_thresh with
      | Err _ => (Err (HTTPException 500), sessions)
      | Ok res =>
          match store_masks (gr_masks res) ∅ with
          | Err _ => (Err (HTTPException 500), sessions)
          | Ok stored =>
              (Ok res, <[session_id := set_stored_masks session_data stored]> sessions)
          end
      end
  end.
End Endpoints.

(** ** [backend/main.py]: the reaper *)

(** [os.remove(path)] on a file system given by the set of its files *)
Definition os_remove (fs : gset string) (path : string) : result (gset string) :=
  if bool_decide (path ∈ fs) then Ok (fs ∖ {[path]}) else Err FileNotFoundError.

(** [current_time - created_at > timedelta(hours=1)] for a session that has
    the key [created_at] *)
Definition expired (current_time : Z) (s : session) : bool :=
  match created_at s with
  | Some t => bool_decide (one_hour < current_time - t)
  | None => false
  end.

(** The first loop of [cleanup_old_sessions] *)
Definition sessions_to_remove (current_time : Z) (sessions : gmap string session)
    : list string :=
  fst <$> filter (λ kv, expired current_time (snd kv) = true) (map_to_list sessions).

(** The body of the second loop, inside its [try]: the file is removed
    first, the entry of [sessions] after it. *)
Definition remove_session (session_id : string)
    (st : gmap string session * gset string)
    : result (gmap string session * gset string) :=
  let '(sessions, fs) := st in
  s ← from_option Ok (Err KeyError) (sessions !! session_id);
  fs ← match file_path s with
       | Some path => os_remove fs path
       | None => Ok fs
       end;
  Ok (delete session_id sessions, fs).

(** The second loop: an exception is logged and the loop goes on. *)
Fixpoint remove_sessions (ids : list string)
    (st : gmap string session * gset string) : gmap string session * gset string :=
  match ids with
  | [] => st
  | session_id :: rest =>
      match remove_session session_id st with
      | Ok st' => remove_sessions rest st'
      | Err _ => remove_sessions rest st
      end
  end.

(** [cleanup_old_sessions], at time [current_time] *)
Definition cleanup_old_sessions (current_time : Z)
    (st : gmap string session * gset string) : gmap string session * gset string :=
  remove_sessions (sessions_to_remove current_time (fst st)) st.

(** [DELETE /session/{session_id}]: a file that is already gone is
    tolerated. *)
Definition delete_session (session_id : string)
    (st : gmap string session * gset string)
    : result (gmap string session * gset string) :=
  let '(sessions, fs) := st in
  match sessions !! session_id with
  | None => Err (HTTPException 404)
  | Some session_data =>
      let fs := match file_path session_data with
                | Some path => match os_remove fs path with
                               | Ok fs' => fs'
                               | Err _ => fs
                               end
                | None => fs
                end in
      Ok (delete session_id sessions, fs)
  end.

(** ** A reference instance of the libraries

    Enough of PIL, OpenCV and numpy's generator to run the model: the image
    container keeps the PNG signature and stores the header and the samples
    uncompressed; both resamplers take the nearest source cell; the
    generator is a fixed sequence. *)
Module Ref.
Definition png_signature : bytes := byte_of_Z <$> [137; 80; 78; 71; 13; 10; 26; 10].

Definition mode_code (m : mode) : Z :=
  match m with
  | ModeL => 0
  | ModeRGB => 2
  | ModeRGBA => 6
  end.

Definition mode_of_code (c : Z) : option mode :=
  if c =? 0 then Some ModeL
  else if c =? 2 then Some ModeRGB
  else if c =? 6 then Some ModeRGBA
  else None.

(** Four octets, most significant first *)
Definition be32 (n : Z) : bytes :=
  byte_of_Z <$> [n / 16777216 `mod` 256; n / 65536 `mod` 256; n / 256 `mod` 256; n `mod` 256].

Definition of_be32 (bs : bytes) : Z :=
  foldl (λ acc b, acc * 256 + Z_of_byte b) 0 bs.

(** [l] cut into consecutive pieces of length [n], with [fuel] at least the
    number of pieces *)
Fixpoint chunks {A} (fuel n : nat) (l : list A) : list (list A) :=
  match fuel, l with
  | _, [] => []
  | O, _ => []
  | S fuel', _ => take n l :: chunks fuel' n (drop n l)
  end.

Definition encode (im : pil_image) : bytes :=
  png_signature ++ [byte_of_Z (mode_code (im_mode im))]
    ++ be32 (Z.of_nat (im_width im)) ++ be32 (Z.of_nat (im_height im))
    ++ (byte_of_Z <$> concat (im_data im)).

(** An image without pixels cannot be written. *)
Definition save (im : pil_image) : result bytes :=
  if ((im_width im =? 0) || (im_height im =? 0))%nat then Err ValueError
  else Ok (encode im).

Definition open (data : bytes) : result pil_image :=
  if negb (bool_decide (take 8 data = png_signature)) then Err UnidentifiedImageError
  else
    match mode_of_code (Z_of_byte (nth 8 data "000"%char)) with
    | None => Err UnidentifiedImageError
    | Some md =>
        let w := Z.to_nat (of_be32 (take 4 (drop 9 data))) in
        let h := Z.to_nat (of_be32 (take 4 (drop 13 data))) in
        let samples := Z_of_byte <$> drop 17 data in
        if negb (length samples =? w * h * bands md)%nat || (w =? 0)%nat || (h =? 0)%nat
        then Err UnidentifiedImageError
        else Ok (PILImage md w h (chunks (w * h) (bands md) samples))
    end.

(** The cell of the source nearest to cell [i] of a [w] by [h] target *)
Definition nearest {A} (d : A) (a : ndarray A) (w h : nat) (i : nat) : A :=
  cell d a ((i / w) * nrows a / h) ((i mod w) * ncols a / w).

Definition resample {A} (d : A) (a : ndarray A) (w h : nat) : list A :=
  nearest d a w h <$> seq 0 (h * w).

(** 0.0, 0.1, ..., 0.9, 0.0, ... *)
Definition sample (n : nat) : spec_float := F64.dec (Z.of_nat (n mod 10)) 10.
End Ref.

Definition ref_libs : Libs := {|
  png_save := Ref.save;
  image_open := Ref.open;
  lanczos4 := Ref.resample (RGB 0 0 0);
  linear_u8 := Ref.resample 0;
  random_sample := Ref.sample
|}.

(** ** Predicates of the statements *)

(** The files of the sessions other than [k] are not the file [path]. *)
Definition file_of_no_other (sessions : gmap string session) (k path : string) : Prop :=
  ∀ k' s', sessions !! k' = Some s' → k' ≠ k → file_path s' ≠ Some path.

(** A value of a uint8 array *)
Definition uint8 (v : Z) : Prop := 0 ≤ v ≤ 255.

Definition rgb_all {A} (P : A → Prop) (p : rgb A) : Prop :=
  P (red p) ∧ P (green p) ∧ P (blue p).



(** ** The design document's [paintOne] and [paintMany] *)

Section Design.
Context `{Libs}.

(** [paintOne] on a request and a base image: the mask of the request is
    decoded, brought to the size of the base and painted with
    [_paint_mask_on_image]; a request that carries no mask data paints
    nothing. *)
Definition paintOne (base : image) (req : colored_mask) (st : nat)
    : result (image * nat) :=
  if truthy (cm_mask req) then
    mask_array ← _decode_mask (default EmptyString (cm_mask req));
    mask_array ← ensure_shape mask_array (nrows base) (ncols base);
    paint_array base mask_array (default default_color (cm_color req))
      (default default_opacity (cm_opacity req)) st
  else Ok (base, st).

(** [paintMany]: [paintOne] folded over the requests from the left, the
    output of a step being the base of the next. *)
Definition paintMany (img : image) (reqs : list colored_mask) (st : nat)
    : result (image * nat) :=
  foldl (λ acc req, '(base, st) ← acc; paintOne base req st) (Ok (img, st)) reqs.

(** The candidate's mask decodes to a 2-D array that is true at (x, y). *)
Definition contains_point (info : mask_info) (x y : Z) : Prop :=
  ∃ b64 m, mi_mask info = Some b64 ∧ _decode_mask b64 = Ok (Bool2D m)
           ∧ 0 ≤ y < Z.of_nat (nrows m) ∧ 0 ≤ x < Z.of_nat (ncols m)
           ∧ cell false m (Z.to_nat y) (Z.to_nat x) = true.

(** The table entry that [POST /generate-masks] builds from an entry of
    the oracle's list *)
Definition stored_of (info : mask_info) : stored_mask :=
  StoredMask (default EmptyString (mi_mask info)) (mi_score info) (mi_bbox info)
             (mi_area info) (mi_stability_score info).

(** The entries of [l] carry the ids [k], [k + 1], ... in order, and each
    has mask data. *)
Definition indexed_from (k : nat) (l : list mask_info) : Prop :=
  ∀ i info, l !! i = Some info →
    mi_id info = Some (Z.of_nat (k + i)) ∧ is_Some (mi_mask info).

(** The step of the local fallback, for comparison *)
Definition local_step (base : image) (req : colored_mask) : result image :=
  if truthy (cm_mask req) then
    local_paint_one base (default EmptyString (cm_mask req))
      (default default_color (cm_color req))
      (default default_opacity (cm_opacity req))
  else Ok base.
End Design.

(** ** Example data *)

Module Examples.
Definition gray (v : Z) : rgb Z := RGB v v v.
Definition zero : spec_float := S754_zero false.

(** A 3 by 3 image whose centre pixel is (13, 13, 13), and the mask that
    selects the centre only. *)
Definition img3 : image := NDArray 3 3 (gray <$> [1; 2; 3; 4; 13; 6; 7; 8; 9]).
Definition centre : mask :=
  NDArray 3 3 [false; false; false; false; true; false; false; false; false].
Definition img3_darkened : image :=
  NDArray 3 3 (gray <$> [1; 2; 3; 4; 12; 6; 7; 8; 9]).

(** A 2 by 2 image and masks on it, in their transport encoding *)
Definition img2 : image := NDArray 2 2 (gray <$> [100; 100; 100; 100]).
Definition b64_of_image (a : image) : string :=
  Base64.b64encode (Ref.encode (Image_fromarray_rgb a)).
Definition img2_b64 : string := b64_of_image img2.
Definition full2 : mask := NDArray 2 2 [true; true; true; true].
Definition corner2 : mask := NDArray 2 2 [true; false; false; false].
Definition b64_of (m : mask) : string := Base64.b64encode (Ref.encode (rgba_of_mask m)).

Definition data_uri_prefix : string := "data:image/png;base64,".

(** An 11 by 11 image and three masks that all contain the point
    (10, 10) *)
Definition img11 : image := NDArray 11 11 (replicate 121 (gray 50)).
Definition img11_b64 : string := b64_of_image img11.
Definition full11 : mask := NDArray 11 11 (replicate 121 true).
Definition last_row11 : mask := NDArray 11 11 (replicate 110 false ++ replicate 11 true).
Definition last_cell11 : mask := NDArray 11 11 (replicate 120 false ++ [true]).
Definition candidate (m : mask) (score : option spec_float) : mask_info :=
  MaskInfo None (Some (b64_of m)) score None None None.

(** A Modal application that cannot be reached *)
Definition unreachable : modal_app :=
  ModalApp (λ _ _ _ _, Raises RemoteError) (λ _ _, Raises RemoteError)
           (λ _ _ _ _, Raises RemoteError).

(** The deployed Modal application of [modal_sam2.py] answers 400 to both
    painting endpoints ("This operation should be handled locally"), which
    [raise_for_status] turns into an exception. *)
Definition deployed_painting : modal_app :=
  ModalApp (λ _ _ _ _, Raises (HTTPException 400)) (λ _ _, Raises (HTTPException 400))
           (λ _ _ _ _, Raises RemoteError).

Definition stored (m : mask) : stored_mask := StoredMask (b64_of m) None None None None.

(** A session on [img2] whose table holds masks 0 and 1 *)
Definition session2 : session :=
  Session (Some "s2_a.png") "a.png" 2 2 (Some 0)
          (<[0 := stored full2]> (<[1 := stored corner2]> ∅)) img2_b64.
Definition sessions2 : gmap string session := {[ "s2" := session2 ]}.

Definition red_id (id : Z) : colored_mask :=
  ColoredMask (Some id) None (Some "#FF0000") (Some (F64.dec 5 10)).
Definition red_inline (m : mask) : colored_mask :=
  ColoredMask None (Some (b64_of m)) (Some "#FF0000") (Some (F64.dec 5 10)).

(** Two requests that paint the whole of [img2], below the opacity at
    which the texture pass starts *)
Definition red25 : colored_mask :=
  ColoredMask None (Some (b64_of full2)) (Some "#FF0000") (Some (F64.dec 25 100)).
Definition blue25 : colored_mask :=
  ColoredMask None (Some (b64_of full2)) (Some "#0000FF") (Some (F64.dec 25 100)).
Definition flat2 (r g b : Z) : image := NDArray 2 2 (replicate 4 (RGB r g b)).

(** Two sessions created at time 0, two hours old at [two_hours]; only
    the file of the first is on disk. *)
Definition two_hours : Z := 2 * one_hour.
Definition old_with_file : session :=
  Session (Some "a_x.png") "x.png" 2 2 (Some 0) ∅ img2_b64.
Definition old_without_file : session :=
  Session (Some "b_y.png") "y.png" 2 2 (Some 0) ∅ img2_b64.
Definition young : session :=
  Session (Some "c_z.png") "z.png" 2 2 (Some one_hour) ∅ img2_b64.
Definition aged_sessions : gmap string session :=
  {[ "a" := old_with_file; "b" := old_without_file; "c" := young ]}.
Definition disk : gset string := {[ "a_x.png"; "c_z.png" ]}.

(** A decoded image one pixel wide and 2049 pixels high *)
Definition thin : image := NDArray 2049 1 (replicate 2049 (gray 7)).
Definition thin_b64 : string := b64_of_image thin.

(** Two raw masks of the generator, both large enough to be kept *)
Definition raw (m : mask) : sam_mask :=
  SamMask (Some m) (Some 12) None (Some (F64.dec 9 10)) (Some (F64.of_Z 1)).
Definition generator_app : modal_app :=
  ModalApp (λ _ _ _ _, Raises RemoteError) (λ _ _, Raises RemoteError)
           (λ _ _ _ _, Reply (GenerateResult
                                (@process_masks ref_libs [raw full2; raw corner2] [])
                                2 2 2)).
Definition gen_request : GenerateMasksRequest :=
  Build_GenerateMasksRequest "s2" None None None.
End Examples.

(** * The rest of the two files *)

(** ** Predicates on arrays and floats *)

(** The cells of an array are as many as its shape says. *)
Definition wf_array {A} (a : ndarray A) : Prop :=
  length (cells a) = (nrows a * ncols a)%nat.


(** ** [SAM2Model._calculate_bbox] *)

(** [np.where(mask)] on a 2-D boolean array: the row and the column of each
    true cell, in row-major order *)
Definition np_nonzero (m : mask) : list (nat * nat) :=
  omap (λ '(i, b), if b : bool then Some (i / ncols m, i mod ncols m)%nat else None)
       (imap pair (cells m)).

(** [np.min] and [np.max] of a non-empty array of indices *)
Definition np_min (l : list Z) : Z := foldr Z.min (hd 0 l) l.
Definition np_max (l : list Z) : Z := foldr Z.max (hd 0 l) l.

(** [_calculate_bbox] on a 2-D boolean array:
    [x_min, y_min, x_max, y_max] as floats, [None] for an empty mask *)
Definition _calculate_bbox (m : mask) : option (list spec_float) :=
  let idx := np_nonzero m in
  let y_indices := (λ yx, Z.of_nat yx.1) <$> idx in
  let x_indices := (λ yx, Z.of_nat yx.2) <$> idx in
  if (0 <? length y_indices)%nat && (0 <? length x_indices)%nat then
    Some [F64.of_Z (np_min x_indices); F64.of_Z (np_min y_indices);
          F64.of_Z (np_max x_indices); F64.of_Z (np_max y_indices)]
  else None.

(** ** [SAM2Model.combine_masks] *)

Record combine_result := CombineResult {
  cr_combined_mask : string;
  cr_width : nat;
  cr_height : nat;
  cr_num_masks_combined : nat
}.

(** numpy's broadcasting of one dimension against another *)
Definition broadcast_dim (a b : nat) : option nat :=
  if (a =? b)%nat then Some a
  else if (a =? 1)%nat then Some b
  else if (b =? 1)%nat then Some a
  else None.

(** The cell of [m] that broadcasting reads at (y, x) *)
Definition broadcast_cell (m : mask) (y x : nat) : bool :=
  cell false m (if (nrows m =? 1)%nat then 0 else y) (if (ncols m =? 1)%nat then 0 else x).

(** [a | b] on boolean arrays. Two 2-D arrays of one shape are combined
    cell by cell; other shapes are broadcast, a 2-D shape (h, w) against a
    3-D shape (h', w', 3) as (1, h, w). *)
Definition np_or (a b : bool_array) : result bool_array :=
  match a, b with
  | Bool2D m, Bool2D m' =>
      if bool_decide (shape m = shape m') then
        Ok (Bool2D (NDArray (nrows m) (ncols m) (zip_with orb (cells m) (cells m'))))
      else
        match broadcast_dim (nrows m) (nrows m'), broadcast_dim (ncols m) (ncols m') with
        | Some h, Some w =>
            Ok (Bool2D (NDArray h w
                  ((λ i, broadcast_cell m (i / w) (i mod w)
                         || broadcast_cell m' (i / w) (i mod w)) <$> seq 0 (h * w))))
        | _, _ => Err ValueError
        end
  | Bool2D m, Bool3D h w | Bool3D h w, Bool2D m =>
      match broadcast_dim (nrows m) w, broadcast_dim (ncols m) 3 with
      | Some w', Some _ => Ok (Bool3D h w')
      | _, _ => Err ValueError
      end
  | Bool3D h w, Bool3D h' w' =>
      match broadcast_dim h h', broadcast_dim w w' with
      | Some h'', Some w'' => Ok (Bool3D h'' w'')
      | _, _ => Err ValueError
      end
  end.

Section Combine.
Context `{Libs}.

(** [_encode_mask] on what [np.array(...) > 0] can be: the planes of the
    RGBA array are 2-D, and a 3-D array cannot be assigned to one. *)
Definition encode_bool_array (a : bool_array) : result string :=
  match a with
  | Bool2D m => _encode_mask m
  | Bool3D _ _ => Err ValueError
  end.

(** A mask of a request, decoded and brought to the size of the image, as
    the loops of [combine_masks], [paint_mask] and [paint_multiple_masks]
    do. *)
Definition normalized_mask (height width : nat) (mask_b64 : string) : result bool_array :=
  mask_array ← _decode_mask mask_b64;
  ensure_shape mask_array height width.

(** The loop of [combine_masks] *)
Fixpoint combine_loop (height width : nat) (masks : list string)
    (combined_mask : option bool_array) : result (option bool_array) :=
  match masks with
  | [] => Ok combined_mask
  | mask_b64 :: rest =>
      mask_array ← _decode_mask mask_b64;
      mask_array ← ensure_shape mask_array height width;
      combined_mask ← match combined_mask with
                      | None => Ok mask_array
                      | Some c => np_or c mask_array
                      end;
      combine_loop height width rest (Some combined_mask)
  end.

(** [SAM2Model.combine_masks] *)
Definition combine_masks (image_data : string) (masks : list string)
    : result combine_result :=
  image_array ← _decode_image image_data;
  let '(height, width) := shape image_array in
  match masks with
  | [] => Err ValueError
  | _ =>
      combined_mask ← combine_loop height width masks None;
      combined_mask_b64 ← from_option encode_bool_array (Err ValueError) combined_mask;
      Ok (CombineResult combined_mask_b64 width height (length masks))
  end.
End Combine.

(** ** The FastAPI application of [modal_sam2.py] *)

(** The conversion of a float to an [int] field of a pydantic model: only a
    float without fractional part is accepted. *)
Definition int_of_float (x : spec_float) : option Z :=
  match x with
  | S754_zero _ => Some 0
  | S754_finite _ m e =>
      if (0 <=? e) || (Z.land (Zpos m) (Z.ones (- e)) =? 0) then Some (float_trunc x)
      else None
  | _ => None
  end.

Module ModalApi.
(** The endpoints of the CPU operations: "This operation should be handled
    locally". *)
Definition combine_masks_endpoint (image_data : string) (masks : list string)
    : result combine_result :=
  Err (HTTPException 400).

Definition paint_mask_endpoint (image_data mask_b64 color : string)
    (opacity : spec_float) : result paint_mask_result :=
  Err (HTTPException 400).

Definition paint_multiple_masks_endpoint (image_data : string)
    (colored_masks : list colored_mask) : result paint_multiple_result :=
  Err (HTTPException 400).

Record GetMaskAtPointInstantRequest := {
  session_id : string;
  point : list Z;
  image_hash : option string;
  all_masks : list mask_info
}.

Record GetMaskAtPointInstantResponse := {
  r_session_id : string;
  r_mask : string;
  r_score : option spec_float;
  r_bbox : option (list Z);
  r_cached : bool
}.

(** [POST /get-mask-at-point-instant]: the request model has no field
    [image_data], so [get_mask_at_point] is called on the empty string; the
    response model wants an integer box. Every exception of the body,
    the 400 of the validation included, is answered 500. *)
Definition get_mask_at_point_instant_endpoint `{Libs}
    (request : GetMaskAtPointInstantRequest) : result GetMaskAtPointInstantResponse :=
  let body :=
    if negb (bool_decide (length (point request) = 2%nat)) then Err (HTTPException 400)
    else match all_masks request with
         | [] => Err (HTTPException 400)
         | _ =>
             res ← get_mask_at_point EmptyString (point request) (all_masks request);
             bbox ← match pr_bbox res with
                    | None => Ok None
                    | Some l => from_option (λ l', Ok (Some l')) (Err ValueError)
                                            (mapM int_of_float l)
                    end;
             Ok (Build_GetMaskAtPointInstantResponse (session_id request)
                   (pr_mask res) (pr_score res) bbox false)
         end in
  match body with
  | Ok r => Ok r
  | Err _ => Err (HTTPException 500)
  end.
End ModalApi.

(** What an [httpx] client sees of a FastAPI endpoint: the result, or a
    status of 400 or more, which [raise_for_status] turns into an
    exception. *)
Definition over_http {A} (r : result A) : remote_reply A :=
  match r with
  | Ok a => Reply a
  | Err _ => Raises RemoteError
  end.

(** ** [backend/main.py]: the mask codec *)

Section MainCodec.
Context `{Libs}.

(** [Image.fromarray(mask_binary, mode='L')] with
    [mask_binary = (mask_array > 0).astype(np.uint8) * 255] *)
Definition gray_of_mask_array (mask_array : ndarray Z) : pil_image :=
  PILImage ModeL (ncols mask_array) (nrows mask_array)
    ((λ v, [bit (bool_decide (0 < v)) * 255]) <$> cells mask_array).

(** [mask_to_base64] *)
Definition mask_to_base64 (mask_array : ndarray Z) : result string :=
  data ← png_save (gray_of_mask_array mask_array);
  Ok (Base64.b64encode data).

(** [image.convert('L')] on one pixel *)
Definition to_gray (md : mode) (px : list Z) : Z :=
  match md with
  | ModeL => hd 0 px
  | _ => luma px
  end.

(** [base64_to_mask] *)
Definition base64_to_mask (base64_str : string) : result mask :=
  mask_data ← Base64.b64decode base64_str;
  mask_image ← image_open mask_data;
  Ok (NDArray (im_height mask_image) (im_width mask_image)
        ((λ px, bool_decide (0 < to_gray (im_mode mask_image) px))
           <$> im_data mask_image)).
End MainCodec.

(** ** [backend/main.py]: file names *)

(** [c.lower()] on a character of an ASCII string *)
Definition ascii_lower (c : ascii) : ascii :=
  let n := Z.of_nat (nat_of_ascii c) in
  if (65 <=? n) && (n <=? 90) then ascii_of_nat (Z.to_nat (n + 32)) else c.

(** [s.lower()] *)
Definition str_lower (s : list ascii) : list ascii := ascii_lower <$> s.

(** [s.rfind(c)]: the last index of [c], -1 when there is none. [i] is the
    index of the head of [s], [acc] the last index found so far. *)
Fixpoint rfind_from (c : ascii) (s : list ascii) (i acc : Z) : Z :=
  match s with
  | [] => acc
  | a :: s' => rfind_from c s' (i + 1) (if bool_decide (a = c) then i else acc)
  end.

Definition rfind (c : ascii) (s : list ascii) : Z := rfind_from c s 0 (-1).

(** [os.path.splitext] of [posixpath]: the extension starts at the last dot
    of the last component, unless only dots precede it there. *)
Definition splitext (p : list ascii) : list ascii * list ascii :=
  let sepIndex := rfind "/" p in
  let dotIndex := rfind "." p in
  if sepIndex <? dotIndex then
    let before := take (Z.to_nat (dotIndex - (sepIndex + 1)))
                       (drop (Z.to_nat (sepIndex + 1)) p) in
    if forallb (λ c, bool_decide (c = "."%char)) before then (p, [])
    else (take (Z.to_nat dotIndex) p, drop (Z.to_nat dotIndex) p)
  else (p, []).

Definition ALLOWED_EXTENSIONS : list string := [".jpg"; ".jpeg"; ".png"; ".bmp"; ".tiff"].

(** [get_file_extension] *)
Definition get_file_extension (filename : string) : string :=
  String.string_of_list_ascii
    (splitext (str_lower (String.list_ascii_of_string filename))).2.

(** [is_allowed_file] *)
Definition is_allowed_file (filename : string) : bool :=
  bool_decide (get_file_extension filename ∈ ALLOWED_EXTENSIONS).

(** [s.startswith(p)] on lists of characters *)
Fixpoint is_prefix (p s : list ascii) : bool :=
  match p, s with
  | [], _ => true
  | a :: p', b :: s' => bool_decide (a = b) && is_prefix p' s'
  | _ :: _, [] => false
  end.

(** [sub in s] *)
Fixpoint str_contains (sub s : list ascii) : bool :=
  is_prefix sub s ||
  match s with
  | [] => false
  | _ :: s' => str_contains sub s'
  end.

Definition RESULTS_DIR : string := "results".

(** [os.path.join(RESULTS_DIR, name)] of [posixpath]: an absolute second
    component replaces the first. *)
Definition join_results (name : string) : string :=
  if startswith "/" name then name else RESULTS_DIR +:+ "/" +:+ name.

Section Downloads.
(** [os.path.exists] *)
Variable path_exists : string → bool.
(** [open(path, 'rb')], with the octets that the response streams *)
Variable open_rb : string → result bytes.

(** [GET /download-file/{filename}]: the media type and the octets sent *)
Definition download_file (filename : string) : result (string * bytes) :=
  let name := String.list_ascii_of_string filename in
  let body :=
    if bool_decide (filename = EmptyString)
       || str_contains [".";"."]%char name || str_contains ["/"]%char name
    then Err (HTTPException 400) else
    let file_path := join_results filename in
    if negb (path_exists file_path) then Err (HTTPException 404) else
    let ext := String.string_of_list_ascii (str_lower (splitext name).2) in
    let content_type :=
      if bool_decide (ext ∈ [".jpg"; ".jpeg"]) then "image/jpeg"
      else if bool_decide (ext = ".png") then "image/png"
      else "application/octet-stream" in
    stream ← open_rb file_path;
    Ok (content_type, stream) in
  match body with
  | Ok r => Ok r
  | Err (HTTPException status) => Err (HTTPException status)
  | Err _ => Err (HTTPException 500)
  end.
End Downloads.

(** ** [backend/main.py]: more endpoints *)

Record CombineMasksRequest := {
  cmr_session_id : string;
  cmr_mask_ids : list Z
}.

Section CombineEndpoint.
(** [POST {modal_base_url}/combine-masks] *)
Variable post_combine_masks : string → list string → remote_reply combine_result.

(** [SAM2Service.combine_masks] *)
Definition service_combine_masks (image_data : string) (masks : list string)
    : result combine_result :=
  checked (post_combine_masks image_data masks).

(** The loop of [POST /combine-masks] that collects the stored masks *)
Fixpoint masks_to_combine (stored : gmap Z stored_mask) (mask_ids : list Z)
    (acc : list string) : result (list string) :=
  match mask_ids with
  | [] => Ok acc
  | mask_id :: rest =>
      match stored !! mask_id with
      | None => Err (HTTPException 404)
      | Some m => masks_to_combine stored rest (acc ++ [sm_mask m])
      end
  end.

(** [POST /combine-masks] *)
Definition combine_masks_endpoint (sessions : gmap string session)
    (request : CombineMasksRequest) : result combine_result :=
  match sessions !! cmr_session_id request with
  | None => Err (HTTPException 404)
  | Some session_data =>
      match cmr_mask_ids request with
      | [] => Err (HTTPException 400)
      | _ =>
          masks ← masks_to_combine (stored_masks session_data) (cmr_mask_ids request) [];
          match service_combine_masks (image_data session_data) masks with
          | Ok r => Ok r
          | Err _ => Err (HTTPException 500)
          end
      end
  end.
End CombineEndpoint.

Section AdvancedEndpoint.
Variable app : modal_app.

(** [POST /generate-masks-advanced]: the body of [POST /generate-masks] with
    other defaults *)
Definition generate_masks_advanced (sessions : gmap string session)
    (request : GenerateMasksRequest)
    : result generate_result * gmap string session :=
  let session_id := gmr_session_id request in
  let points_per_side := int_or (gmr_points_per_side request) 128 in
  let pred_iou_thresh := float_or (gmr_pred_iou_thresh request) (F64.dec 6 10) in
  let stability_score_thresh :=
    float_or (gmr_stability_score_thresh request) (F64.dec 7 10) in
  match sessions !! session_id with
  | None => (Err (HTTPException 404), sessions)
  | Some session_data =>
      match service_generate_all_masks app (image_data session_data)
              points_per_side pred_iou_thresh stability_score_thresh with
      | Err _ => (Err (HTTPException 500), sessions)
      | Ok res =>
          match store_masks (gr_masks res) ∅ with
          | Err _ => (Err (HTTPException 500), sessions)
          | Ok stored =>
              (Ok res, <[session_id := set_stored_masks session_data stored]> sessions)
          end
      end
  end.
End AdvancedEndpoint.

(** [SessionInfoResponse] without the session id and the message;
    [si_created_at] is the time whose [isoformat()] is sent. *)
Record session_info := SessionInfo {
  si_filename : string;
  si_width : nat;
  si_height : nat;
  si_created_at : Z;
  si_stored_masks : nat
}.

(** [GET /session/{session_id}]; a session without [created_at] makes the
    body raise [KeyError], which the handler turns into 500. *)
Definition get_session_info (sessions : gmap string session) (session_id : string)
    : result session_info :=
  match sessions !! session_id with
  | None => Err (HTTPException 404)
  | Some session_data =>
      match created_at session_data with
      | None => Err (HTTPException 500)
      | Some t =>
          Ok (SessionInfo (filename session_data) (s_width session_data)
                (s_height session_data) t (size (stored_masks session_data)))
      end
  end.

(** ** Predicates on the list of [generate_all_masks] *)

Section Kept.
Context `{Libs}.

(** The generator's entry [raw] passes the filters of the loop, and [e] is
    the encoding of its segmentation. *)
Definition kept (raw : sam_mask) (e : string) : Prop :=
  ∃ seg, segmentation raw = Some seg ∧ 10 ≤ default 0 (sam_area raw)
         ∧ _encode_mask seg = Ok e.
End Kept.

(** [info] is the entry of the response built from [raw] and [e], whatever
    its id. *)
Definition response_of (raw : sam_mask) (e : string) (info : mask_info) : Prop :=
  mi_mask info = Some e
  ∧ mi_score info = Some (default (F64.of_Z 0) (predicted_iou raw))
  ∧ mi_bbox info = sam_bbox raw
  ∧ mi_area info = Some (default 0 (sam_area raw))
  ∧ mi_stability_score info = Some (default (F64.of_Z 0) (sam_stability_score raw)).


(** ** More example data *)

Module Samples.
(** [img2] in its transport encoding, octets and text *)
Definition img2_png : bytes := Ref.encode (Image_fromarray_rgb Examples.img2).

(** A 3 by 4 mask with two true cells, at (row 0, column 1) and at
    (row 2, column 3) *)
Definition two_cells : mask :=
  NDArray 3 4 [false; true; false; false;
               false; false; false; false;
               false; false; false; true].

(** The masks of the lower-right cell and of the upper row of a 2 by 2
    image *)
Definition last2 : mask := NDArray 2 2 [false; false; false; true].
Definition row2 : mask := NDArray 2 2 [true; true; false; false].

(** A 2 by 2 array of numbers, as [mask_to_base64] takes *)
Definition levels : ndarray Z := NDArray 2 2 [0; 5; 255; -3].

(** The three candidates of the design document's example *)
Definition three_candidates : list mask_info :=
  [Examples.candidate Examples.full11 (Some (F64.dec 3 10));
   Examples.candidate Examples.last_row11 (Some (F64.dec 9 10));
   Examples.candidate Examples.last_cell11 (Some (F64.dec 5 10))].

(** The Modal application as [modal_sam2.py] defines its painting
    endpoints; the generator cannot be reached. *)
Definition cpu_app : modal_app :=
  ModalApp
    (λ image_data mask_b64 color opacity,
       over_http (ModalApi.paint_mask_endpoint image_data mask_b64 color opacity))
    (λ image_data colored_masks,
       over_http (ModalApi.paint_multiple_masks_endpoint image_data colored_masks))
    (λ _ _ _ _, Raises RemoteError).

(** A request for masks with every parameter given *)
Definition explicit_request : GenerateMasksRequest :=
  Build_GenerateMasksRequest "s2" (Some 64) (Some (F64.dec 9 10)) (Some (F64.dec 9 10)).
End Samples.

(** * Properties *)

(** ** Painting many masks is a fold of painting one *)

Section PaintManyFacts.
Context `{Libs}.

Lemma paint_mask_on_image_shape img m color opacity st img' st' :
  _paint_mask_on_image img m color opacity st = Ok (img', st') →
  nrows img' = nrows img ∧ ncols img' = ncols img.
Proof.
  unfold _paint_mask_on_image, reraise_as, mbind, result_bind.
  destruct (_hex_to_rgb color) as [rgb_color|e]; [|discriminate].
  destruct (negb _); [discriminate|].
  destruct (F64.ltb _ _).
  - destruct (np_random_rand _ _ _) as [rand st1].
    destruct (existsb _ _); intros [= <- _]; done.
  - destruct (existsb _ _); intros [= <- _]; done.
Qed.

Lemma paint_array_shape img a color opacity st img' st' :
  paint_array img a color opacity st = Ok (img', st') →
  nrows img' = nrows img ∧ ncols img' = ncols img.
Proof.
  destruct a; simpl; [apply paint_mask_on_image_shape|discriminate].
Qed.

Lemma paintOne_shape base req st base' st' :
  paintOne base req st = Ok (base', st') →
  nrows base' = nrows base ∧ ncols base' = ncols base.
Proof.
  unfold paintOne. destruct (truthy _); [|by intros [= <- _]].
  destruct (_decode_mask _) as [a|]; simpl; [|discriminate].
  destruct (ensure_shape _ _ _) as [a'|]; simpl; [|discriminate].
  apply paint_array_shape.
Qed.

Lemma foldl_paintOne_err e reqs :
  foldl (λ acc req, '(base, st) ← acc; paintOne base req st) (Err e) reqs = Err e.
Proof. induction reqs as [|req reqs IH]; simpl; [done|apply IH]. Qed.

Lemma paint_loop_paintMany reqs : ∀ painted st,
  paint_loop (nrows painted) (ncols painted) painted reqs st
  = paintMany painted reqs st.
Proof.
  unfold paintMany.
  induction reqs as [|req reqs IH]; intros painted st; simpl; [done|].
  unfold paintOne at 2.
  destruct (truthy (cm_mask req)); [|apply IH].
  destruct (_decode_mask _) as [a|e]; simpl; [|by rewrite foldl_paintOne_err].
  destruct (ensure_shape _ _ _) as [a'|e]; simpl; [|by rewrite foldl_paintOne_err].
  destruct (paint_array _ _ _ _ _) as [[painted' st']|e] eqn:Hp; simpl;
    [|by rewrite foldl_paintOne_err].
  apply paint_array_shape in Hp as [<- <-]. apply IH.
Qed.

Lemma foldl_local_step_err e reqs :
  foldl (λ acc req, base ← acc; local_step base req) (Err e) reqs = Err e.
Proof. induction reqs as [|req reqs IH]; simpl; [done|apply IH]. Qed.

Lemma local_paint_loop_fold reqs : ∀ painted,
  local_paint_loop painted reqs
  = foldl (λ acc req, base ← acc; local_step base req) (Ok painted) reqs.
Proof.
  induction reqs as [|req reqs IH]; intros painted; simpl; [done|].
  unfold local_step at 2.
  destruct (truthy (cm_mask req)); simpl; [|apply IH].
  destruct (local_paint_one _ _ _ _) as [painted'|e]; simpl;
    [apply IH|by rewrite foldl_local_step_err].
Qed.
End PaintManyFacts.

(** C1. [SAM2Model.paint_multiple_masks] paints the decoded image with
    [paintMany], the left-to-right fold of [paintOne]: each step takes the
    output of the previous one as its base. With no request the decoded
    image comes back as it is; with two requests the second is painted on
    the output of the first, not on the original. The local fallback
    [paint_multiple_masks_local] is the same fold over its own one-mask
    step. *)
Theorem paint_multiple_masks_is_fold `{Libs} :
  (∀ image_data reqs st,
     paint_multiple_masks image_data reqs st
     = img ← _decode_image image_data;
       '(painted, st') ← paintMany img reqs st;
       painted_b64 ← encode_painted painted;
       Ok (PaintMultipleResult painted_b64 (ncols img) (nrows img) (length reqs), st'))
  ∧ (∀ img st, paintMany img [] st = Ok (img, st))
  ∧ (∀ img r1 r2 st,
       paintMany img [r1; r2] st
       = '(painted1, st1) ← paintOne img r1 st; paintOne painted1 r2 st1)
  ∧ (∀ img reqs,
       local_paint_loop img reqs
       = foldl (λ acc req, base ← acc; local_step base req) (Ok img) reqs).
Proof.
  split_and!.
  - intros image_data reqs st. unfold paint_multiple_masks.
    destruct (_decode_image image_data) as [img|e]; simpl; [|done].
    by rewrite paint_loop_paintMany.
  - done.
  - intros img r1 r2 st. unfold paintMany. simpl.
    by destruct (paintOne img r1 st) as [[painted1 st1]|e].
  - intros img reqs. apply local_paint_loop_fold.
Qed.


(** Two masks that cover the whole 2 by 2 grey image, red then blue at
    opacity 0.25: the blue is blended on the reddened pixels, and the result
    is neither the blue on the original nor the result of the other
    order. *)
Example overlapping_masks_compound :
  @paintMany ref_libs Examples.img2 [Examples.red25; Examples.blue25] 0
    = Ok (Examples.flat2 104 64 115, 0%nat)
  ∧ @paintMany ref_libs Examples.img2 [Examples.red25] 0
    = Ok (Examples.flat2 131 80 80, 0%nat)
  ∧ @paintOne ref_libs (Examples.flat2 131 80 80) Examples.blue25 0
    = Ok (Examples.flat2 104 64 115, 0%nat)
  ∧ @paintMany ref_libs Examples.img2 [Examples.blue25] 0
    = Ok (Examples.flat2 80 80 131, 0%nat)
  ∧ @paintMany ref_libs Examples.img2 [Examples.blue25; Examples.red25] 0
    = Ok (Examples.flat2 115 64 104, 0%nat).
Proof. split_and!; vm_compute; reflexivity. Qed.

(** ** Painting with opacity 0 *)


(** A property checked on every integer of [a, a + n) holds on each. *)
Lemma forallb_seqZ (f : Z → bool) a n x :
  forallb f (seqZ a n) = true → a ≤ x < a + n → f x = true.
Proof.
  intros Hall Hx. rewrite forallb_forall in Hall.
  apply Hall, list_elem_of_In, elem_of_seqZ. lia.
Qed.



(** The texture pass is reached only when [opacity > 0.3]. *)
Lemma texture_skipped_at_zero : F64.ltb (F64.dec 3 10) Examples.zero = false.
Proof. vm_compute; reflexivity. Qed.

Lemma hex_digit_range c d : hex_digit c = Some d → 0 ≤ d ≤ 15.
Proof.
  unfold hex_digit. 
  repeat (case_match; [intros [= <-]; lia|]). discriminate.
Qed.













Section OpacityZero.
Context `{Libs}.

End OpacityZero.

(** C2. With opacity 0 the colour fill is a no-op and the texture pass is
    skipped, but the edge-blend pass still runs: it mixes the pixel with
    itself in binary32, and the conversion to uint8 truncates. On the 3 by 3
    image [img3] with only the centre in the mask, the centre pixel
    (13, 13, 13) comes out as (12, 12, 12). *)
Theorem opacity_zero_changes_a_pixel `{Libs} st :
  _paint_mask_on_image Examples.img3 Examples.centre "#FF0000" Examples.zero st
  = Ok (Examples.img3_darkened, st)
  ∧ Examples.img3_darkened ≠ Examples.img3.
Proof. split; [vm_compute; reflexivity|discriminate]. Qed.

(** ** Selecting the best mask at a point *)

(** The comparison of floats is a strict order. *)
Lemma SFltb_trans a b c : SFltb a b = true → SFltb b c = true → SFltb a c = true.
Proof.
  unfold SFltb, SFcompare.
  destruct a as [sa|sa| |sa ma ea], b as [sb|sb| |sb mb eb], c as [sc|sc| |sc mc ec];
    try discriminate; try done;
    repeat match goal with s : bool |- _ => destruct s end;
    try discriminate; try done.
  - change (Pos.compare_cont Eq ?p ?q) with (Pos.compare p q).
    destruct (Z.compare_spec ea eb), (Z.compare_spec eb ec), (Z.compare_spec ea ec);
      try discriminate; try done; try lia; subst.
    destruct (Pos.compare_spec ma mb), (Pos.compare_spec mb mc), (Pos.compare_spec ma mc);
      try discriminate; try done; lia.
  - change (Pos.compare_cont Eq ?p ?q) with (Pos.compare p q).
    destruct (Z.compare_spec ea eb), (Z.compare_spec eb ec), (Z.compare_spec ea ec);
      try discriminate; try done; try lia; subst.
    destruct (Pos.compare_spec ma mb), (Pos.compare_spec mb mc), (Pos.compare_spec ma mc);
      try discriminate; try done; lia.
Qed.

Lemma SFltb_irrefl a : SFltb a a = false.
Proof.
  unfold SFltb, SFcompare. destruct a as [s|s| |s m e]; try done.
  - by destruct s.
  - change (Pos.compare_cont Eq ?p ?q) with (Pos.compare p q).
    destruct s; rewrite Z.compare_refl, Pos.compare_refl; done.
Qed.

Lemma SFltb_asym a b : SFltb a b = true → SFltb b a = false.
Proof.
  intros Hab. destruct (SFltb b a) eqn:Hba; [|done].
  pose proof (SFltb_trans _ _ _ Hab Hba) as Haa. by rewrite SFltb_irrefl in Haa.
Qed.

Section Selection.
Context `{Libs}.

(** A candidate replaces the running best only if it contains the point
    and its score is greater than the running best score. *)
Lemma consider_cases x y info best best' :
  consider x y info best = Ok best' →
  best' = best
  ∨ (contains_point info x y
     ∧ best' = (Some info, default (F64.of_Z 0) (mi_score info))
     ∧ F64.ltb (snd best) (default (F64.of_Z 0) (mi_score info)) = true).
Proof.
  unfold consider, contains_point.
  destruct (mi_mask info) as [b64|] eqn:Hm; simpl; [|discriminate].
  destruct (_decode_mask b64) as [[m|h w]|] eqn:Hd; simpl; [| |discriminate].
  - destruct (_ && _) eqn:Hin; [|intros [= <-]; by left].
    destruct (cell _ _ _ _) eqn:Hc; [|intros [= <-]; by left].
    destruct (F64.ltb _ _) eqn:Hlt; intros [= <-]; [right|by left].
    split; [|done]. exists b64, m.
    apply andb_prop in Hin as [[[?%Z.leb_le ?%Z.ltb_lt]%andb_prop
                                 ?%Z.leb_le]%andb_prop ?%Z.ltb_lt].
    repeat split; done.
  - destruct (_ && _); [discriminate|intros [= <-]; by left].
Qed.

(** No candidate that contains the point: no mask is found. *)
Lemma scan_masks_none x y all_masks best :
  Forall (λ info, ¬ contains_point info x y) all_masks →
  scan_masks x y all_masks best = best.
Proof.
  induction 1 as [|info rest Hno _ IH]; simpl; [done|].
  destruct (consider x y info best) as [best'|] eqn:Hc; [|done].
  apply consider_cases in Hc as [->|[? _]]; [done|by destruct Hno].
Qed.

(** Candidates whose score is not greater than 0 (a missing score counts
    as 0) are never selected, whether they contain the point or not. *)
Lemma scan_masks_no_positive_score x y all_masks :
  Forall (λ info, F64.ltb (F64.of_Z 0) (default (F64.of_Z 0) (mi_score info)) = false)
         all_masks →
  scan_masks x y all_masks (None, F64.of_Z 0) = (None, F64.of_Z 0).
Proof.
  induction 1 as [|info rest Hs _ IH]; simpl; [done|].
  destruct (consider x y info _) as [best'|] eqn:Hc; [|done].
  apply consider_cases in Hc as [->|(_ & _ & Hlt)]; [done|].
  change (snd _) with (F64.of_Z 0) in Hlt. congruence.
Qed.

(** What is selected is a candidate of the list that contains the point,
    and its score is greater than 0. *)
Lemma scan_masks_sound x y all_masks : ∀ best info s,
  scan_masks x y all_masks best = (Some info, s) →
  best = (Some info, s)
  ∨ (info ∈ all_masks ∧ contains_point info x y
     ∧ s = default (F64.of_Z 0) (mi_score info)).
Proof.
  induction all_masks as [|c rest IH]; intros best info s; simpl; [by left|].
  destruct (consider x y c best) as [best'|] eqn:Hc.
  - intros [->|(Hin & ? & ?)]%IH; [|right; split; [by right|done]].
    apply consider_cases in Hc as [->|(? & [= -> ->] & _)]; [by left|].
    right. split; [by left|done].
  - intros [->|(Hin & ? & ?)]%IH; [by left|right; split; [by right|done]].
Qed.
(** A candidate that contains the point is compared with the running
    best. *)
Lemma consider_contains x y info best :
  contains_point info x y →
  consider x y info best
  = Ok (if F64.ltb (snd best) (default (F64.of_Z 0) (mi_score info))
        then (Some info, default (F64.of_Z 0) (mi_score info)) else best).
Proof.
  intros (b64 & m & Hm & Hd & [Hy1 Hy2] & [Hx1 Hx2] & Hc). unfold consider.
  rewrite Hm. simpl. rewrite Hd. simpl.
  rewrite (proj2 (Z.leb_le _ _) Hy1), (proj2 (Z.ltb_lt _ _) Hy2),
          (proj2 (Z.leb_le _ _) Hx1), (proj2 (Z.ltb_lt _ _) Hx2), Hc. simpl.
  by destruct (F64.ltb _ _).
Qed.

(** The best score never decreases along the scan, and at the end no
    candidate that contains the point has a greater score. *)
Lemma scan_masks_maximal x y all_masks : ∀ best,
  (scan_masks x y all_masks best = best
   ∨ F64.ltb (snd best) (snd (scan_masks x y all_masks best)) = true)
  ∧ ∀ c, c ∈ all_masks → contains_point c x y →
         F64.ltb (snd (scan_masks x y all_masks best))
                 (default (F64.of_Z 0) (mi_score c)) = false.
Proof.
  induction all_masks as [|c0 rest IH]; intros best; simpl.
  - split; [by left|]. intros c Hc. by apply elem_of_nil in Hc.
  - set (s0 := default (F64.of_Z 0) (mi_score c0)).
    assert (Hstep : ∃ best'',
              match consider x y c0 best with
              | Ok best' => scan_masks x y rest best'
              | Err _ => scan_masks x y rest best
              end = scan_masks x y rest best''
              ∧ (best'' = best ∨ F64.ltb (snd best) (snd best'') = true)
              ∧ (contains_point c0 x y → F64.ltb (snd best'') s0 = false)).
    { destruct (consider x y c0 best) as [best'|] eqn:Hc.
      - exists best'. split; [done|].
        apply consider_cases in Hc as Hcases.
        destruct Hcases as [->|(Hcont & -> & Hlt)].
        + split; [by left|]. intros Hcont.
          rewrite (consider_contains _ _ _ _ Hcont) in Hc. fold s0 in Hc.
          destruct (F64.ltb (snd best) s0) eqn:Hlt; [|done].
          injection Hc as <-. simpl in Hlt. unfold F64.ltb in Hlt.
          by rewrite SFltb_irrefl in Hlt.
        + split; [by right|]. intros _. apply SFltb_irrefl.
      - exists best. split; [done|]. split; [by left|].
        intros Hcont. by rewrite (consider_contains _ _ _ _ Hcont) in Hc. }
    destruct Hstep as (best'' & -> & Hmono & Hc0).
    destruct (IH best'') as [Hmono' Hmax].
    split.
    + destruct Hmono as [->|Hlt]; [done|]. right.
      destruct Hmono' as [->|Hlt']; [done|]. by eapply SFltb_trans.
    + intros c [->|Hin]%elem_of_cons Hcont; [|by apply Hmax].
      specialize (Hc0 Hcont). fold s0.
      destruct Hmono' as [->|Hlt']; [done|].
      destruct (F64.ltb (snd (scan_masks x y rest best'')) s0) eqn:Hlt; [|done].
      pose proof (SFltb_trans _ _ _ Hlt' Hlt) as Hbad. unfold F64.ltb in *. congruence.
Qed.

(** With a decodable image and a point of two coordinates, the lookup fails
    when no candidate has a score greater than 0, and when no candidate
    contains the point. *)
Lemma get_mask_at_point_no_positive_score image_data img x y all_masks :
  _decode_image image_data = Ok img →
  Forall (λ info, F64.ltb (F64.of_Z 0) (default (F64.of_Z 0) (mi_score info)) = false)
         all_masks →
  get_mask_at_point image_data [x; y] all_masks = Err ValueError.
Proof.
  intros Himg Hs. unfold get_mask_at_point. rewrite Himg. simpl.
  by rewrite scan_masks_no_positive_score.
Qed.

Lemma get_mask_at_point_none image_data img x y all_masks :
  _decode_image image_data = Ok img →
  Forall (λ info, ¬ contains_point info x y) all_masks →
  get_mask_at_point image_data [x; y] all_masks = Err ValueError.
Proof.
  intros Himg Hs. unfold get_mask_at_point. rewrite Himg. simpl.
  by rewrite scan_masks_none.
Qed.
(** What [get_mask_at_point] returns is a candidate of the list that
    contains the point, with a score greater than 0 that no candidate
    containing the point exceeds. *)
Lemma get_mask_at_point_best image_data x y all_masks r :
  get_mask_at_point image_data [x; y] all_masks = Ok r →
  ∃ info, info ∈ all_masks ∧ contains_point info x y
    ∧ mi_mask info = Some (pr_mask r) ∧ pr_score r = mi_score info
    ∧ F64.ltb (F64.of_Z 0) (default (F64.of_Z 0) (mi_score info)) = true
    ∧ ∀ c, c ∈ all_masks → contains_point c x y →
           F64.ltb (default (F64.of_Z 0) (mi_score info))
                   (default (F64.of_Z 0) (mi_score c)) = false.
Proof.
  unfold get_mask_at_point.
  destruct (_decode_image image_data) as [img|]; simpl; [|discriminate].
  destruct (scan_masks x y all_masks (None, F64.of_Z 0)) as [[info|] s] eqn:Hscan;
    [|discriminate].
  destruct (mi_mask info) as [b64|] eqn:Hm; simpl; [|discriminate].
  intros [= <-]. simpl. exists info.
  destruct (scan_masks_maximal x y all_masks (None, F64.of_Z 0)) as [Hmono Hmax].
  rewrite Hscan in Hmono, Hmax. simpl in Hmono, Hmax.
  apply scan_masks_sound in Hscan as [[=]|(Hin & Hcont & ->)].
  destruct Hmono as [[=]|Hlt]. split_and!; done.
Qed.
End Selection.

(** The example of the design document: three masks that contain (10, 10),
    with scores 0.3, 0.9 and 0.5; the mask of score 0.9 is returned. *)
Example best_of_three :
  @get_mask_at_point ref_libs Examples.img11_b64 [10; 10]
    [Examples.candidate Examples.full11 (Some (F64.dec 3 10));
     Examples.candidate Examples.last_row11 (Some (F64.dec 9 10));
     Examples.candidate Examples.last_cell11 (Some (F64.dec 5 10))]
  = Ok (PointResult (Examples.b64_of Examples.last_row11) (Some (F64.dec 9 10))
          None 11 11).
Proof. vm_compute; reflexivity. Qed.

(** C3. The scan starts from a best score of 0 and replaces the best only on
    a strictly greater score, so a candidate that contains the point but has
    score 0, or no score at all, is never returned: on the 2 by 2 image, the
    full mask contains (0, 0), and the lookup fails with "No mask found at
    point" for both. *)
Theorem zero_score_candidate_is_not_found :
  (∃ m, @_decode_mask ref_libs (Examples.b64_of Examples.full2) = Ok (Bool2D m)
        ∧ cell false m 0 0 = true)
  ∧ @get_mask_at_point ref_libs Examples.img2_b64 [0; 0]
      [Examples.candidate Examples.full2 (Some Examples.zero)] = Err ValueError
  ∧ @get_mask_at_point ref_libs Examples.img2_b64 [0; 0]
      [Examples.candidate Examples.full2 None] = Err ValueError.
Proof.
  split_and!.
  - exists Examples.full2. split; vm_compute; reflexivity.
  - vm_compute; reflexivity.
  - vm_compute; reflexivity.
Qed.

(** ** Remote painting and the local fallback *)

Section Fallback.
Context `{Libs}.
Variable app : modal_app.

(** Multi-mask painting: whatever the remote call does, the client
    succeeds as soon as local compositing is possible. *)
Lemma service_paint_multiple_masks_falls_back image_data colored_masks r :
  paint_multiple_masks_local image_data colored_masks = Ok r →
  ∃ r', service_paint_multiple_masks app image_data colored_masks = Ok r'.
Proof.
  intros Hlocal. unfold service_paint_multiple_masks.
  destruct (checked _) as [r'|e]; eauto.
Qed.

(** When the remote call fails, the result is the local one. *)
Lemma service_paint_multiple_masks_remote_failure image_data colored_masks e :
  checked (post_paint_multiple_masks app image_data colored_masks) = Err e →
  service_paint_multiple_masks app image_data colored_masks
  = paint_multiple_masks_local image_data colored_masks.
Proof. unfold service_paint_multiple_masks. by intros ->. Qed.

(** Single-mask painting: a failure of the remote call is the failure of
    the client, and the endpoint answers 500. *)
Lemma service_paint_mask_remote_failure image_data mask_b64 color opacity e :
  checked (post_paint_mask app image_data mask_b64 color opacity) = Err e →
  service_paint_mask app image_data mask_b64 color opacity = Err e.
Proof. unfold service_paint_mask. by intros ->. Qed.

Lemma paint_mask_endpoint_remote_failure sessions request session_data mask_b64 :
  sessions !! pmr_session_id request = Some session_data →
  pmr_mask_id request = None →
  pmr_mask request = Some mask_b64 → mask_b64 ≠ EmptyString →
  (∀ opacity, ∃ e, checked (post_paint_mask app (image_data session_data) mask_b64
                              (pmr_color request) opacity) = Err e) →
  paint_mask_endpoint app sessions request = Err (HTTPException 500).
Proof.
  intros Hs Hid Hm Hne Hfail. unfold paint_mask_endpoint.
  rewrite Hs, Hid, Hm. simpl.
  rewrite bool_decide_eq_false_2 by done. simpl.
  destruct (Hfail (float_or (pmr_opacity request) (F64.dec 7 10))) as [e He].
  by rewrite (service_paint_mask_remote_failure _ _ _ _ _ He).
Qed.
End Fallback.

(** The multi-mask endpoint answers with a result whenever the request
    resolves and local compositing is possible, whatever the Modal
    application does. *)
Lemma paint_multiple_masks_endpoint_falls_back `{Libs} app sessions request
    session_data prepared r :
  sessions !! pmmr_session_id request = Some session_data →
  image_data session_data ≠ EmptyString →
  pmmr_colored_masks request ≠ [] →
  prepare_colored_masks (stored_masks session_data) (pmmr_colored_masks request) []
    = Ok prepared →
  paint_multiple_masks_local (image_data session_data) prepared = Ok r →
  ∃ r', paint_multiple_masks_endpoint app sessions request = Ok r'.
Proof.
  intros Hs Himg Hne Hprep Hlocal. unfold paint_multiple_masks_endpoint.
  rewrite Hs. destruct (pmmr_colored_masks request) as [|cm rest] eqn:Hcm; [done|].
  rewrite Hprep. simpl. rewrite bool_decide_eq_false_2 by done. simpl.
  destruct (service_paint_multiple_masks_falls_back app _ _ _ Hlocal) as [r' ->].
  by eexists.
Qed.

(** C4. With the Modal application out of reach, painting the stored mask 1
    of the session on the 2 by 2 image through [POST /paint-multiple-masks]
    succeeds by the local fallback, while painting the same mask through
    [POST /paint-mask] answers 500: the single-mask client re-raises the
    remote failure although local compositing of that mask is possible. *)
Theorem single_mask_paint_has_no_fallback :
  @paint_mask_endpoint Examples.unreachable Examples.sessions2
     (Build_PaintMaskRequest "s2" (Some 1) None "#FF0000" (Some (F64.dec 5 10)))
  = Err (HTTPException 500)
  ∧ is_ok (@paint_multiple_masks_local ref_libs Examples.img2_b64
             [Examples.red_inline Examples.corner2]) = true
  ∧ is_ok (@paint_multiple_masks_endpoint ref_libs Examples.unreachable
             Examples.sessions2
             (Build_PaintMultipleMasksRequest "s2" [Examples.red_id 1])) = true.
Proof. split_and!; vm_compute; reflexivity. Qed.

(** The Modal application of this repository answers 400 on both painting
    endpoints: every single-mask request ends in 500, every multi-mask
    request is painted locally. *)
Example deployed_single_mask_paint sessions request session_data mask_b64 :
  sessions !! pmr_session_id request = Some session_data →
  pmr_mask_id request = None →
  pmr_mask request = Some mask_b64 → mask_b64 ≠ EmptyString →
  paint_mask_endpoint Examples.deployed_painting sessions request
  = Err (HTTPException 500).
Proof.
  intros. eapply paint_mask_endpoint_remote_failure; try done.
  intros opacity. by eexists.
Qed.

(** ** Resolving the entries of a multi-mask request *)

(** An entry with neither mask data nor an id is a bad request. *)
Lemma prepare_rejects_empty_entry stored color opacity rest acc :
  prepare_colored_masks stored (ColoredMask None None color opacity :: rest) acc
  = Err (HTTPException 400).
Proof. done. Qed.

(** An entry whose id is not in the table is a bad request as well, not a
    404. *)
Lemma prepare_rejects_absent_id stored id color opacity rest acc :
  stored !! id = None →
  prepare_colored_masks stored (ColoredMask (Some id) None color opacity :: rest) acc
  = Err (HTTPException 400).
Proof. intros Hid. simpl. rewrite Hid. by destruct (negb _). Qed.

(** The id 0 is falsy in [mask_id and mask_id in stored_masks]: the entry is
    rejected whatever the table holds. *)
Lemma prepare_rejects_id_zero stored color opacity rest acc :
  prepare_colored_masks stored (ColoredMask (Some 0) None color opacity :: rest) acc
  = Err (HTTPException 400).
Proof. done. Qed.

(** A non-zero id of the table resolves to the stored mask. *)
Lemma prepare_resolves_nonzero_id stored id m color opacity rest acc :
  id ≠ 0 → stored !! id = Some m →
  prepare_colored_masks stored (ColoredMask (Some id) None color opacity :: rest) acc
  = prepare_colored_masks stored rest
      (acc ++ [ColoredMask None (Some (sm_mask m))
                 (Some (default default_color color))
                 (Some (default default_opacity opacity))]).
Proof.
  intros Hid Hm. simpl. rewrite Hm.
  by rewrite (proj2 (Z.eqb_neq id 0) Hid).
Qed.

(** C5. The session on the 2 by 2 image stores masks 0 and 1. Through
    [POST /paint-multiple-masks], the entry that references id 1 is painted,
    the entry that references id 0 is rejected with 400 although the id is
    in the table (and [get_mask], the lookup of [POST /paint-mask], finds
    it), and the entry that references the absent id 7 is rejected with 400
    where [get_mask] answers 404. *)
Theorem multi_paint_rejects_stored_id_zero :
  get_mask Examples.session2 0 = Ok (Examples.stored Examples.full2)
  ∧ @paint_multiple_masks_endpoint ref_libs Examples.unreachable Examples.sessions2
      (Build_PaintMultipleMasksRequest "s2" [Examples.red_id 0])
    = Err (HTTPException 400)
  ∧ get_mask Examples.session2 7 = Err (HTTPException 404)
  ∧ @paint_multiple_masks_endpoint ref_libs Examples.unreachable Examples.sessions2
      (Build_PaintMultipleMasksRequest "s2" [Examples.red_id 7])
    = Err (HTTPException 400)
  ∧ is_ok (@paint_multiple_masks_endpoint ref_libs Examples.unreachable
             Examples.sessions2
             (Build_PaintMultipleMasksRequest "s2" [Examples.red_id 1])) = true.
Proof. split_and!; vm_compute; reflexivity. Qed.

(** ** Replacing the mask table of a session *)

Section MaskTable.
Context `{Libs}.

(** The oracle numbers the masks that it keeps 0, 1, ... in order. *)
Lemma process_masks_indexed masks_data : ∀ masks,
  indexed_from 0 masks → indexed_from 0 (process_masks masks_data masks).
Proof.
  induction masks_data as [|info rest IH]; intros masks Hm; simpl; [done|].
  destruct (segmentation info) as [seg|]; [|by apply IH].
  destruct (_ <? 10); [by apply IH|].
  destruct (_encode_mask seg) as [b64|]; [|by apply IH].
  apply IH. intros i info' Hi.
  apply lookup_app_Some in Hi as [Hi|[Hlen Hi]]; [by apply Hm|].
  apply list_lookup_singleton_Some in Hi as [Hi <-]. simpl.
  split; [|by eexists]. f_equal. lia.
Qed.

(** Storing a list numbered from [k]: the ids [k .. k + n - 1] map to the
    entries in order, every other id keeps what it had. *)
Lemma store_masks_indexed l : ∀ k table,
  indexed_from k l →
  ∃ table', store_masks l table = Ok table'
    ∧ ∀ id, table' !! id
            = if bool_decide (Z.of_nat k ≤ id < Z.of_nat (k + length l))
              then stored_of <$> l !! (Z.to_nat id - k)%nat
              else table !! id.
Proof.
  induction l as [|info rest IH]; intros k table Hl; simpl.
  - eexists; split; [done|]. intros id.
    rewrite bool_decide_eq_false_2 by lia. done.
  - destruct (Hl 0%nat info eq_refl) as [Hid [b64 Hmask]].
    rewrite Hid, Hmask. simpl.
    destruct (IH (S k) (<[Z.of_nat (k + 0) :=
                            StoredMask b64 (mi_score info) (mi_bbox info)
                              (mi_area info) (mi_stability_score info)]> table))
      as (table' & -> & Hlook).
    { intros i info' Hi. destruct (Hl (S i) info' Hi) as [-> ?].
      split; [f_equal; lia|done]. }
    eexists; split; [done|]. intros id. rewrite Hlook.
    case_bool_decide as H1; case_bool_decide as H2; try lia.
    + replace (Z.to_nat id - k)%nat with (S (Z.to_nat id - S k)) by lia. done.
    + assert (id = Z.of_nat (k + 0)) as -> by lia.
      rewrite lookup_insert_eq.
      replace (Z.to_nat (Z.of_nat (k + 0)) - k)%nat with 0%nat by lia.
      simpl. unfold stored_of. by rewrite Hmask.
    + rewrite lookup_insert_ne by lia. done.
Qed.
End MaskTable.

(** C6. When the oracle answers [POST /generate-masks] with the list that
    [generate_all_masks] builds from the generator's output, the session gets
    a new table, built from nothing: the n masks of the list sit under the
    ids 0 .. n-1 in the order of the list, and every other id, whatever the
    previous table held under it, is answered 404 by [get_mask]. The other
    fields of the session do not change. *)
Theorem generate_masks_replaces_table `{Libs} app sessions request session_data
    masks_data total w h :
  sessions !! gmr_session_id request = Some session_data →
  (∀ points_per_side pred_iou_thresh stability_score_thresh,
     post_generate_masks app (image_data session_data) points_per_side
       pred_iou_thresh stability_score_thresh
     = Reply (GenerateResult (process_masks masks_data []) total w h)) →
  ∃ table,
    (generate_masks app sessions request).2 !! gmr_session_id request
      = Some (set_stored_masks session_data table)
    ∧ (∀ i info, process_masks masks_data [] !! i = Some info →
         mi_id info = Some (Z.of_nat i)
         ∧ get_mask (set_stored_masks session_data table) (Z.of_nat i)
           = Ok (stored_of info))
    ∧ (∀ id, ¬ (0 ≤ id < Z.of_nat (length (process_masks masks_data []))) →
         get_mask (set_stored_masks session_data table) id = Err (HTTPException 404)).
Proof.
  intros Hs Hreply.
  assert (Hidx : indexed_from 0 (process_masks masks_data []))
    by (apply process_masks_indexed; intros i info; by rewrite lookup_nil).
  destruct (store_masks_indexed _ 0 ∅ Hidx) as (table & Hstore & Hlook).
  exists table. unfold generate_masks, service_generate_all_masks.
  rewrite Hs, Hreply. simpl. rewrite Hstore. simpl.
  rewrite lookup_insert_eq. split_and!; [done| |].
  - intros i info Hi. split; [apply (Hidx i info Hi)|].
    unfold get_mask. simpl. rewrite Hlook.
    apply lookup_lt_Some in Hi as Hlt.
    rewrite bool_decide_eq_true_2 by lia.
    replace (Z.to_nat (Z.of_nat i) - 0)%nat with i by lia.
    by rewrite Hi.
  - intros id Hid. unfold get_mask. simpl. rewrite Hlook.
    rewrite bool_decide_eq_false_2 by lia. by rewrite lookup_empty.
Qed.

Lemma generate_masks_replaces_table_witness :
  Examples.sessions2 !! gmr_session_id Examples.gen_request = Some Examples.session2
  ∧ (∀ points_per_side pred_iou_thresh stability_score_thresh,
       post_generate_masks Examples.generator_app (image_data Examples.session2)
         points_per_side pred_iou_thresh stability_score_thresh
       = Reply (GenerateResult
                  (@process_masks ref_libs [Examples.raw Examples.full2;
                                            Examples.raw Examples.corner2] [])
                  2 2 2))
  ∧ ∃ table,
    (@generate_masks Examples.generator_app Examples.sessions2
       Examples.gen_request).2 !! "s2"
      = Some (set_stored_masks Examples.session2 table)
    ∧ (∀ i info,
         @process_masks ref_libs [Examples.raw Examples.full2;
                                  Examples.raw Examples.corner2] [] !! i = Some info →
         mi_id info = Some (Z.of_nat i)
         ∧ get_mask (set_stored_masks Examples.session2 table) (Z.of_nat i)
           = Ok (stored_of info))
    ∧ (∀ id,
         ¬ (0 ≤ id < Z.of_nat (length (@process_masks ref_libs
                                         [Examples.raw Examples.full2;
                                          Examples.raw Examples.corner2] []))) →
         get_mask (set_stored_masks Examples.session2 table) id
         = Err (HTTPException 404)).
Proof.
  split; [reflexivity|]. split; [intros; reflexivity|].
  apply (@generate_masks_replaces_table ref_libs Examples.generator_app
           Examples.sessions2 Examples.gen_request Examples.session2
           [Examples.raw Examples.full2; Examples.raw Examples.corner2] 2 2 2).
  - reflexivity.
  - intros; reflexivity.
Defined.

(** ** The reaper *)

(** A step of the second loop only deletes: what is in the table afterwards
    was there before, with the same value. *)
Lemma remove_session_lookup session_id st st' k :
  remove_session session_id st = Ok st' →
  st'.1 !! k = if bool_decide (k = session_id) then None else st.1 !! k.
Proof.
  destruct st as [sessions fs]. unfold remove_session.
  destruct (sessions !! session_id) as [s|]; simpl; [|discriminate].
  destruct (match file_path s with Some _ => _ | None => _ end) as [fs'|];
    simpl; [|discriminate].
  intros [= <-]. simpl. case_bool_decide as Hk.
  - subst. apply lookup_delete_eq.
  - by apply lookup_delete_ne.
Qed.

(** A session that is not in the list of the second loop is not touched. *)
Lemma remove_sessions_other ids : ∀ st k,
  k ∉ ids → (remove_sessions ids st).1 !! k = st.1 !! k.
Proof.
  induction ids as [|id ids IH]; intros st k Hk; simpl; [done|].
  apply not_elem_of_cons in Hk as [Hne Hk].
  destruct (remove_session id st) as [st'|] eqn:Hr; [|by apply IH].
  rewrite (IH _ _ Hk), (remove_session_lookup _ _ _ _ Hr).
  by rewrite bool_decide_eq_false_2.
Qed.

(** The second loop only deletes. *)
Lemma remove_sessions_subset ids : ∀ st k s,
  (remove_sessions ids st).1 !! k = Some s → st.1 !! k = Some s.
Proof.
  induction ids as [|id ids IH]; intros st k s; simpl; [done|].
  destruct (remove_session id st) as [st'|] eqn:Hr; [|by apply IH].
  intros Hk%IH. rewrite (remove_session_lookup _ _ _ _ Hr) in Hk.
  by case_bool_decide.
Qed.

Lemma elem_of_sessions_to_remove current_time sessions k :
  k ∈ sessions_to_remove current_time sessions
  ↔ ∃ s, sessions !! k = Some s ∧ expired current_time s = true.
Proof.
  unfold sessions_to_remove. rewrite list_elem_of_fmap. split.
  - intros [[k' s] [-> [Hexp Hin]%list_elem_of_filter]].
    exists s. by apply elem_of_map_to_list in Hin.
  - intros [s [Hs Hexp]]. exists (k, s). split; [done|].
    apply list_elem_of_filter. split; [done|]. by apply elem_of_map_to_list.
Qed.

(** A session that is not older than one hour survives a pass unchanged. *)
Lemma cleanup_keeps_young current_time st k s :
  st.1 !! k = Some s → expired current_time s = false →
  (cleanup_old_sessions current_time st).1 !! k = Some s.
Proof.
  intros Hs Hyoung. unfold cleanup_old_sessions.
  rewrite remove_sessions_other; [done|].
  intros [s' [Hs' Hexp]]%elem_of_sessions_to_remove. congruence.
Qed.

(** A pass creates no session and changes none. *)
Lemma cleanup_only_deletes current_time st k s :
  (cleanup_old_sessions current_time st).1 !! k = Some s → st.1 !! k = Some s.
Proof. apply remove_sessions_subset. Qed.

(** Once the entry of a session is gone, the rest of the loop does not bring
    it back. *)
Lemma remove_sessions_gone ids st k :
  st.1 !! k = None → (remove_sessions ids st).1 !! k = None.
Proof.
  intros Hk. destruct ((remove_sessions ids st).1 !! k) as [s|] eqn:Hs; [|done].
  apply remove_sessions_subset in Hs. congruence.
Qed.

Lemma remove_session_keeps_file session_id st st' k path :
  remove_session session_id st = Ok st' →
  session_id ≠ k → file_of_no_other st.1 k path → path ∈ st.2 →
  path ∈ st'.2 ∧ file_of_no_other st'.1 k path.
Proof.
  destruct st as [sessions fs]. unfold remove_session. simpl.
  destruct (sessions !! session_id) as [s|] eqn:Hs; simpl; [|discriminate].
  intros Hst Hne Hno Hin. specialize (Hno _ _ Hs Hne) as Hfile.
  assert (Hno' : file_of_no_other (delete session_id sessions) k path).
  { intros k' s' [_ Hk']%lookup_delete_Some. by apply Hno. }
  destruct (file_path s) as [p|]; simpl in Hst.
  - unfold os_remove in Hst. case_bool_decide; simpl in Hst; [|discriminate].
    injection Hst as <-. simpl. split; [|done].
    assert (p ≠ path) by congruence. set_solver.
  - injection Hst as <-. by split.
Qed.

(** An expired session whose file is on disk, and is the file of no other
    session, is reaped; so is an expired session without a file. *)
Lemma remove_sessions_reaps ids : ∀ st k s,
  k ∈ ids → st.1 !! k = Some s →
  match file_path s with
  | Some path => path ∈ st.2 ∧ file_of_no_other st.1 k path
  | None => True
  end →
  (remove_sessions ids st).1 !! k = None.
Proof.
  induction ids as [|id ids IH]; intros st k s Hin Hs Hfile; [by apply elem_of_nil in Hin|].
  simpl. destruct (decide (id = k)) as [->|Hne].
  - assert (∃ st', remove_session k st = Ok st') as [st' Hst'].
    { destruct st as [sessions fs]. unfold remove_session. simpl in *.
      rewrite Hs. simpl. destruct (file_path s) as [path|]; simpl; [|by eexists].
      unfold os_remove. rewrite bool_decide_eq_true_2 by apply Hfile.
      by eexists. }
    rewrite Hst'. apply remove_sessions_gone.
    rewrite (remove_session_lookup _ _ _ _ Hst'). by rewrite bool_decide_eq_true_2.
  - apply elem_of_cons in Hin as [?|Hin]; [congruence|].
    destruct (remove_session id st) as [st'|] eqn:Hr; [|by eapply IH].
    apply (IH st' k s Hin).
    + rewrite (remove_session_lookup _ _ _ _ Hr). by rewrite bool_decide_eq_false_2.
    + destruct (file_path s) as [path|]; [|done].
      destruct Hfile as [Hp Hno]. by eapply remove_session_keeps_file.
Qed.

Lemma cleanup_reaps_expired current_time st k s :
  st.1 !! k = Some s → expired current_time s = true →
  match file_path s with
  | Some path => path ∈ st.2 ∧ file_of_no_other st.1 k path
  | None => True
  end →
  (cleanup_old_sessions current_time st).1 !! k = None.
Proof.
  intros Hs Hexp Hfile. unfold cleanup_old_sessions.
  eapply remove_sessions_reaps; [|done..].
  apply elem_of_sessions_to_remove. eauto.
Qed.

(** An expired session whose file is not on disk is never reaped. *)
Lemma remove_sessions_missing_file ids : ∀ st k s path,
  st.1 !! k = Some s → file_path s = Some path → path ∉ st.2 →
  (remove_sessions ids st).1 !! k = Some s.
Proof.
  induction ids as [|id ids IH]; intros st k s path Hs Hpath Hno; simpl; [done|].
  destruct (remove_session id st) as [st'|] eqn:Hr; [|by eapply IH].
  destruct st as [sessions fs]. simpl in *.
  unfold remove_session in Hr.
  destruct (sessions !! id) as [s0|] eqn:Hs0; simpl in Hr; [|discriminate].
  destruct (decide (id = k)) as [->|Hne].
  - rewrite Hs in Hs0. injection Hs0 as <-. rewrite Hpath in Hr.
    unfold os_remove in Hr. rewrite bool_decide_eq_false_2 in Hr by done.
    discriminate.
  - assert (∃ fs', st' = (delete id sessions, fs') ∧ fs' ⊆ fs) as (fs' & -> & Hsub).
    { destruct (file_path s0) as [p|]; simpl in Hr.
      - unfold os_remove in Hr. case_bool_decide; simpl in Hr; [|discriminate].
        injection Hr as <-. eexists; split; [done|]. apply subseteq_difference_l. done.
      - injection Hr as <-. by eexists. }
    eapply IH; simpl; [|done|set_solver].
    by rewrite lookup_delete_ne.
Qed.

Lemma cleanup_keeps_missing_file current_time st k s path :
  st.1 !! k = Some s → file_path s = Some path → path ∉ st.2 →
  (cleanup_old_sessions current_time st).1 !! k = Some s.
Proof. apply remove_sessions_missing_file. Qed.

(** C9. Three sessions at a time when "a" and "b" are two hours old and
    "c" is one hour old; the upload of "b" is no longer on disk. One pass
    of the reaper removes "a" and keeps "c", but it keeps "b" as well:
    [os.remove] raises before [del sessions[session_id]] is reached, the
    exception is logged and the expired session stays in the table. The
    explicit deletion tolerates the missing file. *)
Theorem reaper_keeps_expired_session_without_file :
  let after := cleanup_old_sessions Examples.two_hours
                 (Examples.aged_sessions, Examples.disk) in
  expired Examples.two_hours Examples.old_without_file = true
  ∧ after.1 !! "b" = Some Examples.old_without_file
  ∧ after.1 !! "a" = None
  ∧ after.1 !! "c" = Some Examples.young
  ∧ (∃ st, delete_session "b" (Examples.aged_sessions, Examples.disk) = Ok st
           ∧ st.1 !! "b" = None).
Proof.
  split_and!; try (vm_compute; reflexivity).
  eexists; split; vm_compute; reflexivity.
Qed.

(** ** The mask codec *)

Module Base64Facts.
Import Base64.

Lemma Z_of_byte_range a : 0 ≤ Z_of_byte a < 256.
Proof.
  unfold Z_of_byte. pose proof (N_ascii_bounded a). lia.
Qed.

Lemma byte_of_Z_of_byte a : byte_of_Z (Z_of_byte a) = a.
Proof. unfold byte_of_Z, Z_of_byte. rewrite N2Z.id. apply ascii_N_embedding. Qed.

(** Every sextet has its own character of the alphabet, an ASCII character
    other than the pad. *)
Lemma char_of_sextet s :
  0 ≤ s < 64 →
  index_of (char_of s) = Some s ∧ char_of s ≠ pad ∧ Z_of_byte (char_of s) < 128.
Proof.
  intros Hs.
  pose (f := λ s, bool_decide (index_of (char_of s) = Some s)
                  && bool_decide (char_of s ≠ pad)
                  && bool_decide (Z_of_byte (char_of s) < 128)).
  assert (Hall : forallb f (seqZ 0 64) = true) by (vm_compute; reflexivity).
  apply (forallb_seqZ f 0 64 s) in Hall; [|lia].
  apply andb_prop in Hall as [[H1 H2]%andb_prop H3].
  split_and!; by eapply bool_decide_eq_true_1.
Qed.

(** One step of the decoder on the character of a sextet *)
Lemma a2b_char s rest quad_pos leftchar pads out :
  0 ≤ s < 64 →
  a2b (char_of s :: rest) quad_pos leftchar pads out
  = match quad_pos with
    | 0%nat => a2b rest 1%nat s 0%nat out
    | 1%nat => a2b rest 2%nat (Z.land s 15) 0%nat
                 (out ++ [byte_of_Z (Z.lor (Z.shiftl leftchar 2) (Z.shiftr s 4))])
    | 2%nat => a2b rest 3%nat (Z.land s 3) 0%nat
                 (out ++ [byte_of_Z (Z.lor (Z.shiftl leftchar 4) (Z.shiftr s 2))])
    | _ => a2b rest 0%nat 0 0%nat
             (out ++ [byte_of_Z (Z.lor (Z.shiftl leftchar 6) s)])
    end.
Proof.
  intros (Hi & Hp & _)%char_of_sextet. simpl.
  rewrite bool_decide_eq_false_2 by done. by rewrite Hi.
Qed.

(** The bit operations of the decoder undo the arithmetic of the encoder. *)
Lemma sextets_of_pair b1 b2 :
  0 ≤ b1 < 256 → 0 ≤ b2 < 256 →
  let s2 := b1 `mod` 4 * 16 + b2 / 16 in
  let s3 := b1 `mod` 16 * 4 + b2 / 64 in
  0 ≤ b1 / 4 < 64 ∧ 0 ≤ s2 < 64 ∧ 0 ≤ s3 < 64 ∧ 0 ≤ b1 `mod` 64 < 64
  ∧ Z.lor (Z.shiftl (b1 / 4) 2) (Z.shiftr s2 4) = b1
  ∧ Z.land s2 15 = b2 / 16
  ∧ Z.lor (Z.shiftl (b1 / 16) 4) (Z.shiftr s3 2) = b1
  ∧ Z.land s3 3 = b2 / 64
  ∧ Z.lor (Z.shiftl (b1 / 64) 6) (b1 `mod` 64) = b1.
Proof.
  intros H1 H2.
  pose (f := λ b1 b2,
          let s2 := b1 `mod` 4 * 16 + b2 / 16 in
          let s3 := b1 `mod` 16 * 4 + b2 / 64 in
          (0 <=? b1 / 4) && (b1 / 4 <? 64) && (0 <=? s2) && (s2 <? 64)
          && (0 <=? s3) && (s3 <? 64) && (0 <=? b1 `mod` 64) && (b1 `mod` 64 <? 64)
          && (Z.lor (Z.shiftl (b1 / 4) 2) (Z.shiftr s2 4) =? b1)
          && (Z.land s2 15 =? b2 / 16)
          && (Z.lor (Z.shiftl (b1 / 16) 4) (Z.shiftr s3 2) =? b1)
          && (Z.land s3 3 =? b2 / 64)
          && (Z.lor (Z.shiftl (b1 / 64) 6) (b1 `mod` 64) =? b1)).
  assert (Hall : forallb (λ b1, forallb (f b1) (seqZ 0 256)) (seqZ 0 256) = true)
    by (vm_compute; reflexivity).
  apply (forallb_seqZ _ 0 256 b1) in Hall; [|lia].
  apply (forallb_seqZ _ 0 256 b2) in Hall; [|lia].
  unfold f in Hall. simpl in Hall.
  repeat (apply andb_prop in Hall as [Hall ?]).
  repeat match goal with
         | H : (_ =? _) = true |- _ => apply Z.eqb_eq in H
         | H : (_ <=? _) = true |- _ => apply Z.leb_le in H
         | H : (_ <? _) = true |- _ => apply Z.ltb_lt in H
         end.
  split_and!; done.
Qed.

(** Lists three elements at a time *)
Lemma list_ind3 {A} (P : list A → Prop) :
  P [] → (∀ a, P [a]) → (∀ a b, P [a; b]) →
  (∀ a b c l, P l → P (a :: b :: c :: l)) → ∀ l, P l.
Proof.
  intros H0 H1 H2 H3 l.
  assert (Hn : ∀ n l, (length l < n)%nat → P l);
    [|apply (Hn (S (length l))); lia].
  clear l. induction n as [|n IH]; intros l Hl; [lia|].
  destruct l as [|a [|b [|c l]]]; auto.
  apply H3, IH. simpl in Hl. lia.
Qed.

Lemma zero_byte : 0 ≤ 0 < 256.
Proof. lia. Qed.

Lemma a2b_b2a bs : ∀ out, a2b (b2a bs) 0%nat 0 0%nat out = Ok (out ++ bs).
Proof.
  induction bs as [|a1|a1 a2|a1 a2 a3 rest IH] using list_ind3; intros out.
  - simpl. by rewrite app_nil_r.
  - pose proof (Z_of_byte_range a1) as H1.
    destruct (sextets_of_pair (Z_of_byte a1) 0 H1 zero_byte)
      as (R1 & R2 & _ & _ & E1 & _).
    cbn [b2a]. rewrite !Z.add_0_r in *.
    rewrite (a2b_char _ _ 0%nat) by done.
    rewrite (a2b_char _ _ 1%nat) by done.
    rewrite E1, byte_of_Z_of_byte. done.
  - pose proof (Z_of_byte_range a1) as H1. pose proof (Z_of_byte_range a2) as H2.
    destruct (sextets_of_pair (Z_of_byte a1) (Z_of_byte a2) H1 H2)
      as (R1 & R2 & _ & _ & E1 & L1 & _).
    destruct (sextets_of_pair (Z_of_byte a2) 0 H2 zero_byte)
      as (_ & _ & R3 & _ & _ & _ & E2 & _).
    cbn [b2a]. rewrite !Z.add_0_r in *.
    rewrite (a2b_char _ _ 0%nat) by done.
    rewrite (a2b_char _ _ 1%nat) by done.
    rewrite (a2b_char _ _ 2%nat) by done.
    rewrite E1, L1, E2, !byte_of_Z_of_byte. simpl.
    by rewrite <- app_assoc.
  - pose proof (Z_of_byte_range a1) as H1. pose proof (Z_of_byte_range a2) as H2.
    pose proof (Z_of_byte_range a3) as H3.
    destruct (sextets_of_pair (Z_of_byte a1) (Z_of_byte a2) H1 H2)
      as (R1 & R2 & _ & _ & E1 & L1 & _).
    destruct (sextets_of_pair (Z_of_byte a2) (Z_of_byte a3) H2 H3)
      as (_ & _ & R3 & _ & _ & _ & E2 & L2 & _).
    destruct (sextets_of_pair (Z_of_byte a3) 0 H3 zero_byte)
      as (_ & _ & _ & R4 & _ & _ & _ & _ & E3).
    cbn [b2a].
    rewrite (a2b_char _ _ 0%nat) by done.
    rewrite (a2b_char _ _ 1%nat) by done.
    rewrite (a2b_char _ _ 2%nat) by done.
    rewrite (a2b_char _ _ 3%nat) by done.
    rewrite E1, L1, E2, L2, E3, !byte_of_Z_of_byte, IH.
    by rewrite <- !app_assoc.
Qed.

Lemma b2a_ascii bs : forallb (λ c, Z_of_byte c <? 128) (b2a bs) = true.
Proof.
  assert (Hc : ∀ s, 0 ≤ s < 64 → (Z_of_byte (char_of s) <? 128) = true).
  { intros s Hs. apply Z.ltb_lt. by apply char_of_sextet. }
  induction bs as [|a1|a1 a2|a1 a2 a3 rest IH] using list_ind3.
  - done.
  - pose proof (Z_of_byte_range a1) as H1.
    destruct (sextets_of_pair (Z_of_byte a1) 0 H1 zero_byte) as (R1 & R2 & _).
    cbn [b2a forallb]. rewrite !Z.add_0_r in *. by rewrite !Hc.
  - pose proof (Z_of_byte_range a1) as H1. pose proof (Z_of_byte_range a2) as H2.
    destruct (sextets_of_pair (Z_of_byte a1) (Z_of_byte a2) H1 H2) as (R1 & R2 & _).
    destruct (sextets_of_pair (Z_of_byte a2) 0 H2 zero_byte) as (_ & _ & R3 & _).
    cbn [b2a forallb]. rewrite !Z.add_0_r in *. by rewrite !Hc.
  - pose proof (Z_of_byte_range a1) as H1. pose proof (Z_of_byte_range a2) as H2.
    pose proof (Z_of_byte_range a3) as H3.
    destruct (sextets_of_pair (Z_of_byte a1) (Z_of_byte a2) H1 H2) as (R1 & R2 & _).
    destruct (sextets_of_pair (Z_of_byte a2) (Z_of_byte a3) H2 H3) as (_ & _ & R3 & _).
    destruct (sextets_of_pair (Z_of_byte a3) 0 H3 zero_byte) as (_ & _ & _ & R4 & _).
    cbn [b2a forallb]. by rewrite !Hc, IH.
Qed.

(** Decoding an encoding gives the octets back. *)
Lemma b64decode_b64encode data : b64decode (b64encode data) = Ok data.
Proof.
  unfold b64decode, b64encode.
  rewrite String.list_ascii_of_string_of_list_ascii, b2a_ascii.
  apply (a2b_b2a data []).
Qed.
(** From the last position of a quad, the encoding of any octets leaves the
    decoder inside a quad: the input is rejected. *)
Lemma a2b_b2a_shifted data : ∀ leftchar pads out,
  a2b (b2a data) 3%nat leftchar pads out = Err BinasciiError.
Proof.
  induction data as [|a1|a1 a2|a1 a2 a3 rest IH] using list_ind3;
    intros leftchar pads out.
  - done.
  - pose proof (Z_of_byte_range a1) as H1.
    destruct (sextets_of_pair (Z_of_byte a1) 0 H1 zero_byte) as (R1 & R2 & _).
    cbn [b2a]. rewrite !Z.add_0_r in *.
    rewrite (a2b_char _ _ 3%nat) by done.
    rewrite (a2b_char _ _ 0%nat) by done. done.
  - pose proof (Z_of_byte_range a1) as H1. pose proof (Z_of_byte_range a2) as H2.
    destruct (sextets_of_pair (Z_of_byte a1) (Z_of_byte a2) H1 H2) as (R1 & R2 & _).
    destruct (sextets_of_pair (Z_of_byte a2) 0 H2 zero_byte) as (_ & _ & R3 & _).
    cbn [b2a]. rewrite !Z.add_0_r in *.
    rewrite (a2b_char _ _ 3%nat) by done.
    rewrite (a2b_char _ _ 0%nat) by done.
    rewrite (a2b_char _ _ 1%nat) by done. done.
  - pose proof (Z_of_byte_range a1) as H1. pose proof (Z_of_byte_range a2) as H2.
    pose proof (Z_of_byte_range a3) as H3.
    destruct (sextets_of_pair (Z_of_byte a1) (Z_of_byte a2) H1 H2) as (R1 & R2 & _).
    destruct (sextets_of_pair (Z_of_byte a2) (Z_of_byte a3) H2 H3) as (_ & _ & R3 & _).
    destruct (sextets_of_pair (Z_of_byte a3) 0 H3 zero_byte) as (_ & _ & _ & R4 & _).
    cbn [b2a].
    rewrite (a2b_char _ _ 3%nat) by done.
    rewrite (a2b_char _ _ 0%nat) by done.
    rewrite (a2b_char _ _ 1%nat) by done.
    rewrite (a2b_char _ _ 2%nat) by done.
    apply IH.
Qed.

Lemma a2b_skip c rest quad_pos leftchar pads out :
  c ≠ pad → index_of c = None →
  a2b (c :: rest) quad_pos leftchar pads out = a2b rest quad_pos leftchar pads out.
Proof.
  intros Hp Hi. cbn [a2b]. rewrite bool_decide_eq_false_2 by done. by rewrite Hi.
Qed.

Lemma list_ascii_of_string_app s1 s2 :
  String.list_ascii_of_string (s1 +:+ s2)
  = String.list_ascii_of_string s1 ++ String.list_ascii_of_string s2.
Proof. induction s1 as [|c s1 IH]; simpl; [done|by rewrite IH]. Qed.

(** The decoder on the prefix of a data URI: the three separators are
    skipped and the nineteen other characters are decoded, which leaves the
    decoder at the last position of a quad. *)
Lemma a2b_data_uri_prefix rest :
  ∃ leftchar out,
    a2b (String.list_ascii_of_string "data:image/png;base64," ++ rest) 0%nat 0 0%nat []
    = a2b rest 3%nat leftchar 0%nat out.
Proof.
  assert (Hsplit : String.list_ascii_of_string "data:image/png;base64,"
                   = (char_of <$> [29; 26; 45; 26]) ++ [":"%char]
                     ++ (char_of <$> [34; 38; 26; 32; 30; 63; 41; 39; 32])
                     ++ [";"%char] ++ (char_of <$> [27; 26; 44; 30; 58; 56])
                     ++ [","%char]) by (vm_compute; reflexivity).
  rewrite Hsplit. cbn [fmap list_fmap app].
  repeat first
    [ rewrite a2b_char by lia
    | rewrite a2b_skip by (first [discriminate | vm_compute; reflexivity]) ].
  by eexists _, _.
Qed.

Lemma b64decode_prefixed data :
  b64decode ("data:image/png;base64," +:+ b64encode data) = Err BinasciiError.
Proof.
  unfold b64decode, b64encode.
  rewrite list_ascii_of_string_app, String.list_ascii_of_string_of_list_ascii.
  rewrite forallb_app, b2a_ascii, andb_true_r.
  replace (forallb _ _) with true by (vm_compute; reflexivity).
  destruct (a2b_data_uri_prefix (b2a data)) as (leftchar & out & ->).
  apply a2b_b2a_shifted.
Qed.
End Base64Facts.

Section CodecFacts.
Context `{Libs}.

(** Every pixel of the bitmap that [_encode_mask] builds carries one value,
    0 or 255, in its four channels. *)
Lemma rgba_of_mask_channels m px :
  px ∈ im_data (rgba_of_mask m) →
  ∃ v, (v = 0 ∨ v = 255) ∧ px = [v; v; v; v].
Proof.
  simpl. intros [b [-> _]]%list_elem_of_fmap.
  destruct b; [exists 255|exists 0]; split; auto.
Qed.

(** The luma of such a pixel is positive exactly when the mask is true. *)
Lemma mask_array_of_rgba m : mask_array_of (rgba_of_mask m) = Bool2D m.
Proof.
  destruct m as [h w cs]. unfold mask_array_of, rgba_of_mask. simpl.
  do 2 f_equal. rewrite <- list_fmap_compose.
  rewrite <- (list_fmap_id cs) at 2. apply list_fmap_ext.
  by intros _ [] _.
Qed.
End CodecFacts.

(** C7. [_decode_mask (_encode_mask M)] is [M], for every boolean array [M]
    whose RGBA bitmap the PNG writer and reader of PIL carry without loss.
    The bitmap holds the same value, 0 or 255, in the four channels of each
    pixel. *)
Theorem decode_encode_mask `{Libs} (M : mask) data :
  png_save (rgba_of_mask M) = Ok data →
  image_open data = Ok (rgba_of_mask M) →
  (∀ px, px ∈ im_data (rgba_of_mask M) → ∃ v, (v = 0 ∨ v = 255) ∧ px = [v; v; v; v])
  ∧ ∃ e, _encode_mask M = Ok e ∧ _decode_mask e = Ok (Bool2D M).
Proof.
  intros Hsave Hopen. split; [apply rgba_of_mask_channels|].
  unfold _encode_mask, _decode_mask. rewrite Hsave. simpl.
  eexists; split; [reflexivity|].
  rewrite Base64Facts.b64decode_b64encode. simpl.
  rewrite Hopen. simpl. by rewrite mask_array_of_rgba.
Qed.

Lemma decode_encode_mask_witness :
  @png_save ref_libs (rgba_of_mask Examples.corner2)
    = Ok (Ref.encode (rgba_of_mask Examples.corner2))
  ∧ @image_open ref_libs (Ref.encode (rgba_of_mask Examples.corner2))
    = Ok (rgba_of_mask Examples.corner2)
  ∧ ∃ e, @_encode_mask ref_libs Examples.corner2 = Ok e
         ∧ @_decode_mask ref_libs e = Ok (Bool2D Examples.corner2).
Proof.
  split; [reflexivity|]. split; [vm_compute; reflexivity|].
  apply (@decode_encode_mask ref_libs Examples.corner2
           (Ref.encode (rgba_of_mask Examples.corner2)));
    vm_compute; reflexivity.
Defined.

(** C8. [_decode_mask] hands its argument to [base64.b64decode] as it is.
    With the prefix "data:image/png;base64," in front of the encoding of a
    mask, the nineteen characters of the prefix that belong to the base64
    alphabet are decoded with the rest, the padding no longer falls at the
    end of a quad, and the call fails: for every encoded mask, and whatever
    PIL does. *)
Theorem decode_mask_does_not_strip_prefix `{Libs} (M : mask) e :
  _encode_mask M = Ok e →
  _decode_mask ("data:image/png;base64," +:+ e) = Err ValueError.
Proof.
  unfold _encode_mask, _decode_mask.
  destruct (png_save (rgba_of_mask M)) as [data|]; simpl; [|discriminate].
  intros [= <-]. by rewrite Base64Facts.b64decode_prefixed.
Qed.

Lemma decode_mask_does_not_strip_prefix_witness :
  @_encode_mask ref_libs Examples.corner2 = Ok (Examples.b64_of Examples.corner2)
  ∧ @_decode_mask ref_libs
      ("data:image/png;base64," +:+ Examples.b64_of Examples.corner2)
    = Err ValueError.
Proof.
  split; [reflexivity|].
  apply (@decode_mask_does_not_strip_prefix ref_libs Examples.corner2). reflexivity.
Defined.

(** On the 2 by 2 corner mask: the bare encoding decodes to the mask, the
    prefixed one is rejected. [_decode_image] strips the prefix and decodes
    both forms of an image to the same array. *)
Example decode_image_strips_prefix :
  @_decode_mask ref_libs (Examples.b64_of Examples.corner2)
    = Ok (Bool2D Examples.corner2)
  ∧ @_decode_mask ref_libs
      (Examples.data_uri_prefix +:+ Examples.b64_of Examples.corner2)
    = Err ValueError
  ∧ @_decode_image ref_libs Examples.img2_b64 = Ok Examples.img2
  ∧ @_decode_image ref_libs (Examples.data_uri_prefix +:+ Examples.img2_b64)
    = Ok Examples.img2.
Proof. split_and!; vm_compute; reflexivity. Qed.

(** ** Oversized images *)

Section Downscale.
Context `{Libs}.

(** An image that fits is returned as it is. *)
Lemma validate_image_size_small img :
  Z.max (Z.of_nat (nrows img)) (Z.of_nat (ncols img)) ≤ 2048 →
  _validate_image_size img 2048 = Ok img.
Proof.
  intros Hfit. unfold _validate_image_size.
  by rewrite (proj2 (Z.ltb_ge _ _) Hfit).
Qed.

(** An image whose larger side exceeds 2048 is resampled: the larger side
    becomes 2048 and the other one [scaled_dim], provided that this is at
    least 1. *)
Lemma validate_image_size_large img :
  let '(h, w) := (Z.of_nat (nrows img), Z.of_nat (ncols img)) in
  2048 < Z.max h w →
  0 < scaled_dim 2048 (Z.min h w) (Z.max h w) →
  ∃ img', _validate_image_size img 2048 = Ok img'
    ∧ Z.of_nat (nrows img')
      = (if w <? h then 2048 else scaled_dim 2048 (Z.min h w) (Z.max h w))
    ∧ Z.of_nat (ncols img')
      = (if w <? h then scaled_dim 2048 (Z.min h w) (Z.max h w) else 2048).
Proof.
  simpl. intros Hbig Hpos. unfold _validate_image_size, cv2_resize_lanczos.
  rewrite (proj2 (Z.ltb_lt _ _) Hbig).
  destruct (Z.ltb_spec (Z.of_nat (ncols img)) (Z.of_nat (nrows img))) as [Hlt|Hge].
  - rewrite Z.min_r, Z.max_l in Hpos by lia.
    rewrite Z.min_r, Z.max_l by lia.
    rewrite (proj2 (Z.leb_gt _ _) Hpos). simpl.
    eexists; split; [done|]. simpl. lia.
  - rewrite Z.min_l, Z.max_r in Hpos by lia.
    rewrite Z.min_l, Z.max_r by lia.
    rewrite (proj2 (Z.leb_gt _ _) Hpos). simpl.
    eexists; split; [done|]. simpl. lia.
Qed.

(** The width and the height that [paint_mask] returns are those of the
    decoded, possibly resampled, image. *)
Lemma paint_mask_reports_decoded_size image_data mask_b64 color opacity st r st' :
  paint_mask image_data mask_b64 color opacity None st = Ok (r, st') →
  ∃ img, _decode_image image_data = Ok img
         ∧ pm_width r = ncols img ∧ pm_height r = nrows img.
Proof.
  unfold paint_mask. simpl.
  destruct (_decode_image image_data) as [img|]; simpl; [|discriminate].
  destruct (_decode_mask mask_b64) as [a|]; simpl; [|discriminate].
  destruct (ensure_shape _ _ _) as [a'|]; simpl; [|discriminate].
  destruct (paint_array _ _ _ _ _) as [[painted st'']|]; simpl; [|discriminate].
  destruct (encode_painted painted) as [b64|]; simpl; [|discriminate].
  intros [= <- _]. by exists img.
Qed.
End Downscale.

(** A 4000 by 3000 image is resampled to 2048 by 1536. *)
Example validate_4000_by_3000 `{Libs} :
  shape <$> (match _validate_image_size (NDArray 3000 4000 []) 2048 with
             | Ok a => Some a
             | Err _ => None
             end) = Some (1536%nat, 2048%nat).
Proof. vm_compute; reflexivity. Qed.

(** C10. An image of 1 by 2049 pixels is larger than 2048 on one side, and
    [int(1 * (2048 / 2049))] is 0: [cv2.resize] is asked for an empty size
    and raises, so [_decode_image] fails and so does every operation that
    decodes the image, instead of working on a downscaled image. *)
Theorem thin_image_is_not_downscaled :
  scaled_dim 2048 1 2049 = 0
  ∧ (∀ (L : Libs) cells,
       @_validate_image_size L (NDArray 2049 1 cells) 2048 = Err CvError)
  ∧ @_decode_image ref_libs Examples.thin_b64 = Err ValueError
  ∧ @paint_mask ref_libs Examples.thin_b64 (Examples.b64_of Examples.full2)
      "#FF0000" (F64.dec 7 10) None 0 = Err ValueError
  ∧ @paint_multiple_masks ref_libs Examples.thin_b64
      [Examples.red_inline Examples.full2] 0 = Err ValueError.
Proof. split_and!; vm_compute; reflexivity. Qed.

(** * Further properties *)

(** ** The compositing engine *)

Section Frame.
Context `{Libs}.


End Frame.




(** ** Decoding an image *)

Lemma prefix_app p : ∀ s t, String.prefix p s = true → String.prefix p (s +:+ t) = true.
Proof.
  induction p as [|a p IH]; intros [|b s] t; simpl; try done.
  - by destruct t.
  - destruct (Ascii.ascii_dec _ _); [apply IH|discriminate].
Qed.

Lemma prefix_list p : ∀ s,
  String.prefix p s = true →
  ∃ rest, String.list_ascii_of_string s = String.list_ascii_of_string p ++ rest.
Proof.
  induction p as [|a p IH]; intros [|b s]; simpl; try discriminate.
  - by exists [].
  - intros _. by eexists.
  - destruct (Ascii.ascii_dec _ _) as [<-|]; [|discriminate].
    intros [rest ->]%IH. by exists rest.
Qed.

Lemma lstrip_not_elem (c : ascii) l :
  c ∉ l → lstrip (λ a, negb (bool_decide (a = c))) l = [].
Proof.
  induction l as [|a l IH]; simpl; [done|].
  intros [Hne Hl]%not_elem_of_cons. rewrite bool_decide_false by done. simpl. by apply IH.
Qed.

Lemma lstrip_until (c : ascii) l r :
  c ∉ l → lstrip (λ a, negb (bool_decide (a = c))) (l ++ c :: r) = c :: r.
Proof.
  induction l as [|a l IH]; simpl.
  - intros _. by rewrite bool_decide_true.
  - intros [Hne Hl]%not_elem_of_cons. rewrite bool_decide_false by done. simpl. by apply IH.
Qed.

Lemma split_comma_1_header header payload :
  ","%char ∉ String.list_ascii_of_string header →
  ","%char ∉ String.list_ascii_of_string payload →
  split_comma_1 (header +:+ "," +:+ payload) = Ok payload.
Proof.
  intros Hh Hp. unfold split_comma_1.
  rewrite Base64Facts.list_ascii_of_string_app. simpl.
  rewrite lstrip_until by done. change (EmptyString +:+ payload) with payload.
  rewrite (lstrip_not_elem _ _ Hp). simpl.
  rewrite Nat.sub_0_r, firstn_all. by rewrite String.string_of_list_ascii_of_string.
Qed.

Lemma split_comma_1_none s :
  ","%char ∉ String.list_ascii_of_string s → split_comma_1 s = Err IndexError.
Proof. intros Hs. unfold split_comma_1. by rewrite lstrip_not_elem. Qed.

(** X3. [_decode_image] drops a data-URL header: when the text starts with
    "data:image", what lies between the first comma and the next one is
    decoded, so a header without comma followed by a comma and a payload
    without comma decodes as the payload alone. A text that starts with
    "data:image" and has no comma is refused. *)
Theorem decode_image_strips_data_url `{Libs} header payload :
  startswith "data:image" header = true →
  ","%char ∉ String.list_ascii_of_string header →
  ","%char ∉ String.list_ascii_of_string payload →
  startswith "data:image" payload = false →
  _decode_image (header +:+ "," +:+ payload) = _decode_image payload
  ∧ _decode_image header = Err ValueError.
Proof.
  intros Hstart Hh Hp Hpay. unfold _decode_image. split.
  - unfold startswith in *. rewrite (prefix_app _ _ _ Hstart), Hpay.
    by rewrite split_comma_1_header.
  - rewrite Hstart, split_comma_1_none by done. done.
Qed.

(** No character of a concrete text is the character [c]. *)
Ltac no_such_char :=
  vm_compute; intros Hin;
  repeat (apply elem_of_cons in Hin as [Hin|Hin]; [discriminate|]);
  by apply elem_of_nil in Hin.

Lemma decode_image_strips_data_url_witness :
  @_decode_image ref_libs ("data:image/png;base64" +:+ "," +:+ Examples.img2_b64)
  = @_decode_image ref_libs Examples.img2_b64
  ∧ @_decode_image ref_libs "data:image/png;base64" = Err ValueError.
Proof.
  apply (@decode_image_strips_data_url ref_libs "data:image/png;base64"
           Examples.img2_b64).
  - reflexivity.
  - no_such_char.
  - no_such_char.
  - vm_compute. reflexivity.
Defined.

(** An error of [_decode_image] is a [ValueError]. *)
Lemma decode_image_error `{Libs} image_data e :
  _decode_image image_data = Err e → e = ValueError.
Proof.
  unfold _decode_image, reraise_as. by destruct (_ ≫= _); [|intros [= <-]].
Qed.

(** ** Selecting the best mask at a point, continued *)

(** X4. A mask that [get_mask_at_point] returns is one of the candidates,
    contains the point, has a score above 0 that no candidate containing the
    point exceeds, and comes with the score and the box of that candidate
    and with the size of the decoded image. *)
Theorem get_mask_at_point_returns_best `{Libs} image_data x y all_masks r :
  get_mask_at_point image_data [x; y] all_masks = Ok r →
  ∃ img info,
    _decode_image image_data = Ok img
    ∧ pr_width r = ncols img ∧ pr_height r = nrows img
    ∧ info ∈ all_masks ∧ contains_point info x y
    ∧ mi_mask info = Some (pr_mask r) ∧ pr_score r = mi_score info
    ∧ pr_bbox r = mi_bbox info
    ∧ F64.ltb (F64.of_Z 0) (default (F64.of_Z 0) (mi_score info)) = true
    ∧ ∀ c, c ∈ all_masks → contains_point c x y →
           F64.ltb (default (F64.of_Z 0) (mi_score info))
                   (default (F64.of_Z 0) (mi_score c)) = false.
Proof.
  intros Hr. unfold get_mask_at_point in Hr.
  destruct (_decode_image image_data) as [img|] eqn:Himg; simpl in Hr; [|discriminate].
  destruct (scan_masks x y all_masks _) as [[best|] s] eqn:Hscan; [|discriminate].
  pose proof Hscan as Hscan'.
  apply scan_masks_sound in Hscan' as [[=]|(Hin & Hc & ->)].
  destruct (mi_mask best) as [b64|] eqn:Hb; simpl in Hr; [|discriminate].
  injection Hr as <-. simpl.
  pose proof (scan_masks_maximal x y all_masks (None, F64.of_Z 0)) as [Hgrow Hmax].
  rewrite Hscan in Hgrow, Hmax. simpl in Hgrow, Hmax.
  exists img, best. split_and!; try done.
  by destruct Hgrow as [?|?].
Qed.

Lemma get_mask_at_point_returns_best_witness :
  let r := PointResult (Examples.b64_of Examples.last_row11) (Some (F64.dec 9 10))
             None 11 11 in
  @get_mask_at_point ref_libs Examples.img11_b64 [10; 10] Samples.three_candidates = Ok r
  ∧ ∃ img info,
    @_decode_image ref_libs Examples.img11_b64 = Ok img
    ∧ pr_width r = ncols img ∧ pr_height r = nrows img
    ∧ info ∈ Samples.three_candidates ∧ @contains_point ref_libs info 10 10
    ∧ mi_mask info = Some (pr_mask r) ∧ pr_score r = mi_score info
    ∧ pr_bbox r = mi_bbox info
    ∧ F64.ltb (F64.of_Z 0) (default (F64.of_Z 0) (mi_score info)) = true
    ∧ ∀ c, c ∈ Samples.three_candidates → @contains_point ref_libs c 10 10 →
           F64.ltb (default (F64.of_Z 0) (mi_score info))
                   (default (F64.of_Z 0) (mi_score c)) = false.
Proof.
  assert (Hr : @get_mask_at_point ref_libs Examples.img11_b64 [10; 10]
                 Samples.three_candidates
               = Ok (PointResult (Examples.b64_of Examples.last_row11)
                       (Some (F64.dec 9 10)) None 11 11))
    by (vm_compute; reflexivity).
  split; [exact Hr|].
  exact (@get_mask_at_point_returns_best ref_libs _ _ _ _ _ Hr).
Defined.

(** ** The list of [generate_all_masks] *)

Section ProcessMasks.
Context `{Libs}.

Lemma process_masks_sound masks_data : ∀ masks info,
  info ∈ process_masks masks_data masks →
  info ∈ masks ∨ ∃ raw e, raw ∈ masks_data ∧ kept raw e ∧ response_of raw e info.
Proof.
  induction masks_data as [|raw rest IH]; intros masks info; simpl; [by left|].
  assert (Hrest : info ∈ process_masks rest masks →
            info ∈ masks ∨ ∃ raw0 e, raw0 ∈ raw :: rest ∧ kept raw0 e ∧ response_of raw0 e info).
  { intros [?|(raw0 & e & ? & ? & ?)]%IH; [by left|].
    right. exists raw0, e. split; [by right|done]. }
  destruct (segmentation raw) as [seg|] eqn:Hseg; [|done].
  destruct (Z.ltb_spec (default 0 (sam_area raw)) 10) as [?|Harea]; [done|].
  destruct (_encode_mask seg) as [e|] eqn:He; [|done].
  intros [Hin|(raw0 & e0 & ? & ? & ?)]%IH.
  - apply elem_of_app in Hin as [?|Hin]; [by left|].
    apply list_elem_of_singleton in Hin as ->.
    right. exists raw, e. split; [by left|]. split; [by exists seg|]. by repeat split.
  - right. exists raw0, e0. split; [by right|done].
Qed.

Lemma process_masks_acc masks_data : ∀ masks info,
  info ∈ masks → info ∈ process_masks masks_data masks.
Proof.
  induction masks_data as [|raw rest IH]; intros masks info Hin; simpl; [done|].
  destruct (segmentation raw) as [seg|]; [|by apply IH].
  destruct (_ <? _); [by apply IH|].
  destruct (_encode_mask seg) as [e|]; [|by apply IH].
  apply IH, elem_of_app. by left.
Qed.

Lemma process_masks_complete masks_data : ∀ masks raw e,
  raw ∈ masks_data → kept raw e →
  ∃ info, info ∈ process_masks masks_data masks ∧ response_of raw e info.
Proof.
  induction masks_data as [|raw0 rest IH]; intros masks raw e Hin Hk; simpl.
  { by apply elem_of_nil in Hin. }
  apply elem_of_cons in Hin as [->|Hin].
  - destruct Hk as (seg & -> & Harea & ->).
    destruct (Z.ltb_spec (default 0 (sam_area raw0)) 10) as [?|_]; [lia|].
    eexists. split; [apply process_masks_acc, elem_of_app; right;
                     by apply list_elem_of_singleton|].
    by repeat split.
  - destruct (segmentation raw0) as [seg|]; [|by apply IH].
    destruct (_ <? _); [by apply IH|].
    destruct (_encode_mask seg) as [e0|]; by apply IH.
Qed.

Lemma process_masks_length masks_data : ∀ masks,
  (length (process_masks masks_data masks) ≤ length masks + length masks_data)%nat.
Proof.
  induction masks_data as [|raw rest IH]; intros masks; simpl; [lia|].
  destruct (segmentation raw) as [seg|]; [|specialize (IH masks); lia].
  destruct (_ <? _); [specialize (IH masks); lia|].
  destruct (_encode_mask seg) as [e|]; [|specialize (IH masks); lia].
  specialize (IH (masks ++ [MaskInfo (Some (Z.of_nat (length masks))) (Some e)
     (Some (default (F64.of_Z 0) (predicted_iou raw))) (sam_bbox raw)
     (Some (default 0 (sam_area raw)))
     (Some (default (F64.of_Z 0) (sam_stability_score raw)))])).
  rewrite length_app in IH. simpl in IH. lia.
Qed.

(** X5. The response list of [generate_all_masks] holds exactly the entries
    of the generator that have a segmentation, an area of at least 10 and an
    encodable bitmap: every entry of the list comes from such an entry, with
    its encoding, score, box, area and stability score, every such entry is
    in the list, and the list is no longer than the generator's. *)
Theorem process_masks_keeps_exactly masks_data :
  (∀ info, info ∈ process_masks masks_data [] →
           ∃ raw e, raw ∈ masks_data ∧ kept raw e ∧ response_of raw e info)
  ∧ (∀ raw e, raw ∈ masks_data → kept raw e →
              ∃ info, info ∈ process_masks masks_data [] ∧ response_of raw e info)
  ∧ (length (process_masks masks_data []) ≤ length masks_data)%nat.
Proof.
  split_and!.
  - intros info [Hin|?]%process_masks_sound; [by apply elem_of_nil in Hin|done].
  - intros raw e. apply process_masks_complete.
  - apply (process_masks_length masks_data []).
Qed.
End ProcessMasks.

(** ** Painting on a painted image *)

Lemma alphabet_plain c :
  c ∈ Base64.alphabet → c ≠ ":"%char ∧ py_isspace c = false.
Proof.
  intros Hc.
  assert (Hall : forallb (λ c, negb (bool_decide (c = ":"%char)) && negb (py_isspace c))
                   Base64.alphabet = true) by (vm_compute; reflexivity).
  rewrite forallb_forall in Hall. apply list_elem_of_In, Hall in Hc.
  apply andb_prop in Hc as [H1 H2]. split.
  - apply negb_true_iff, bool_decide_eq_false in H1. done.
  - by apply negb_true_iff in H2.
Qed.

Lemma char_of_plain s :
  Base64.char_of s ≠ ":"%char ∧ py_isspace (Base64.char_of s) = false.
Proof.
  unfold Base64.char_of.
  destruct (nth_in_or_default (Z.to_nat s) Base64.alphabet "A"%char) as [Hin| ->].
  - apply alphabet_plain, list_elem_of_In, Hin.
  - split; [discriminate|reflexivity].
Qed.

(** An encoding holds no colon and no white space. *)
Lemma b2a_plain bs :
  Forall (λ c, c ≠ ":"%char ∧ py_isspace c = false) (Base64.b2a bs).
Proof.
  induction bs as [| a | a b | a b c l IH] using Base64Facts.list_ind3; simpl.
  - constructor.
  - repeat constructor; try apply char_of_plain; done.
  - repeat constructor; try apply char_of_plain; done.
  - repeat (constructor; [apply char_of_plain|]). done.
Qed.

Lemma b2a_nil bs : Base64.b2a bs = [] → bs = [].
Proof. by destruct bs as [|a [|b [|c l]]]. Qed.

Lemma b64encode_not_data_url data :
  startswith "data:image" (Base64.b64encode data) = false.
Proof.
  destruct (startswith _ _) eqn:Hp; [|done]. exfalso.
  apply prefix_list in Hp as [rest Hrest].
  unfold Base64.b64encode in Hrest.
  rewrite String.list_ascii_of_string_of_list_ascii in Hrest.
  pose proof (b2a_plain data) as Hall. rewrite Hrest in Hall.
  do 4 apply Forall_cons_1 in Hall as [_ Hall].
  apply Forall_cons_1 in Hall as [[Hne _] _]. done.
Qed.

Lemma lstrip_hd {A} (f : A → bool) l :
  match l with [] => True | c :: _ => f c = false end → lstrip f l = l.
Proof. destruct l as [|c l]; simpl; [done|]. by intros ->. Qed.

Lemma strip_plain l :
  Forall (λ c, c ≠ ":"%char ∧ py_isspace c = false) l →
  reverse (lstrip py_isspace (reverse (lstrip py_isspace l))) = l.
Proof.
  intros Hall. rewrite (lstrip_hd _ l).
  - rewrite lstrip_hd; [apply reverse_involutive|].
    apply Forall_reverse in Hall. destruct (reverse l); [done|].
    by apply Forall_cons_1 in Hall as [[_ ?] _].
  - destruct l; [done|]. by apply Forall_cons_1 in Hall as [[_ ?] _].
Qed.

Lemma b64encode_truthy data :
  data ≠ [] →
  truthy (Some (Base64.b64encode data))
  && truthy (str_strip <$> Some (Base64.b64encode data)) = true.
Proof.
  intros Hdata. simpl. unfold str_strip, Base64.b64encode.
  rewrite String.list_ascii_of_string_of_list_ascii, strip_plain by apply b2a_plain.
  assert (String.string_of_list_ascii (Base64.b2a data) ≠ EmptyString) as Hne.
  { intros Heq. apply (f_equal String.list_ascii_of_string) in Heq.
    rewrite String.list_ascii_of_string_of_list_ascii in Heq. by apply b2a_nil in Heq. }
  by rewrite !bool_decide_false.
Qed.

Section Cumulative.
Context `{Libs}.

Lemma array_of_fromarray img : array_of_rgb_image (Image_fromarray_rgb img) = img.
Proof.
  destruct img as [h w cs]. unfold array_of_rgb_image, Image_fromarray_rgb. simpl.
  f_equal. rewrite <- list_fmap_compose. rewrite <- (list_fmap_id cs) at 2.
  apply list_fmap_ext. by intros _ [r g b] _.
Qed.

(** [_decode_image] on the transport encoding of a PNG file that holds an
    RGB array of at most 2048 on each side *)
Lemma decode_image_b64encode img data :
  image_open data = Ok (Image_fromarray_rgb img) →
  Z.max (Z.of_nat (nrows img)) (Z.of_nat (ncols img)) ≤ 2048 →
  _decode_image (Base64.b64encode data) = Ok img.
Proof.
  intros Hopen Hsize. unfold _decode_image. rewrite b64encode_not_data_url. simpl.
  rewrite Base64Facts.b64decode_b64encode. simpl. rewrite Hopen. simpl.
  rewrite array_of_fromarray, validate_image_size_small by done. done.
Qed.

(** X6. A painted image that [paint_mask] or [paint_multiple_masks] has
    encoded decodes back to the same array with [_decode_image], when the
    array is at most 2048 on each side and PIL's PNG writer and reader
    carry its bitmap without loss. *)
Theorem decode_image_of_encoded_painting img data :
  png_save (Image_fromarray_rgb img) = Ok data →
  image_open data = Ok (Image_fromarray_rgb img) →
  Z.max (Z.of_nat (nrows img)) (Z.of_nat (ncols img)) ≤ 2048 →
  encode_painted img = Ok (Base64.b64encode data)
  ∧ _decode_image (Base64.b64encode data) = Ok img.
Proof.
  intros Hsave Hopen Hsize. split.
  - unfold encode_painted. by rewrite Hsave.
  - by apply decode_image_b64encode.
Qed.

(** X7. In [paint_mask] a base image that is blank, or that does not
    decode, is ignored: the mask is painted on the original image, as
    without base image. *)
Theorem paint_mask_ignores_bad_base_image image_data mask_b64 color opacity base st :
  str_strip base = EmptyString ∨ (∃ e, _decode_image base = Err e) →
  paint_mask image_data mask_b64 color opacity (Some base) st
  = paint_mask image_data mask_b64 color opacity None st.
Proof.
  intros [Hs|[e He]]; unfold paint_mask; simpl.
  - rewrite Hs. rewrite (bool_decide_true (EmptyString = EmptyString)) by done.
    simpl. by rewrite andb_false_r.
  - rewrite He. by destruct (_ && _).
Qed.

(** X8. Cumulative painting: when the base image of [paint_mask] is the
    encoding of a painted array [base], the original image is not looked at
    and the result is the step [paintOne] of [paint_multiple_masks] applied
    to [base], with the size of [base]. *)
Theorem paint_mask_on_base_image image_data base data m color opacity st :
  png_save (Image_fromarray_rgb base) = Ok data →
  image_open data = Ok (Image_fromarray_rgb base) →
  data ≠ [] →
  Z.max (Z.of_nat (nrows base)) (Z.of_nat (ncols base)) ≤ 2048 →
  m ≠ EmptyString →
  encode_painted base = Ok (Base64.b64encode data)
  ∧ paint_mask image_data m color opacity (Some (Base64.b64encode data)) st
    = '(painted, st') ← paintOne base (ColoredMask None (Some m) (Some color)
                                         (Some opacity)) st;
      painted_b64 ← encode_painted painted;
      Ok (PaintMaskResult painted_b64 (ncols base) (nrows base), st').
Proof.
  intros Hsave Hopen Hdata Hsize Hm.
  pose proof (decode_image_b64encode _ _ Hopen Hsize) as Hdec.
  split; [unfold encode_painted; by rewrite Hsave|]. unfold paint_mask, paintOne.
  rewrite b64encode_truthy by done. simpl default. rewrite Hdec. simpl.
  rewrite bool_decide_false by done. simpl.
  destruct (_decode_mask m) as [a|]; simpl; [|done].
  destruct (ensure_shape _ _ _) as [a'|]; simpl; [|done].
  by destruct (paint_array _ _ _ _ _) as [[painted st']|].
Qed.

(** X9. [paint_multiple_masks] on a single entry that carries mask data is
    [paint_mask] on that mask, with "#FF0000" for a missing colour and 0.7
    for a missing opacity; the entry's id is not looked at. *)
Theorem paint_multiple_masks_singleton image_data id m color opacity st :
  m ≠ EmptyString →
  paint_multiple_masks image_data [ColoredMask id (Some m) color opacity] st
  = '(r, st') ← paint_mask image_data m (default default_color color)
                  (default default_opacity opacity) None st;
    Ok (PaintMultipleResult (pm_painted_image r) (pm_width r) (pm_height r) 1, st').
Proof.
  intros Hm. unfold paint_multiple_masks, paint_mask. simpl.
  destruct (_decode_image image_data) as [img|]; simpl; [|done].
  rewrite bool_decide_false by done. simpl.
  destruct (_decode_mask m) as [a|]; simpl; [|done].
  destruct (ensure_shape _ _ _) as [a'|]; simpl; [|done].
  destruct (paint_array _ _ _ _ _) as [[painted st']|]; simpl; [|done].
  by destruct (encode_painted painted).
Qed.
End Cumulative.

(** A concrete text is not empty. *)
Ltac not_empty := intros Hempty; vm_compute in Hempty; discriminate Hempty.

Lemma decode_image_of_encoded_painting_witness :
  @encode_painted ref_libs Examples.img2 = Ok (Base64.b64encode Samples.img2_png)
  ∧ @_decode_image ref_libs (Base64.b64encode Samples.img2_png) = Ok Examples.img2.
Proof.
  apply (@decode_image_of_encoded_painting ref_libs Examples.img2 Samples.img2_png).
  - vm_compute. reflexivity.
  - vm_compute. reflexivity.
  - simpl. lia.
Defined.

Lemma paint_mask_ignores_bad_base_image_witness :
  @paint_mask ref_libs Examples.img2_b64 (Examples.b64_of Examples.corner2) "#FF0000"
    (F64.dec 5 10) (Some "  ") 0
  = @paint_mask ref_libs Examples.img2_b64 (Examples.b64_of Examples.corner2) "#FF0000"
      (F64.dec 5 10) None 0.
Proof.
  apply (@paint_mask_ignores_bad_base_image ref_libs). left. reflexivity.
Defined.

Lemma paint_mask_on_base_image_witness :
  @encode_painted ref_libs Examples.img2 = Ok (Base64.b64encode Samples.img2_png)
  ∧ @paint_mask ref_libs "not an image" (Examples.b64_of Examples.corner2) "#FF0000"
      (F64.dec 25 100) (Some (Base64.b64encode Samples.img2_png)) 0
    = '(painted, st') ← @paintOne ref_libs Examples.img2
                          (ColoredMask None (Some (Examples.b64_of Examples.corner2))
                             (Some "#FF0000") (Some (F64.dec 25 100))) 0;
      painted_b64 ← @encode_painted ref_libs painted;
      Ok (PaintMaskResult painted_b64 (ncols Examples.img2) (nrows Examples.img2), st').
Proof.
  apply (@paint_mask_on_base_image ref_libs "not an image" Examples.img2
           Samples.img2_png).
  - vm_compute. reflexivity.
  - vm_compute. reflexivity.
  - not_empty.
  - simpl. lia.
  - not_empty.
Defined.

Lemma paint_multiple_masks_singleton_witness :
  @paint_multiple_masks ref_libs Examples.img2_b64
    [ColoredMask (Some 7) (Some (Examples.b64_of Examples.corner2)) None None] 0
  = '(r, st') ← @paint_mask ref_libs Examples.img2_b64
                  (Examples.b64_of Examples.corner2)
                  (default default_color None) (default default_opacity None) None 0;
    Ok (PaintMultipleResult (pm_painted_image r) (pm_width r) (pm_height r) 1, st').
Proof.
  apply (@paint_multiple_masks_singleton ref_libs). not_empty.
Defined.

(** ** The local compositing fallback *)














Section LocalFacts.
Context `{Libs}.



End LocalFacts.



(** The local fallback on the 2 by 2 grey image, red on the upper-left
    pixel: untouched at opacity 0, pure red at opacity 1. *)
Example local_paint_one_at_the_extremes :
  @local_paint_one ref_libs Examples.img2 (Examples.b64_of Examples.corner2)
    "#FF0000" Examples.zero = Ok Examples.img2
  ∧ @local_paint_one ref_libs Examples.img2 (Examples.b64_of Examples.corner2)
      "#FF0000" (F64.of_Z 1)
    = Ok (NDArray 2 2 [RGB 255 0 0; Examples.gray 100; Examples.gray 100;
                       Examples.gray 100]).
Proof. split; vm_compute; reflexivity. Qed.

(** ** The reaper and the deletion of a session, continued *)

Lemma remove_session_files session_id st st' :
  remove_session session_id st = Ok st' → st'.2 ⊆ st.2.
Proof.
  destruct st as [sessions fs]. unfold remove_session.
  destruct (sessions !! session_id) as [s|]; simpl; [|discriminate].
  destruct (file_path s) as [p|]; simpl.
  - unfold os_remove. destruct (bool_decide (p ∈ fs)); simpl; [|discriminate].
    intros [= <-]. simpl. apply subseteq_difference_l. done.
  - by intros [= <-].
Qed.

Lemma remove_sessions_files ids : ∀ st, (remove_sessions ids st).2 ⊆ st.2.
Proof.
  induction ids as [|id ids IH]; intros st; simpl; [done|].
  destruct (remove_session id st) as [st'|] eqn:Hr; [|apply IH].
  etrans; [apply IH|]. by eapply remove_session_files.
Qed.

Lemma remove_sessions_keeps_file ids : ∀ st k path,
  k ∉ ids → path ∈ st.2 → file_of_no_other st.1 k path →
  path ∈ (remove_sessions ids st).2.
Proof.
  induction ids as [|id ids IH]; intros st k path Hk Hin Hno; simpl; [done|].
  apply not_elem_of_cons in Hk as [Hne Hk].
  destruct (remove_session id st) as [st'|] eqn:Hr; [|by eapply IH].
  destruct (remove_session_keeps_file _ _ _ k path Hr) as [Hin' Hno']; try done.
  by eapply IH.
Qed.

Lemma remove_sessions_removes_file ids : ∀ st k s path,
  k ∈ ids → st.1 !! k = Some s → file_path s = Some path →
  path ∈ st.2 → file_of_no_other st.1 k path →
  path ∉ (remove_sessions ids st).2.
Proof.
  induction ids as [|id ids IH]; intros st k s path Hin Hs Hpath Hp Hno;
    [by apply elem_of_nil in Hin|].
  simpl. destruct (decide (id = k)) as [->|Hne].
  - destruct st as [sessions fs]. unfold remove_session. simpl in *.
    rewrite Hs. simpl. rewrite Hpath. unfold os_remove.
    rewrite bool_decide_eq_true_2 by done. simpl.
    intros Hgone%remove_sessions_files. simpl in Hgone.
    apply elem_of_difference in Hgone as [_ Hgone]. by apply Hgone, elem_of_singleton.
  - apply elem_of_cons in Hin as [?|Hin]; [congruence|].
    destruct (remove_session id st) as [st'|] eqn:Hr; [|by eapply IH].
    destruct (remove_session_keeps_file _ _ _ k path Hr) as [Hin' Hno']; try done.
    apply (IH st' k s path Hin); try done.
    rewrite (remove_session_lookup _ _ _ _ Hr). by rewrite bool_decide_eq_false_2.
Qed.

(** X12. A pass of the reaper keeps a session that is not older than one
    hour, unchanged, and keeps its upload on disk when no other session
    points to that file; a pass creates or alters no session and creates no
    file. *)
Theorem cleanup_keeps_live_sessions current_time st k s :
  st.1 !! k = Some s → expired current_time s = false →
  let after := cleanup_old_sessions current_time st in
  after.1 !! k = Some s
  ∧ (∀ path, file_path s = Some path → path ∈ st.2 →
             file_of_no_other st.1 k path → path ∈ after.2)
  ∧ (∀ k' s', after.1 !! k' = Some s' → st.1 !! k' = Some s')
  ∧ after.2 ⊆ st.2.
Proof.
  intros Hs Hyoung after. split_and!.
  - by apply cleanup_keeps_young.
  - intros path Hpath Hin Hno. unfold after, cleanup_old_sessions.
    eapply remove_sessions_keeps_file; [|done..].
    intros [s' [Hs' Hexp]]%elem_of_sessions_to_remove. congruence.
  - intros k' s'. apply cleanup_only_deletes.
  - apply remove_sessions_files.
Qed.

(** X13. A pass of the reaper removes a session older than one hour, and its
    upload from the disk, when the session has no file or its file is on
    disk and is the file of no other session. *)
Theorem cleanup_reaps_expired_sessions current_time st k s :
  st.1 !! k = Some s → expired current_time s = true →
  match file_path s with
  | Some path => path ∈ st.2 ∧ file_of_no_other st.1 k path
  | None => True
  end →
  let after := cleanup_old_sessions current_time st in
  after.1 !! k = None ∧ ∀ path, file_path s = Some path → path ∉ after.2.
Proof.
  intros Hs Hexp Hfile after. split.
  - by eapply cleanup_reaps_expired.
  - intros path Hpath. rewrite Hpath in Hfile. destruct Hfile as [Hin Hno].
    unfold after, cleanup_old_sessions.
    eapply remove_sessions_removes_file; [|done..].
    apply elem_of_sessions_to_remove. eauto.
Qed.


(** In the example of three sessions, no session but [k] owns [path]. *)
Ltac no_other_file :=
  intros k' s' Hk' Hne; unfold Examples.aged_sessions in Hk';
  repeat (apply lookup_insert_Some in Hk' as [[<- <-]|[? Hk']]; [done || discriminate|]);
  first [ apply lookup_singleton_Some in Hk' as [<- <-]; done || discriminate
        | done ].

Lemma cleanup_keeps_live_sessions_witness :
  let after := cleanup_old_sessions Examples.two_hours
                 (Examples.aged_sessions, Examples.disk) in
  after.1 !! "c" = Some Examples.young
  ∧ (∀ path, file_path Examples.young = Some path → path ∈ Examples.disk →
             file_of_no_other Examples.aged_sessions "c" path → path ∈ after.2)
  ∧ (∀ k' s', after.1 !! k' = Some s' → Examples.aged_sessions !! k' = Some s')
  ∧ after.2 ⊆ Examples.disk.
Proof.
  apply (cleanup_keeps_live_sessions Examples.two_hours
           (Examples.aged_sessions, Examples.disk) "c" Examples.young).
  - vm_compute. reflexivity.
  - vm_compute. reflexivity.
Defined.

Lemma cleanup_reaps_expired_sessions_witness :
  let after := cleanup_old_sessions Examples.two_hours
                 (Examples.aged_sessions, Examples.disk) in
  after.1 !! "a" = None
  ∧ ∀ path, file_path Examples.old_with_file = Some path → path ∉ after.2.
Proof.
  apply (cleanup_reaps_expired_sessions Examples.two_hours
           (Examples.aged_sessions, Examples.disk) "a" Examples.old_with_file).
  - vm_compute. reflexivity.
  - vm_compute. reflexivity.
  - simpl. split.
    + apply (bool_decide_unpack _). vm_compute. exact I.
    + no_other_file.
Defined.

(** ** The painting endpoints, continued *)

(** X15. [POST /paint-mask] never paints with opacity 0: a zero opacity is
    replaced by 0.7, as a null one is. [POST /paint-multiple-masks] passes
    the zero opacity of an entry with mask data on as it is. *)
Theorem paint_mask_endpoint_zero_opacity app sessions session_id id m color z :
  is_zero z = true →
  paint_mask_endpoint app sessions
    (Build_PaintMaskRequest session_id id m color (Some z))
  = paint_mask_endpoint app sessions
      (Build_PaintMaskRequest session_id id m color None)
  ∧ ∀ stored entry_id inline c rest acc,
      inline ≠ EmptyString →
      prepare_colored_masks stored
        (ColoredMask entry_id (Some inline) c (Some z) :: rest) acc
      = prepare_colored_masks stored rest
          (acc ++ [ColoredMask None (Some inline) (Some (default default_color c))
                     (Some z)]).
Proof.
  intros Hz. split.
  - unfold paint_mask_endpoint. simpl. by rewrite Hz.
  - intros stored entry_id inline c rest acc Hne. simpl.
    by rewrite bool_decide_false.
Qed.

Lemma paint_mask_endpoint_zero_opacity_witness :
  paint_mask_endpoint Examples.unreachable Examples.sessions2
    (Build_PaintMaskRequest "s2" (Some 1) None "#FF0000" (Some Examples.zero))
  = paint_mask_endpoint Examples.unreachable Examples.sessions2
      (Build_PaintMaskRequest "s2" (Some 1) None "#FF0000" None)
  ∧ ∀ stored entry_id inline c rest acc,
      inline ≠ EmptyString →
      prepare_colored_masks stored
        (ColoredMask entry_id (Some inline) c (Some Examples.zero) :: rest) acc
      = prepare_colored_masks stored rest
          (acc ++ [ColoredMask None (Some inline) (Some (default default_color c))
                     (Some Examples.zero)]).
Proof.
  apply (paint_mask_endpoint_zero_opacity Examples.unreachable Examples.sessions2
           "s2" (Some 1) None "#FF0000" Examples.zero).
  reflexivity.
Defined.

(** X16. When a request names a stored mask and carries mask data too,
    [POST /paint-mask] paints the stored mask and
    [POST /paint-multiple-masks] the mask data. *)
Theorem mask_source_precedence app sessions session_id s id stored_m inline
    color opacity :
  sessions !! session_id = Some s →
  stored_masks s !! id = Some stored_m →
  inline ≠ EmptyString →
  paint_mask_endpoint app sessions
    (Build_PaintMaskRequest session_id (Some id) (Some inline) color opacity)
  = (match service_paint_mask app (image_data s) (sm_mask stored_m) color
             (float_or opacity (F64.dec 7 10)) with
     | Ok r => Ok r
     | Err _ => Err (HTTPException 500)
     end)
  ∧ ∀ c o rest acc,
      prepare_colored_masks (stored_masks s)
        (ColoredMask (Some id) (Some inline) c o :: rest) acc
      = prepare_colored_masks (stored_masks s) rest
          (acc ++ [ColoredMask None (Some inline) (Some (default default_color c))
                     (Some (default default_opacity o))]).
Proof.
  intros Hs Hid Hne. split.
  - unfold paint_mask_endpoint. simpl. rewrite Hs, Hid. done.
  - intros c o rest acc. simpl. by rewrite bool_decide_false.
Qed.

Lemma mask_source_precedence_witness :
  paint_mask_endpoint Examples.unreachable Examples.sessions2
    (Build_PaintMaskRequest "s2" (Some 1) (Some "inline") "#FF0000" None)
  = (match service_paint_mask Examples.unreachable (image_data Examples.session2)
             (sm_mask (Examples.stored Examples.corner2)) "#FF0000"
             (float_or None (F64.dec 7 10)) with
     | Ok r => Ok r
     | Err _ => Err (HTTPException 500)
     end)
  ∧ ∀ c o rest acc,
      prepare_colored_masks (stored_masks Examples.session2)
        (ColoredMask (Some 1) (Some "inline") c o :: rest) acc
      = prepare_colored_masks (stored_masks Examples.session2) rest
          (acc ++ [ColoredMask None (Some "inline") (Some (default default_color c))
                     (Some (default default_opacity o))]).
Proof.
  apply (mask_source_precedence Examples.unreachable Examples.sessions2 "s2"
           Examples.session2 1 (Examples.stored Examples.corner2) "inline").
  - vm_compute. reflexivity.
  - vm_compute. reflexivity.
  - discriminate.
Defined.

(** ** The mask table, continued *)


(** X18. [POST /generate-masks-advanced] and [POST /generate-masks] differ
    in what replaces a null or zero parameter only: on a request whose three
    parameters are present, none of them zero, they do the same. *)
Theorem generate_masks_advanced_agrees app sessions request p i st :
  gmr_points_per_side request = Some p → p ≠ 0 →
  gmr_pred_iou_thresh request = Some i → is_zero i = false →
  gmr_stability_score_thresh request = Some st → is_zero st = false →
  generate_masks_advanced app sessions request = generate_masks app sessions request.
Proof.
  intros Hp Hp0 Hi Hi0 Hst Hst0. unfold generate_masks_advanced, generate_masks.
  rewrite Hp, Hi, Hst. simpl. rewrite Hi0, Hst0.
  by destruct (Z.eqb_spec p 0).
Qed.

Lemma generate_masks_advanced_agrees_witness :
  generate_masks_advanced Examples.generator_app Examples.sessions2
    Samples.explicit_request
  = generate_masks Examples.generator_app Examples.sessions2 Samples.explicit_request.
Proof.
  apply (generate_masks_advanced_agrees Examples.generator_app Examples.sessions2
           Samples.explicit_request 64 (F64.dec 9 10) (F64.dec 9 10)).
  - reflexivity.
  - lia.
  - reflexivity.
  - vm_compute. reflexivity.
  - reflexivity.
  - vm_compute. reflexivity.
Defined.

(** With the three parameters null, the two endpoints ask the Modal
    application for different things. *)
Example generate_masks_defaults :
  let asked := ModalApp (λ _ _ _ _, Raises RemoteError) (λ _ _, Raises RemoteError)
                 (λ _ points_per_side pred_iou_thresh stability_score_thresh,
                    if (points_per_side =? 96)
                       && sf_eqb pred_iou_thresh (F64.dec 7 10)
                       && sf_eqb stability_score_thresh (F64.dec 8 10)
                    then Reply (GenerateResult [] 0 2 2)
                    else Raises RemoteError) in
  is_ok (generate_masks asked Examples.sessions2 Examples.gen_request).1 = true
  ∧ is_ok (generate_masks_advanced asked Examples.sessions2 Examples.gen_request).1
    = false.
Proof. split; vm_compute; reflexivity. Qed.

Section SessionInfo.
Context `{Libs}.

Lemma indexed_from_cons k info l :
  indexed_from k (info :: l) →
  mi_id info = Some (Z.of_nat k) ∧ is_Some (mi_mask info) ∧ indexed_from (S k) l.
Proof.
  intros Hl. destruct (Hl 0%nat info eq_refl) as [Hid Hm].
  rewrite Nat.add_0_r in Hid. split_and!; try done.
  intros j info' Hj. destruct (Hl (S j) info' Hj) as [Hid' Hm'].
  split; [|done]. rewrite Hid'. f_equal. lia.
Qed.

Lemma store_masks_size l : ∀ k table table',
  indexed_from k l →
  (∀ id, Z.of_nat k ≤ id → table !! id = None) →
  store_masks l table = Ok table' →
  size table' = (size table + length l)%nat.
Proof.
  induction l as [|info l IH]; intros k table table' Hl Hfree; simpl.
  - intros [= <-]. lia.
  - apply indexed_from_cons in Hl as (Hid & [m Hm] & Hl).
    rewrite Hid, Hm. simpl. intros Hst.
    erewrite (IH (S k)); [|exact Hl| |exact Hst].
    + rewrite map_size_insert_None by (apply Hfree; lia). simpl. lia.
    + intros id Hle. rewrite lookup_insert_ne by lia. apply Hfree. lia.
Qed.

(** X19. After [POST /generate-masks] has stored the list that
    [generate_all_masks] builds, [GET /session/{session_id}] reports as
    many stored masks as the list has entries, and the file name, size and
    creation time of the session as they were. *)
Theorem session_info_counts_generated_masks app sessions request s t
    masks_data total w h :
  sessions !! gmr_session_id request = Some s →
  created_at s = Some t →
  (∀ points_per_side pred_iou_thresh stability_score_thresh,
     post_generate_masks app (image_data s) points_per_side
       pred_iou_thresh stability_score_thresh
     = Reply (GenerateResult (process_masks masks_data []) total w h)) →
  get_session_info (generate_masks app sessions request).2 (gmr_session_id request)
  = Ok (SessionInfo (filename s) (s_width s) (s_height s) t
          (length (process_masks masks_data []))).
Proof.
  intros Hs Ht Hpost. unfold generate_masks. rewrite Hs.
  unfold service_generate_all_masks. rewrite Hpost. simpl.
  pose proof (process_masks_indexed masks_data []) as Hidx.
  assert (indexed_from 0 (@nil mask_info)) as Hnil by (by intros i info Hi).
  specialize (Hidx Hnil).
  destruct (store_masks_indexed _ 0 ∅ Hidx) as (table & Htable & _).
  rewrite Htable. simpl. unfold get_session_info.
  rewrite lookup_insert_eq. simpl. rewrite Ht. do 2 f_equal.
  rewrite (store_masks_size _ 0 ∅ table Hidx) by done.
  by rewrite map_size_empty.
Qed.
End SessionInfo.

Lemma session_info_counts_generated_masks_witness :
  get_session_info
    (generate_masks Examples.generator_app Examples.sessions2 Examples.gen_request).2
    (gmr_session_id Examples.gen_request)
  = Ok (SessionInfo (filename Examples.session2) (s_width Examples.session2)
          (s_height Examples.session2) 0
          (length (@process_masks ref_libs [Examples.raw Examples.full2;
                                            Examples.raw Examples.corner2] []))).
Proof.
  apply (@session_info_counts_generated_masks ref_libs Examples.generator_app
           Examples.sessions2 Examples.gen_request Examples.session2 0
           [Examples.raw Examples.full2; Examples.raw Examples.corner2] 2 2 2).
  - vm_compute. reflexivity.
  - reflexivity.
  - intros. reflexivity.
Defined.

(** ** [_calculate_bbox] *)

Lemma np_min_spec l :
  l ≠ [] → np_min l ∈ l ∧ ∀ v, v ∈ l → np_min l ≤ v.
Proof.
  unfold np_min. destruct l as [|a l]; [done|]. intros _. simpl.
  assert (Hgen : ∀ d l', foldr Z.min d l' ∈ d :: l'
                         ∧ ∀ v, v ∈ d :: l' → foldr Z.min d l' ≤ v).
  { intros d l'. induction l' as [|b l' [IH1 IH2]]; simpl.
    - split; [by left|]. intros v Hv. apply list_elem_of_singleton in Hv as ->. lia.
    - split.
      + destruct (Z.min_spec b (foldr Z.min d l')) as [[_ ->]|[_ ->]].
        * right. by left.
        * apply elem_of_cons in IH1 as [->|?]; [by left|]. right. by right.
      + intros v Hv. assert (v = b ∨ v ∈ d :: l') as [->|Hv'].
        { apply elem_of_cons in Hv as [->|Hv]; [right; by left|].
          apply elem_of_cons in Hv as [->|Hv]; [by left|right; by right]. }
        * lia.
        * specialize (IH2 v Hv'). lia. }
  destruct (Hgen a l) as [H1 H2]. split.
  - destruct (Z.min_spec a (foldr Z.min a l)) as [[_ ->]|[_ ->]]; [by left|done].
  - intros v Hv. specialize (H2 v Hv). lia.
Qed.

Lemma np_max_spec l :
  l ≠ [] → np_max l ∈ l ∧ ∀ v, v ∈ l → v ≤ np_max l.
Proof.
  unfold np_max. destruct l as [|a l]; [done|]. intros _. simpl.
  assert (Hgen : ∀ d l', foldr Z.max d l' ∈ d :: l'
                         ∧ ∀ v, v ∈ d :: l' → v ≤ foldr Z.max d l').
  { intros d l'. induction l' as [|b l' [IH1 IH2]]; simpl.
    - split; [by left|]. intros v Hv. apply list_elem_of_singleton in Hv as ->. lia.
    - split.
      + destruct (Z.max_spec b (foldr Z.max d l')) as [[_ ->]|[_ ->]].
        * apply elem_of_cons in IH1 as [->|?]; [by left|]. right. by right.
        * right. by left.
      + intros v Hv. assert (v = b ∨ v ∈ d :: l') as [->|Hv'].
        { apply elem_of_cons in Hv as [->|Hv]; [right; by left|].
          apply elem_of_cons in Hv as [->|Hv]; [by left|right; by right]. }
        * lia.
        * specialize (IH2 v Hv'). lia. }
  destruct (Hgen a l) as [H1 H2]. split.
  - destruct (Z.max_spec a (foldr Z.max a l)) as [[_ ->]|[_ ->]]; [done|by left].
  - intros v Hv. specialize (H2 v Hv). lia.
Qed.

(** The indices that [np.where] lists are those of the true cells. *)
Lemma elem_of_np_nonzero m y x :
  wf_array m →
  (y, x) ∈ np_nonzero m
  ↔ (y < nrows m)%nat ∧ (x < ncols m)%nat ∧ cell false m y x = true.
Proof.
  intros Hwf. unfold np_nonzero, cell. rewrite list_elem_of_omap. split.
  - intros [[i b] [Hin Heq]]. apply list_elem_of_lookup in Hin as [j Hj].
    rewrite list_lookup_imap in Hj.
    destruct (cells m !! j) as [b'|] eqn:Hb; simpl in Hj; [|discriminate].
    injection Hj as <- <-. destruct b'; [|discriminate]. injection Heq as <- <-.
    assert (j < nrows m * ncols m)%nat as Hlt.
    { rewrite <- Hwf. by eapply lookup_lt_Some. }
    assert (ncols m ≠ 0)%nat as Hc by lia.
    split_and!.
    + apply Nat.Div0.div_lt_upper_bound. lia.
    + by apply Nat.mod_upper_bound.
    + rewrite (Nat.mul_comm (j / ncols m)), <- Nat.div_mod_eq.
      by erewrite nth_lookup_Some.
  - intros (Hy & Hx & Hcell).
    assert (y * ncols m + x < length (cells m))%nat as Hlt by (rewrite Hwf; nia).
    apply lookup_lt_is_Some in Hlt as [b Hb].
    erewrite nth_lookup_Some in Hcell by done. subst b.
    exists ((y * ncols m + x)%nat, true). split.
    + apply list_elem_of_lookup. exists (y * ncols m + x)%nat.
      by rewrite list_lookup_imap, Hb.
    + simpl. f_equal. f_equal.
      * rewrite Nat.div_add_l by lia. rewrite Nat.div_small by done. lia.
      * rewrite Nat.add_comm, Nat.Div0.mod_add. by apply Nat.mod_small.
Qed.

(** [np.where] lists nothing exactly on a mask without a true cell. *)
Lemma np_nonzero_nil m : np_nonzero m = [] ↔ Forall (λ b, b = false) (cells m).
Proof.
  unfold np_nonzero. generalize (ncols m). intros w.
  assert (Hgen : ∀ (l : list bool) (f : nat → nat),
    omap (λ '(i, b), if b : bool then Some (i / w, i mod w)%nat else None)
         (imap (λ i b, (f i, b)) l) = [] ↔ Forall (λ b, b = false) l).
  { induction l as [|b l IH]; intros f; simpl; [done|].
    destruct b; simpl.
    - split; [discriminate|]. by intros [? _]%Forall_cons_1.
    - rewrite Forall_cons. specialize (IH (f ∘ S)). unfold compose in IH.
      rewrite IH. by split; [|intros [_ ?]]. }
  apply (Hgen (cells m) id).
Qed.

(** X20. [_calculate_bbox] gives no box exactly for a mask without a true
    cell; otherwise the box [x_min, y_min, x_max, y_max] lies in the array,
    encloses every true cell, and each of its four sides holds a true
    cell. *)
Theorem calculate_bbox_encloses m :
  wf_array m →
  match _calculate_bbox m with
  | None => Forall (λ b, b = false) (cells m)
  | Some bbox =>
      ∃ x0 y0 x1 y1 : nat,
        bbox = [F64.of_Z (Z.of_nat x0); F64.of_Z (Z.of_nat y0);
                F64.of_Z (Z.of_nat x1); F64.of_Z (Z.of_nat y1)]
        ∧ (∀ y x, (y < nrows m)%nat → (x < ncols m)%nat → cell false m y x = true →
                  (x0 ≤ x ≤ x1)%nat ∧ (y0 ≤ y ≤ y1)%nat)
        ∧ (x1 < ncols m)%nat ∧ (y1 < nrows m)%nat
        ∧ (∃ y, (y < nrows m)%nat ∧ cell false m y x0 = true)
        ∧ (∃ y, (y < nrows m)%nat ∧ cell false m y x1 = true)
        ∧ (∃ x, (x < ncols m)%nat ∧ cell false m y0 x = true)
        ∧ (∃ x, (x < ncols m)%nat ∧ cell false m y1 x = true)
  end.
Proof.
  intros Hwf. unfold _calculate_bbox. rewrite !length_fmap, andb_diag.
  destruct (decide (np_nonzero m = [])) as [Hnil|Hne].
  { rewrite Hnil. simpl. by apply np_nonzero_nil. }
  assert ((0 <? length (np_nonzero m))%nat = true) as ->
    by (by destruct (np_nonzero m)).
  set (ys := (λ yx, Z.of_nat yx.1) <$> np_nonzero m).
  set (xs := (λ yx, Z.of_nat yx.2) <$> np_nonzero m).
  assert (ys ≠ []) as Hys by (unfold ys; by destruct (np_nonzero m)).
  assert (xs ≠ []) as Hxs by (unfold xs; by destruct (np_nonzero m)).
  destruct (np_min_spec xs Hxs) as [Hx0 Hx0'], (np_max_spec xs Hxs) as [Hx1 Hx1'].
  destruct (np_min_spec ys Hys) as [Hy0 Hy0'], (np_max_spec ys Hys) as [Hy1 Hy1'].
  assert (Hxin : ∀ v, v ∈ xs → ∃ y x, v = Z.of_nat x ∧ (y, x) ∈ np_nonzero m).
  { intros v [[y x] [-> ?]]%list_elem_of_fmap. by exists y, x. }
  assert (Hyin : ∀ v, v ∈ ys → ∃ y x, v = Z.of_nat y ∧ (y, x) ∈ np_nonzero m).
  { intros v [[y x] [-> ?]]%list_elem_of_fmap. by exists y, x. }
  destruct (Hxin _ Hx0) as (ya & x0 & Ex0 & Hin0).
  destruct (Hxin _ Hx1) as (yb & x1 & Ex1 & Hin1).
  destruct (Hyin _ Hy0) as (y0 & xa & Ey0 & Hin2).
  destruct (Hyin _ Hy1) as (y1 & xb & Ey1 & Hin3).
  rewrite Ex0, Ex1, Ey0, Ey1 in *.
  apply (elem_of_np_nonzero _ _ _ Hwf) in Hin0 as (? & ? & ?).
  apply (elem_of_np_nonzero _ _ _ Hwf) in Hin1 as (? & ? & ?).
  apply (elem_of_np_nonzero _ _ _ Hwf) in Hin2 as (? & ? & ?).
  apply (elem_of_np_nonzero _ _ _ Hwf) in Hin3 as (? & ? & ?).
  exists x0, y0, x1, y1.
  split_and!; [done| |done|done|by exists ya|by exists yb|by exists xa|by exists xb].
  intros y x Hy Hx Hcell.
  assert ((y, x) ∈ np_nonzero m) as Hin by (by apply elem_of_np_nonzero).
  assert (Z.of_nat x ∈ xs) as Hxm.
  { apply list_elem_of_fmap. by exists (y, x). }
  assert (Z.of_nat y ∈ ys) as Hym.
  { apply list_elem_of_fmap. by exists (y, x). }
  specialize (Hx0' _ Hxm). specialize (Hx1' _ Hxm).
  specialize (Hy0' _ Hym). specialize (Hy1' _ Hym). lia.
Qed.

Lemma calculate_bbox_encloses_witness :
  match _calculate_bbox Samples.two_cells with
  | None => Forall (λ b, b = false) (cells Samples.two_cells)
  | Some bbox =>
      ∃ x0 y0 x1 y1 : nat,
        bbox = [F64.of_Z (Z.of_nat x0); F64.of_Z (Z.of_nat y0);
                F64.of_Z (Z.of_nat x1); F64.of_Z (Z.of_nat y1)]
        ∧ (∀ y x, (y < nrows Samples.two_cells)%nat → (x < ncols Samples.two_cells)%nat →
                  cell false Samples.two_cells y x = true →
                  (x0 ≤ x ≤ x1)%nat ∧ (y0 ≤ y ≤ y1)%nat)
        ∧ (x1 < ncols Samples.two_cells)%nat ∧ (y1 < nrows Samples.two_cells)%nat
        ∧ (∃ y, (y < nrows Samples.two_cells)%nat ∧ cell false Samples.two_cells y x0 = true)
        ∧ (∃ y, (y < nrows Samples.two_cells)%nat ∧ cell false Samples.two_cells y x1 = true)
        ∧ (∃ x, (x < ncols Samples.two_cells)%nat ∧ cell false Samples.two_cells y0 x = true)
        ∧ (∃ x, (x < ncols Samples.two_cells)%nat ∧ cell false Samples.two_cells y1 x = true)
  end.
Proof.
  apply (calculate_bbox_encloses Samples.two_cells). reflexivity.
Defined.

(** The box of the mask with true cells at (row 0, column 1) and
    (row 2, column 3) *)
Example calculate_bbox_two_cells :
  _calculate_bbox Samples.two_cells
  = Some [F64.of_Z 1; F64.of_Z 0; F64.of_Z 3; F64.of_Z 2].
Proof. vm_compute. reflexivity. Qed.

(** ** [combine_masks] *)

Section CombineFacts.
Context `{Libs}.

Lemma ensure_shape_2d a h w m :
  ensure_shape a h w = Ok (Bool2D m) → shape m = (h, w).
Proof.
  unfold ensure_shape. destruct (bool_decide _) eqn:Hs.
  - apply bool_decide_eq_true in Hs. intros [= ->]. done.
  - destruct a as [m0|h0 w0]; simpl.
    + unfold resize_mask. destruct (_ || _); simpl; [discriminate|].
      by intros [= <-].
    + by destruct (_ || _).
Qed.

Lemma normalized_mask_shape h w b m :
  normalized_mask h w b = Ok (Bool2D m) → shape m = (h, w).
Proof.
  unfold normalized_mask. destruct (_decode_mask b) as [a|]; simpl; [|discriminate].
  apply ensure_shape_2d.
Qed.

(** The state of the loop on 2-D masks: the union so far *)
Lemma combine_loop_union h w masks : ∀ c,
  shape c = (h, w) →
  Forall (λ b, ∃ m, normalized_mask h w b = Ok (Bool2D m)) masks →
  ∃ c', combine_loop h w masks (Some (Bool2D c)) = Ok (Some (Bool2D c'))
    ∧ shape c' = (h, w)
    ∧ (∀ i, is_Some (cells c' !! i)
            ↔ is_Some (cells c !! i)
              ∧ ∀ b m, b ∈ masks → normalized_mask h w b = Ok (Bool2D m) →
                       is_Some (cells m !! i))
    ∧ (∀ i, cells c' !! i = Some true
            ↔ is_Some (cells c' !! i)
              ∧ (cells c !! i = Some true
                 ∨ ∃ b m, b ∈ masks ∧ normalized_mask h w b = Ok (Bool2D m)
                          ∧ cells m !! i = Some true)).
Proof.
  induction masks as [|b masks IH]; intros c Hc Hall; simpl.
  - exists c. split_and!; try done.
    + intros i. split; [intros ?; split; [done|]|by intros [? _]].
      intros b m Hin. by apply elem_of_nil in Hin.
    + intros i. split.
      * intros Hi. split; [by rewrite Hi|by left].
      * intros [_ [?|(b & m & Hin & _)]]; [done|by apply elem_of_nil in Hin].
  - apply Forall_cons_1 in Hall as [[m Hm] Hall].
    pose proof (normalized_mask_shape _ _ _ _ Hm) as Hms.
    unfold normalized_mask in Hm.
    destruct (_decode_mask b) as [a|] eqn:Ha; simpl in *; [|discriminate].
    rewrite Hm. simpl. rewrite bool_decide_true by congruence. simpl.
    set (c1 := NDArray (nrows c) (ncols c) (zip_with orb (cells c) (cells m))).
    destruct (IH c1) as (c' & Hloop & Hshape & Hsome & Htrue); [done|done|].
    exists c'. split_and!; try done.
    + intros i. rewrite Hsome. unfold c1. simpl. rewrite lookup_zip_with.
      split.
      * intros [Hi Hrest].
        destruct (cells c !! i) as [x|]; simpl in Hi; [|by destruct Hi].
        destruct (cells m !! i) as [y|] eqn:Hy; simpl in Hi; [|by destruct Hi].
        split; [done|]. intros b' m' [->|Hin]%elem_of_cons Hn.
        -- unfold normalized_mask in Hn. rewrite Ha in Hn. simpl in Hn.
           rewrite Hm in Hn. injection Hn as <-. by rewrite Hy.
        -- by eapply Hrest.
      * intros [[x Hx] Hrest]. split.
        -- destruct (Hrest b m) as [y Hy]; [by left| |].
           { unfold normalized_mask. rewrite Ha. done. }
           rewrite Hx, Hy. done.
        -- intros b' m' Hin. apply Hrest. by right.
    + intros i. rewrite Htrue. unfold c1. simpl. rewrite lookup_zip_with.
      split.
      * intros [Hi [Hc1|(b' & m' & Hin & Hn & Ht)]]; (split; [done|]).
        -- destruct (cells c !! i) as [x|]; simpl in Hc1; [|discriminate].
           destruct (cells m !! i) as [y|] eqn:Hy; simpl in Hc1; [|discriminate].
           injection Hc1 as Hor. apply orb_prop in Hor as [->| ->]; [by left|].
           right. exists b, m. split; [by left|]. split; [|done].
           unfold normalized_mask. by rewrite Ha.
        -- right. exists b', m'. split; [by right|done].
      * intros [Hi Hor]. split; [done|].
        apply Hsome in Hi as [Hi _]. unfold c1 in Hi. simpl in Hi.
        rewrite lookup_zip_with in Hi.
        destruct (cells c !! i) as [x|]; simpl in Hi; [|by destruct Hi].
        destruct (cells m !! i) as [y|] eqn:Hy; simpl in Hi; [|by destruct Hi].
        simpl. destruct Hor as [[= ->]|(b' & m' & [->|Hin]%elem_of_cons & Hn & Ht)].
        -- by left.
        -- unfold normalized_mask in Hn. rewrite Ha in Hn. simpl in Hn.
           rewrite Hm in Hn. injection Hn as <-. rewrite Hy in Ht.
           injection Ht as ->. left. by rewrite orb_true_r.
        -- right. by exists b', m'.
Qed.

(** The loop from its start on a non-empty list of 2-D masks *)
Lemma combine_loop_is_union h w masks :
  masks ≠ [] →
  Forall (λ b, ∃ m, normalized_mask h w b = Ok (Bool2D m)) masks →
  ∃ combined,
    combine_loop h w masks None = Ok (Some (Bool2D combined))
    ∧ shape combined = (h, w)
    ∧ (∀ i, is_Some (cells combined !! i)
            ↔ ∀ b m, b ∈ masks → normalized_mask h w b = Ok (Bool2D m) →
                     is_Some (cells m !! i))
    ∧ (∀ i, cells combined !! i = Some true
            ↔ is_Some (cells combined !! i)
              ∧ ∃ b m, b ∈ masks ∧ normalized_mask h w b = Ok (Bool2D m)
                       ∧ cells m !! i = Some true).
Proof.
  intros Hne Hall. destruct masks as [|b masks]; [done|].
  apply Forall_cons_1 in Hall as [[m Hm] Hall].
  pose proof (normalized_mask_shape _ _ _ _ Hm) as Hms.
  pose proof Hm as Hm'. unfold normalized_mask in Hm'.
  simpl combine_loop.
  destruct (_decode_mask b) as [a|] eqn:Ha; simpl in Hm'; [|discriminate].
  simpl. rewrite Hm'. simpl.
  destruct (combine_loop_union _ _ masks m Hms Hall)
    as (c' & Hloop & Hshape & Hsome & Htrue).
  rewrite Hloop. exists c'. split_and!; try done.
  - intros i. rewrite Hsome. split.
    + intros [Hi Hrest] b' m' [->|Hin]%elem_of_cons Hn.
      * rewrite Hm in Hn. by injection Hn as <-.
      * by eapply Hrest.
    + intros Hrest. split; [by apply (Hrest b m); [left|]|].
      intros b' m' Hin. apply Hrest. by right.
  - intros i. rewrite Htrue. split.
    + intros [Hi [Ht|(b' & m' & Hin & Hn & Ht)]]; (split; [done|]).
      * exists b, m. split; [by left|done].
      * exists b', m'. split; [by right|done].
    + intros [Hi (b' & m' & [->|Hin]%elem_of_cons & Hn & Ht)]; (split; [done|]).
      * rewrite Hm in Hn. injection Hn as <-. by left.
      * right. by exists b', m'.
Qed.

(** A list of booleans is determined by where it has cells and where they
    are true. *)
Lemma bool_list_eq (cs cs' : list bool) :
  (∀ i, is_Some (cs !! i) ↔ is_Some (cs' !! i)) →
  (∀ i, cs !! i = Some true ↔ cs' !! i = Some true) →
  cs = cs'.
Proof.
  intros Hiff Hiff'. apply list_eq. intros i.
  specialize (Hiff i). specialize (Hiff' i).
  destruct (cs !! i) as [x|], (cs' !! i) as [y|]; [|exfalso..|done].
  - f_equal. destruct x, y; try done.
    + destruct Hiff' as [Ht _]. by specialize (Ht eq_refl).
    + destruct Hiff' as [_ Ht]. by specialize (Ht eq_refl).
  - destruct Hiff as [Hi _]. destruct Hi as [? ?]; [by eexists|discriminate].
  - destruct Hiff as [_ Hi]. destruct Hi as [? ?]; [by eexists|discriminate].
Qed.

(** X21. On a decodable image and a non-empty list of masks that decode to
    2-D arrays, [combine_masks] encodes their union: an array of the shape
    of the image, which has a cell where all the masks have one, and whose
    cell is true exactly when the cell of some mask is. It reports the width
    and height of the image and the number of masks. *)
Theorem combine_masks_is_union image_data img masks :
  _decode_image image_data = Ok img →
  masks ≠ [] →
  Forall (λ b, ∃ m, normalized_mask (nrows img) (ncols img) b = Ok (Bool2D m)) masks →
  ∃ combined,
    combine_masks image_data masks
    = (e ← _encode_mask combined;
       Ok (CombineResult e (ncols img) (nrows img) (length masks)))
    ∧ shape combined = shape img
    ∧ (∀ i, is_Some (cells combined !! i)
            ↔ ∀ b m, b ∈ masks →
                     normalized_mask (nrows img) (ncols img) b = Ok (Bool2D m) →
                     is_Some (cells m !! i))
    ∧ (∀ i, cells combined !! i = Some true
            ↔ is_Some (cells combined !! i)
              ∧ ∃ b m, b ∈ masks
                       ∧ normalized_mask (nrows img) (ncols img) b = Ok (Bool2D m)
                       ∧ cells m !! i = Some true).
Proof.
  intros Himg Hne Hall.
  destruct (combine_loop_is_union _ _ masks Hne Hall)
    as (combined & Hloop & Hshape & Hsome & Htrue).
  exists combined. split_and!; try done.
  unfold combine_masks. rewrite Himg. simpl.
  destruct masks as [|b masks]; [done|].
  by rewrite Hloop.
Qed.

(** X22. The result of [combine_masks] does not depend on the order of the
    masks, when they decode to 2-D arrays. *)
Theorem combine_masks_permutation image_data masks masks' :
  masks ≡ₚ masks' →
  (∀ img, _decode_image image_data = Ok img →
     Forall (λ b, ∃ m, normalized_mask (nrows img) (ncols img) b = Ok (Bool2D m)) masks) →
  combine_masks image_data masks = combine_masks image_data masks'.
Proof.
  intros Hperm Hall. unfold combine_masks.
  destruct (_decode_image image_data) as [img|e] eqn:Himg; [|done].
  specialize (Hall img eq_refl). simpl.
  destruct (decide (masks = [])) as [->|Hne].
  { by apply Permutation_nil_l in Hperm as <-. }
  assert (masks' ≠ []) as Hne'.
  { intros ->. by apply Permutation_nil_r in Hperm. }
  assert (Hall' : Forall (λ b, ∃ m, normalized_mask (nrows img) (ncols img) b
                                    = Ok (Bool2D m)) masks').
  { by apply (Permutation_Forall Hperm). }
  destruct (combine_loop_is_union _ _ masks Hne Hall)
    as (c & Hloop & Hs & Hsome & Htrue).
  destruct (combine_loop_is_union _ _ masks' Hne' Hall')
    as (c' & Hloop' & Hs' & Hsome' & Htrue').
  destruct masks as [|b0 masks0] eqn:Em; [done|].
  destruct masks' as [|b0' masks0'] eqn:Em'; [done|].
  rewrite Hloop, Hloop'. rewrite <- Em, <- Em' in *.
  assert (c = c') as ->; [|by rewrite (Permutation_length Hperm)].
  destruct c as [h w cs], c' as [h' w' cs']. unfold shape in *. simpl in *.
  injection Hs as -> ->. injection Hs' as -> ->. f_equal.
  assert (Hin : ∀ b, b ∈ masks ↔ b ∈ masks') by (intros b; by rewrite Hperm).
  apply bool_list_eq.
  - intros i. rewrite Hsome, Hsome'. by setoid_rewrite Hin.
  - intros i. rewrite Htrue, Htrue'.
    assert (is_Some (cs !! i) ↔ is_Some (cs' !! i)) as ->; [|by setoid_rewrite Hin].
    rewrite Hsome, Hsome'. by setoid_rewrite Hin.
Qed.

(** Without masks, or on an image that cannot be decoded, [combine_masks]
    raises. *)
Lemma combine_masks_empty image_data : combine_masks image_data [] = Err ValueError.
Proof.
  unfold combine_masks.
  destruct (_decode_image image_data) as [img|e] eqn:Himg; simpl; [done|].
  by apply decode_image_error in Himg as ->.
Qed.
End CombineFacts.

Ltac decodable :=
  repeat (apply List.Forall_cons; [eexists; vm_compute; reflexivity|]);
  apply List.Forall_nil.

Lemma combine_masks_is_union_witness :
  ∃ combined,
    @combine_masks ref_libs Examples.img2_b64
      [Examples.b64_of Examples.corner2; Examples.b64_of Samples.last2]
    = (e ← @_encode_mask ref_libs combined;
       Ok (CombineResult e (ncols Examples.img2) (nrows Examples.img2) 2))
    ∧ shape combined = shape Examples.img2
    ∧ (∀ i, is_Some (cells combined !! i)
            ↔ ∀ b m, b ∈ [Examples.b64_of Examples.corner2; Examples.b64_of Samples.last2] →
                     @normalized_mask ref_libs (nrows Examples.img2) (ncols Examples.img2) b
                     = Ok (Bool2D m) →
                     is_Some (cells m !! i))
    ∧ (∀ i, cells combined !! i = Some true
            ↔ is_Some (cells combined !! i)
              ∧ ∃ b m, b ∈ [Examples.b64_of Examples.corner2; Examples.b64_of Samples.last2]
                       ∧ @normalized_mask ref_libs (nrows Examples.img2)
                           (ncols Examples.img2) b = Ok (Bool2D m)
                       ∧ cells m !! i = Some true).
Proof.
  apply (@combine_masks_is_union ref_libs Examples.img2_b64 Examples.img2
           [Examples.b64_of Examples.corner2; Examples.b64_of Samples.last2]).
  - vm_compute. reflexivity.
  - discriminate.
  - decodable.
Defined.

Lemma combine_masks_permutation_witness :
  @combine_masks ref_libs Examples.img2_b64
    [Examples.b64_of Examples.corner2; Examples.b64_of Samples.last2]
  = @combine_masks ref_libs Examples.img2_b64
      [Examples.b64_of Samples.last2; Examples.b64_of Examples.corner2].
Proof.
  apply (@combine_masks_permutation ref_libs).
  - apply perm_swap.
  - intros img Himg. vm_compute in Himg. injection Himg as <-. decodable.
Defined.

(** The union of the upper-left and the lower-right cell *)
Example combine_masks_two_corners :
  @combine_masks ref_libs Examples.img2_b64
    [Examples.b64_of Examples.corner2; Examples.b64_of Samples.last2]
  = Ok (CombineResult
          (Examples.b64_of (NDArray 2 2 [true; false; false; true])) 2 2 2).
Proof. vm_compute. reflexivity. Qed.

(** ** The mask codec of [backend/main.py] *)

Section MainCodecFacts.
Context `{Libs}.

Lemma luma_gray v : 0 ≤ v ≤ 255 → luma [v; v; v; v] = v.
Proof.
  intros Hv. unfold luma. rewrite Z.shiftr_div_pow2 by lia.
  change (2 ^ 16) with 65536.
  replace (v * 19595 + v * 38470 + v * 7471 + 32768) with (32768 + v * 65536) by lia.
  rewrite Z.div_add by lia. done.
Qed.

(** X23. What [mask_to_base64] writes, [base64_to_mask] reads back as the
    mask of the positive cells, and so does [_decode_mask] of the Modal
    application, when the PNG codec reads back the image it wrote. *)
Theorem mask_base64_round_trip (a : ndarray Z) data :
  png_save (gray_of_mask_array a) = Ok data →
  image_open data = Ok (gray_of_mask_array a) →
  mask_to_base64 a = Ok (Base64.b64encode data)
  ∧ base64_to_mask (Base64.b64encode data) = Ok (amap (λ v, bool_decide (0 < v)) a)
  ∧ _decode_mask (Base64.b64encode data)
    = Ok (Bool2D (amap (λ v, bool_decide (0 < v)) a)).
Proof.
  intros Hsave Hopen. split_and!.
  - unfold mask_to_base64. by rewrite Hsave.
  - unfold base64_to_mask. rewrite Base64Facts.b64decode_b64encode. simpl.
    rewrite Hopen. simpl. unfold amap. do 2 f_equal.
    rewrite <- list_fmap_compose. apply list_fmap_ext. intros _ v _. simpl.
    by destruct (bool_decide (0 < v)).
  - unfold _decode_mask. rewrite Base64Facts.b64decode_b64encode. simpl.
    rewrite Hopen. simpl. unfold mask_array_of, amap. simpl. do 3 f_equal.
    rewrite <- list_fmap_compose. apply list_fmap_ext. intros _ v _. simpl.
    by destruct (bool_decide (0 < v)).
Qed.

(** X24. [base64_to_mask] reads the RGBA encoding that [_encode_mask] of
    the Modal application writes: it gives back the mask, when the PNG
    codec reads back the image it wrote. *)
Theorem base64_to_mask_reads_encode_mask (M : mask) data :
  png_save (rgba_of_mask M) = Ok data →
  image_open data = Ok (rgba_of_mask M) →
  _encode_mask M = Ok (Base64.b64encode data)
  ∧ base64_to_mask (Base64.b64encode data) = Ok M.
Proof.
  intros Hsave Hopen. split.
  - unfold _encode_mask. by rewrite Hsave.
  - unfold base64_to_mask. rewrite Base64Facts.b64decode_b64encode. simpl.
    rewrite Hopen. simpl. destruct M as [h w cs]. simpl. f_equal.
    rewrite <- list_fmap_compose. rewrite <- (list_fmap_id cs) at 2. f_equal.
    apply list_fmap_ext. intros _ b _. unfold compose.
    destruct b.
    + change (bit true * 255) with 255. by rewrite luma_gray by lia.
    + change (bit false * 255) with 0. by rewrite luma_gray by lia.
Qed.
End MainCodecFacts.

Lemma mask_base64_round_trip_witness :
  @mask_to_base64 ref_libs Samples.levels
  = Ok (Base64.b64encode (Ref.encode (gray_of_mask_array Samples.levels)))
  ∧ @base64_to_mask ref_libs
      (Base64.b64encode (Ref.encode (gray_of_mask_array Samples.levels)))
    = Ok (amap (λ v, bool_decide (0 < v)) Samples.levels)
  ∧ @_decode_mask ref_libs
      (Base64.b64encode (Ref.encode (gray_of_mask_array Samples.levels)))
    = Ok (Bool2D (amap (λ v, bool_decide (0 < v)) Samples.levels)).
Proof.
  apply (@mask_base64_round_trip ref_libs Samples.levels
           (Ref.encode (gray_of_mask_array Samples.levels))).
  - vm_compute. reflexivity.
  - vm_compute. reflexivity.
Defined.

Lemma base64_to_mask_reads_encode_mask_witness :
  @_encode_mask ref_libs Samples.row2
  = Ok (Base64.b64encode (Ref.encode (rgba_of_mask Samples.row2)))
  ∧ @base64_to_mask ref_libs
      (Base64.b64encode (Ref.encode (rgba_of_mask Samples.row2)))
    = Ok Samples.row2.
Proof.
  apply (@base64_to_mask_reads_encode_mask ref_libs Samples.row2
           (Ref.encode (rgba_of_mask Samples.row2))).
  - vm_compute. reflexivity.
  - vm_compute. reflexivity.
Defined.

(** ** [POST /combine-masks] *)

Lemma masks_to_combine_mapM stored mask_ids : ∀ acc,
  masks_to_combine stored mask_ids acc
  = match mapM (λ id, stored !! id) mask_ids with
    | Some ms => Ok (acc ++ (sm_mask <$> ms))
    | None => Err (HTTPException 404)
    end.
Proof.
  induction mask_ids as [|id ids IH]; intros acc; simpl.
  - by rewrite app_nil_r.
  - destruct (stored !! id) as [m|]; simpl; [|done].
    rewrite IH. destruct (mapM _ ids) as [ms|]; simpl; [|done].
    by rewrite <- app_assoc.
Qed.

(** X25. On a known session and a non-empty list of ids,
    [POST /combine-masks] answers 404 when one of the ids is not stored,
    and nothing is sent; otherwise it sends the image of the session with
    the stored masks, in the order of the ids and with their repetitions,
    and answers 500 when that fails. *)
Theorem combine_masks_endpoint_resolves post sessions request s :
  sessions !! cmr_session_id request = Some s →
  cmr_mask_ids request ≠ [] →
  combine_masks_endpoint post sessions request
  = match mapM (λ id, stored_masks s !! id) (cmr_mask_ids request) with
    | None => Err (HTTPException 404)
    | Some ms =>
        match checked (post (image_data s) (sm_mask <$> ms)) with
        | Ok r => Ok r
        | Err _ => Err (HTTPException 500)
        end
    end.
Proof.
  intros Hs Hne. unfold combine_masks_endpoint. rewrite Hs.
  destruct (cmr_mask_ids request) as [|id ids] eqn:Hids; [done|].
  rewrite masks_to_combine_mapM.
  destruct (mapM _ (id :: ids)) as [ms|]; simpl; done.
Qed.

Lemma combine_masks_endpoint_resolves_witness :
  combine_masks_endpoint
    (λ image_data masks, Reply (CombineResult "combined" 2 2 (length masks)))
    Examples.sessions2 (Build_CombineMasksRequest "s2" [1; 0; 1])
  = match mapM (λ id, stored_masks Examples.session2 !! id) [1; 0; 1] with
    | None => Err (HTTPException 404)
    | Some ms =>
        match checked (Reply (CombineResult "combined" 2 2 (length (sm_mask <$> ms)))) with
        | Ok r => Ok r
        | Err _ => Err (HTTPException 500)
        end
    end.
Proof.
  apply (combine_masks_endpoint_resolves
           (λ image_data masks, Reply (CombineResult "combined" 2 2 (length masks)))
           Examples.sessions2 (Build_CombineMasksRequest "s2" [1; 0; 1])
           Examples.session2).
  - vm_compute. reflexivity.
  - discriminate.
Defined.

(** ** The two applications together *)

Section Together.
Context `{Libs}.

(** X26. Against the Modal application as [modal_sam2.py] defines it, whose
    endpoints of the CPU operations always answer 400: [POST /paint-mask]
    and [POST /combine-masks] of [main.py] never succeed, and
    [SAM2Service.paint_multiple_masks] is the local fallback. *)
Theorem cpu_endpoints_against_modal_api app sessions :
  (∀ image_data mask_b64 color opacity,
     post_paint_mask app image_data mask_b64 color opacity
     = over_http (ModalApi.paint_mask_endpoint image_data mask_b64 color opacity)) →
  (∀ image_data colored_masks,
     post_paint_multiple_masks app image_data colored_masks
     = over_http (ModalApi.paint_multiple_masks_endpoint image_data colored_masks)) →
  (∀ request, ∃ status,
     paint_mask_endpoint app sessions request = Err (HTTPException status)
     ∧ (status = 400 ∨ status = 404 ∨ status = 500))
  ∧ (∀ request, ∃ status,
       combine_masks_endpoint
         (λ image_data masks,
            over_http (ModalApi.combine_masks_endpoint image_data masks))
         sessions request
       = Err (HTTPException status)
       ∧ (status = 400 ∨ status = 404 ∨ status = 500))
  ∧ (∀ image_data colored_masks,
       service_paint_multiple_masks app image_data colored_masks
       = paint_multiple_masks_local image_data colored_masks).
Proof.
  intros Hpm Hpmm. split_and!.
  - intros request. unfold paint_mask_endpoint, service_paint_mask.
    destruct (sessions !! pmr_session_id request) as [s|]; [|exists 404; auto].
    destruct (pmr_mask_id request) as [id|].
    + destruct (stored_masks s !! id) as [m|]; simpl; [|exists 404; auto].
      rewrite Hpm. simpl. exists 500. auto.
    + destruct (truthy (pmr_mask request)); simpl; [|exists 400; auto].
      rewrite Hpm. simpl. exists 500. auto.
  - intros request. unfold combine_masks_endpoint.
    destruct (sessions !! cmr_session_id request) as [s|]; [|exists 404; auto].
    destruct (cmr_mask_ids request) as [|id ids]; [exists 400; auto|].
    destruct (masks_to_combine _ _ _) as [masks|e] eqn:Hm; simpl.
    + exists 500. auto.
    + rewrite masks_to_combine_mapM in Hm.
      destruct (mapM _ _); [discriminate|]. injection Hm as <-. exists 404. auto.
  - intros image_data colored_masks. unfold service_paint_multiple_masks.
    by rewrite Hpmm.
Qed.
End Together.

Lemma cpu_endpoints_against_modal_api_witness :
  (∀ request, ∃ status,
     paint_mask_endpoint Samples.cpu_app Examples.sessions2 request
     = Err (HTTPException status)
     ∧ (status = 400 ∨ status = 404 ∨ status = 500))
  ∧ (∀ request, ∃ status,
       combine_masks_endpoint
         (λ image_data masks,
            over_http (ModalApi.combine_masks_endpoint image_data masks))
         Examples.sessions2 request
       = Err (HTTPException status)
       ∧ (status = 400 ∨ status = 404 ∨ status = 500))
  ∧ (∀ image_data colored_masks,
       @service_paint_multiple_masks ref_libs Samples.cpu_app image_data colored_masks
       = @paint_multiple_masks_local ref_libs image_data colored_masks).
Proof.
  apply (@cpu_endpoints_against_modal_api ref_libs Samples.cpu_app Examples.sessions2).
  - intros. reflexivity.
  - intros. reflexivity.
Defined.

(** ** File names *)

Lemma rfind_from_notin c s : ∀ i acc, c ∉ s → rfind_from c s i acc = acc.
Proof.
  induction s as [|a s IH]; intros i acc Hc; simpl; [done|].
  apply not_elem_of_cons in Hc as [Hne Hc].
  rewrite bool_decide_false by done. by apply IH.
Qed.

Lemma rfind_from_app c l r : ∀ i acc,
  rfind_from c (l ++ r) i acc
  = rfind_from c r (i + Z.of_nat (length l)) (rfind_from c l i acc).
Proof.
  induction l as [|a l IH]; intros i acc; simpl.
  - by rewrite Z.add_0_r.
  - rewrite IH. f_equal. lia.
Qed.

Lemma rfind_from_bounds c s : ∀ i acc,
  rfind_from c s i acc = acc
  ∨ i ≤ rfind_from c s i acc < i + Z.of_nat (length s).
Proof.
  induction s as [|a s IH]; intros i acc; simpl; [by left|].
  destruct (IH (i + 1) (if bool_decide (a = c) then i else acc)) as [->|?].
  - case_bool_decide; [right; lia|by left].
  - right. lia.
Qed.

Lemma rfind_app_last c l r :
  c ∉ r → rfind c (l ++ c :: r) = Z.of_nat (length l).
Proof.
  intros Hc. unfold rfind. rewrite rfind_from_app. simpl.
  rewrite bool_decide_true by done. by rewrite rfind_from_notin.
Qed.

Lemma rfind_app_notin c l r : c ∉ r → rfind c (l ++ r) = rfind c l.
Proof. intros Hc. unfold rfind. rewrite rfind_from_app. by apply rfind_from_notin. Qed.

Lemma rfind_bounds c s : -1 ≤ rfind c s < Z.of_nat (length s).
Proof.
  unfold rfind. destruct (rfind_from_bounds c s 0 (-1)) as [->|?]; lia.
Qed.

Lemma rfind_last_ne c l a : a ≠ c → rfind c (l ++ [a]) < Z.of_nat (length l).
Proof.
  intros Hne. rewrite rfind_app_notin.
  - apply rfind_bounds.
  - by intros Hs; apply list_elem_of_singleton in Hs as ->.
Qed.

Lemma splitext_app p : (splitext p).1 ++ (splitext p).2 = p.
Proof.
  unfold splitext. destruct (_ <? _); [|by rewrite app_nil_r].
  destruct (forallb _ _); simpl; [by rewrite app_nil_r|apply take_drop].
Qed.

Lemma splitext_ext p : ∃ n, (splitext p).2 = drop n p.
Proof.
  unfold splitext. destruct (_ <? _).
  - destruct (forallb _ _); simpl; [|by eexists].
    exists (length p). by rewrite drop_all.
  - exists (length p). by rewrite drop_all.
Qed.

Lemma ascii_lower_plain c :
  c ≠ "."%char → c ≠ "/"%char → ascii_lower c ≠ "."%char ∧ ascii_lower c ≠ "/"%char.
Proof.
  intros H1 H2.
  assert (Hall : ∀ c, ((bool_decide (c = "."%char) || bool_decide (c = "/"%char))
                       || negb (bool_decide (ascii_lower c = "."%char)
                                || bool_decide (ascii_lower c = "/"%char))) = true).
  { intros [[] [] [] [] [] [] [] []]; vm_compute; reflexivity. }
  specialize (Hall c). rewrite !bool_decide_false in Hall by done. simpl in Hall.
  apply negb_true_iff, orb_false_elim in Hall as [H3 H4].
  by apply bool_decide_eq_false in H3, H4.
Qed.

Lemma list_ascii_of_string_inj s1 s2 :
  String.list_ascii_of_string s1 = String.list_ascii_of_string s2 → s1 = s2.
Proof.
  intros Heq. rewrite <- (String.string_of_list_ascii_of_string s1),
    <- (String.string_of_list_ascii_of_string s2). by rewrite Heq.
Qed.

(** An allowed extension starts with its only dot and has no slash. *)
Lemma allowed_extension_shape e :
  e ∈ ALLOWED_EXTENSIONS →
  ∃ rest, String.list_ascii_of_string e = "."%char :: rest
          ∧ ("."%char ∉ rest) ∧ ("/"%char ∉ rest).
Proof.
  unfold ALLOWED_EXTENSIONS. intros Hin.
  repeat (apply elem_of_cons in Hin as [->|Hin];
          [eexists; split; [reflexivity|];
           split; intros Hc;
           repeat (apply elem_of_cons in Hc as [Hc|Hc]; [discriminate|]);
           by apply elem_of_nil in Hc|]).
  by apply elem_of_nil in Hin.
Qed.

(** X27. [is_allowed_file] accepts a name only if it ends in an allowed
    extension, whatever the case of its letters; it accepts every name
    whose allowed extension follows a character other than a dot and a
    slash; it rejects an allowed extension standing alone or right after a
    slash. *)
Theorem is_allowed_file_extension :
  (∀ filename, is_allowed_file filename = true →
     ∃ stem ext, String.list_ascii_of_string filename = stem ++ ext
                 ∧ String.string_of_list_ascii (str_lower ext) ∈ ALLOWED_EXTENSIONS)
  ∧ (∀ stem c ext,
       c ≠ "."%char → c ≠ "/"%char →
       String.string_of_list_ascii (str_lower ext) ∈ ALLOWED_EXTENSIONS →
       is_allowed_file (String.string_of_list_ascii (stem ++ c :: ext)) = true)
  ∧ (∀ dir ext,
       (dir = [] ∨ ∃ d, dir = d ++ ["/"%char]) →
       String.string_of_list_ascii (str_lower ext) ∈ ALLOWED_EXTENSIONS →
       is_allowed_file (String.string_of_list_ascii (dir ++ ext)) = false).
Proof.
  split_and!.
  - intros filename Hok. unfold is_allowed_file, get_file_extension in Hok.
    apply bool_decide_eq_true in Hok.
    set (f := String.list_ascii_of_string filename) in *.
    destruct (splitext_ext (str_lower f)) as [n Hn]. rewrite Hn in Hok.
    exists (take n f), (drop n f). split; [by rewrite take_drop|].
    unfold str_lower in *. by rewrite fmap_drop.
  - intros stem c ext Hc1 Hc2 Hext. unfold is_allowed_file, get_file_extension.
    apply bool_decide_eq_true.
    rewrite String.list_ascii_of_string_of_list_ascii.
    destruct (allowed_extension_shape _ Hext) as (rest & Hrest & Hdot & Hsep).
    rewrite String.list_ascii_of_string_of_list_ascii in Hrest.
    destruct (ascii_lower_plain c Hc1 Hc2) as [Hl1 Hl2].
    replace (str_lower (stem ++ c :: ext))
      with ((str_lower stem ++ [ascii_lower c]) ++ "."%char :: rest).
    2:{ unfold str_lower in *. rewrite fmap_app, fmap_cons, Hrest, <- app_assoc. done. }
    set (S := str_lower stem ++ [ascii_lower c]).
    assert (length S = Datatypes.S (length (str_lower stem))) as HlenS.
    { unfold S. rewrite length_app. simpl. lia. }
    unfold splitext. rewrite rfind_app_last by done.
    rewrite rfind_app_notin.
    2:{ intros [?|?]%elem_of_cons; [discriminate|done]. }
    pose proof (rfind_last_ne "/"%char (str_lower stem) (ascii_lower c) Hl2) as Hsepb.
    pose proof (rfind_bounds "/"%char S) as Hb. fold S in Hsepb.
    destruct (Z.ltb_spec (rfind "/"%char S) (Z.of_nat (length S))) as [_|?]; [|lia].
    rewrite Nat2Z.id.
    set (k := Z.to_nat (rfind "/"%char S + 1)).
    assert (k ≤ length (str_lower stem))%nat as Hk by (unfold k; lia).
    rewrite drop_app_le by (rewrite HlenS; lia).
    rewrite take_app_length'.
    2:{ rewrite length_drop. unfold k. lia. }
    unfold S at 1. rewrite drop_app_le by done.
    rewrite forallb_app. simpl. rewrite (bool_decide_false (ascii_lower c = _)) by done.
    rewrite andb_false_r. simpl.
    rewrite drop_app_length. unfold str_lower in Hext.
    by rewrite <- Hrest.
  - intros dir ext Hdir Hext. unfold is_allowed_file, get_file_extension.
    apply bool_decide_eq_false.
    rewrite String.list_ascii_of_string_of_list_ascii.
    destruct (allowed_extension_shape _ Hext) as (rest & Hrest & Hdot & Hsep).
    rewrite String.list_ascii_of_string_of_list_ascii in Hrest.
    replace (str_lower (dir ++ ext)) with (str_lower dir ++ "."%char :: rest).
    2:{ unfold str_lower in *. by rewrite fmap_app, Hrest. }
    assert (splitext (str_lower dir ++ "."%char :: rest)
            = (str_lower dir ++ "."%char :: rest, [])) as ->.
    { unfold splitext. rewrite rfind_app_last by done.
      rewrite rfind_app_notin.
      2:{ intros [?|?]%elem_of_cons; [discriminate|done]. }
      assert (rfind "/"%char (str_lower dir) = Z.of_nat (length (str_lower dir)) - 1) as ->.
      { destruct Hdir as [->|[d ->]]; [done|].
        unfold str_lower. rewrite fmap_app. simpl.
        change (ascii_lower "/") with "/"%char.
        rewrite rfind_app_last by apply not_elem_of_nil.
        rewrite length_app. simpl. lia. }
      destruct (Z.ltb_spec (Z.of_nat (length (str_lower dir)) - 1)
                           (Z.of_nat (length (str_lower dir)))) as [_|?]; [|lia].
      replace (Z.to_nat (_ - (_ - 1 + 1))) with 0%nat by lia. done. }
    simpl. intros Hin. unfold ALLOWED_EXTENSIONS in Hin.
    repeat (apply elem_of_cons in Hin as [Hin|Hin]; [discriminate|]).
    by apply elem_of_nil in Hin.
Qed.

(** The names of the examples *)
Example is_allowed_file_examples :
  is_allowed_file "photo.JPG" = true
  ∧ is_allowed_file "a.b/photo.tiff" = true
  ∧ is_allowed_file ".png" = false
  ∧ is_allowed_file "uploads/.png" = false
  ∧ is_allowed_file "photo.png.exe" = false
  ∧ is_allowed_file "photo" = false.
Proof. repeat split; vm_compute; reflexivity. Qed.

(** ** [GET /download-file/{filename}] *)

Lemma str_contains_elem c s : str_contains [c] s = true ↔ c ∈ s.
Proof.
  induction s as [|a s IH]; simpl.
  - split; [discriminate|]. by intros ?%elem_of_nil.
  - rewrite andb_true_r, orb_true_iff, IH, elem_of_cons, bool_decide_eq_true.
    split; (intros [?|?]; [by left|by right]).
Qed.

Lemma startswith_slash name :
  startswith "/" name = true → "/"%char ∈ String.list_ascii_of_string name.
Proof.
  unfold startswith. intros [rest ->]%prefix_list. by left.
Qed.

(** X28. [GET /download-file/{filename}] sends only a file that lies
    directly in the results directory: when it answers, the name is not
    empty, has no slash and no two dots in a row, and the octets are those
    of [results/<filename>], which exists. A name with a slash or with two
    dots in a row is answered 400. *)
Theorem download_file_confined path_exists open_rb filename :
  (∀ content_type data,
     download_file path_exists open_rb filename = Ok (content_type, data) →
     filename ≠ EmptyString
     ∧ ("/"%char ∉ String.list_ascii_of_string filename)
     ∧ str_contains [".";"."]%char (String.list_ascii_of_string filename) = false
     ∧ path_exists ("results/" +:+ filename) = true
     ∧ open_rb ("results/" +:+ filename) = Ok data)
  ∧ ((("/"%char ∈ String.list_ascii_of_string filename)
      ∨ str_contains [".";"."]%char (String.list_ascii_of_string filename) = true)
     → download_file path_exists open_rb filename = Err (HTTPException 400)).
Proof.
  unfold download_file. split.
  - intros content_type data.
    destruct (bool_decide (filename = EmptyString)) eqn:He; simpl; [discriminate|].
    destruct (str_contains [_; _] _) eqn:Hdd; simpl; [discriminate|].
    destruct (str_contains [_] _) eqn:Hs; simpl; [discriminate|].
    assert ("/"%char ∉ String.list_ascii_of_string filename) as Hno.
    { intros Hin%str_contains_elem. congruence. }
    assert (join_results filename = "results/" +:+ filename) as ->.
    { unfold join_results. destruct (startswith "/" filename) eqn:Hst; [|done].
      by apply startswith_slash in Hst. }
    destruct (path_exists _) eqn:Hex; simpl; [|discriminate].
    destruct (open_rb _) as [stream|e] eqn:Hop; simpl.
    + intros [= <- <-]. split_and!; try done. by apply bool_decide_eq_false in He.
    + by destruct e.
  - intros [Hin%str_contains_elem|Hdd].
    + rewrite Hin. by rewrite !orb_true_r.
    + rewrite Hdd. by rewrite orb_true_r.
Qed.

(** ** [POST /get-mask-at-point-instant] of the Modal application *)

Section Instant.
Context `{Libs}.

(** X29. [POST /get-mask-at-point-instant] never succeeds: its request has
    no image, the lookup is made on the empty string, which is no image,
    and every failure is answered 500. *)
Theorem get_mask_at_point_instant_always_fails e request :
  image_open [] = Err e →
  ModalApi.get_mask_at_point_instant_endpoint request = Err (HTTPException 500).
Proof.
  intros Hopen. unfold ModalApi.get_mask_at_point_instant_endpoint.
  destruct (negb _); [done|].
  destruct (ModalApi.all_masks request) as [|info rest]; [done|].
  assert (_decode_image EmptyString = Err ValueError) as Hdec.
  { unfold _decode_image. simpl.
    change (Base64.b64decode EmptyString) with (Ok (@nil ascii)).
    simpl. by rewrite Hopen. }
  unfold get_mask_at_point. rewrite Hdec. done.
Qed.
End Instant.

Lemma get_mask_at_point_instant_always_fails_witness :
  @ModalApi.get_mask_at_point_instant_endpoint ref_libs
    (ModalApi.Build_GetMaskAtPointInstantRequest "s2" [0; 0] None
       Samples.three_candidates)
  = Err (HTTPException 500).
Proof.
  apply (@get_mask_at_point_instant_always_fails ref_libs UnidentifiedImageError).
  vm_compute. reflexivity.
Defined.

(** ** The two parsers of colours *)

Lemma hex_digit_plain c v :
  hex_digit c = Some v →
  py_isspace c = false ∧ c ≠ "-"%char ∧ c ≠ "+"%char ∧ c ≠ "#"%char.
Proof.
  destruct c as [[] [] [] [] [] [] [] []]; vm_compute; intros Hv; try discriminate;
    by repeat split.
Qed.

Lemma int16_two a b va vb :
  hex_digit a = Some va → hex_digit b = Some vb → int16 [a; b] = Ok (16 * va + vb).
Proof.
  intros Ha Hb.
  destruct (hex_digit_plain _ _ Ha) as (Hsa & Hma & Hpa & _).
  destruct (hex_digit_plain _ _ Hb) as (Hsb & _).
  unfold int16. cbn [lstrip]. rewrite Hsa.
  change (reverse [a; b]) with [b; a]. cbn [lstrip]. rewrite Hsb.
  change (reverse [b; a]) with [a; b].
  clear Hsa Hma Hpa. revert Ha.
  destruct a as [[] [] [] [] [] [] [] []]; intros Ha; vm_compute in Ha;
    try discriminate; injection Ha as <-;
    cbn [hex_digits mbind option_bind hex_digit nat_of_ascii]; simpl;
    rewrite Hb; simpl; f_equal; lia.
Qed.

(** X30. On [#] followed by six hexadecimal digits, [_hex_to_rgb] of the
    Modal application and the parser of [paint_multiple_masks_local] give
    the same colour, with each channel in 0..255. *)
Theorem hex_colour_parsers_agree d1 d2 d3 d4 d5 d6 v1 v2 v3 v4 v5 v6 :
  hex_digit d1 = Some v1 → hex_digit d2 = Some v2 → hex_digit d3 = Some v3 →
  hex_digit d4 = Some v4 → hex_digit d5 = Some v5 → hex_digit d6 = Some v6 →
  let color := String.string_of_list_ascii ["#"%char; d1; d2; d3; d4; d5; d6] in
  let parsed := RGB (16 * v1 + v2) (16 * v3 + v4) (16 * v5 + v6) in
  _hex_to_rgb color = Ok parsed
  ∧ color_rgb_of color = Ok parsed
  ∧ rgb_all uint8 parsed.
Proof.
  intros H1 H2 H3 H4 H5 H6 color parsed.
  destruct (hex_digit_plain _ _ H1) as (_ & _ & _ & Hh).
  split_and!.
  - unfold _hex_to_rgb, color.
    rewrite String.list_ascii_of_string_of_list_ascii. cbn [lstrip].
    rewrite bool_decide_true by done. rewrite bool_decide_false by done.
    change (slice2 0 [d1; d2; d3; d4; d5; d6]) with [d1; d2].
    change (slice2 2 [d1; d2; d3; d4; d5; d6]) with [d3; d4].
    change (slice2 4 [d1; d2; d3; d4; d5; d6]) with [d5; d6].
    by rewrite (int16_two _ _ _ _ H1 H2), (int16_two _ _ _ _ H3 H4),
      (int16_two _ _ _ _ H5 H6).
  - unfold color_rgb_of, color.
    rewrite String.list_ascii_of_string_of_list_ascii.
    change (slice2 1 ["#"%char; d1; d2; d3; d4; d5; d6]) with [d1; d2].
    change (slice2 3 ["#"%char; d1; d2; d3; d4; d5; d6]) with [d3; d4].
    change (slice2 5 ["#"%char; d1; d2; d3; d4; d5; d6]) with [d5; d6].
    by rewrite (int16_two _ _ _ _ H1 H2), (int16_two _ _ _ _ H3 H4),
      (int16_two _ _ _ _ H5 H6).
  - apply hex_digit_range in H1, H2, H3, H4, H5, H6.
    unfold rgb_all, uint8, parsed. simpl. lia.
Qed.

Lemma hex_colour_parsers_agree_witness :
  _hex_to_rgb "#1e90FF" = Ok (RGB 30 144 255)
  ∧ color_rgb_of "#1e90FF" = Ok (RGB 30 144 255)
  ∧ rgb_all uint8 (RGB 30 144 255).
Proof.
  apply (hex_colour_parsers_agree "1" "e" "9" "0" "F" "F" 1 14 9 0 15 15);
    reflexivity.
Defined.
